(** * Desafio 2: the data lake manager ([GerenciadorDataLake])

    A shallow embedding of [src/desafio2/gerenciador_data_lake.py] and the
    properties of its storage, query, statistics and retention operations.

    The development has two halves.  The first holds the definitions: the
    pieces of the Python runtime the manager relies on (strings, [pathlib]
    paths, [datetime] dates, JSON documents, the directory tree and the
    logger), then the manager's methods, each under the name it has in the
    source.  The second half holds the lemmas and the theorems. *)

From stdpp Require Import gmap strings list fin_maps pretty sorting.
From Stdlib Require Import Ascii ZArith Lia.

Local Open Scope string_scope.
Local Open Scope list_scope.
Local Open Scope Z_scope.

Set Warnings "-register-all".

(* ===================================================================== *)
(** * Part I: definitions *)
(* ===================================================================== *)

(** ** Strings

    A Python [str] is a Rocq [string]: the UTF-8 bytes of the text. *)

Module PyStr.

(** [s.startswith(p)] *)
Definition startswith (p s : string) : bool := String.prefix p s.

(** [s.endswith(p)]: [s] is [p], or what follows its first character ends
    with [p]. *)
Fixpoint endswith (p s : string) : bool :=
  bool_decide (s = p)
  || match s with
     | String _ s' => endswith p s'
     | EmptyString => false
     end.

(** [s.split(c)]: the fields between the occurrences of [c]; never empty. *)
Fixpoint split (c : ascii) (s : string) : list string :=
  match s with
  | EmptyString => [""]
  | String a s' =>
      if Ascii.eqb a c then "" :: split c s'
      else match split c s' with
           | [] => [String a ""]
           | w :: ws => String a w :: ws
           end
  end.

(** [sep.join(l)] *)
Fixpoint join (sep : string) (l : list string) : string :=
  match l with
  | [] => ""
  | [x] => x
  | x :: l' => x +:+ sep +:+ join sep l'
  end.

(** [s.rfind(c)], [None] standing for Python's [-1]. *)
Fixpoint rfind (c : ascii) (s : string) : option nat :=
  match s with
  | EmptyString => None
  | String a s' =>
      match rfind c s' with
      | Some i => Some (S i)
      | None => if Ascii.eqb a c then Some O else None
      end
  end.

(** [s[:n]] *)
Definition take (n : nat) (s : string) : string := String.substring 0 n s.

(** [s.zfill(w)] on the digits of a natural number: what the format
    specifications [:02d], [:04d] and [:06d] do to a value that is not
    negative. *)
Definition zfill (w : nat) (s : string) : string :=
  String.concat "" (replicate (w - String.length s) "0") +:+ s.

(** [f"{n}"] for an [int]. *)
Definition fmt_d (n : Z) : string := pretty n.

(** [f"{n:0wd}"] for an [int] that is not negative. *)
Definition fmt_0d (w : nat) (n : Z) : string := zfill w (pretty n).

(** The white space [int] strips from both ends of its argument: tab,
    line feed, vertical tab, form feed, carriage return and space.  (The
    separators 0x1c to 0x1f are white space for [str.strip] but not for
    [int].) *)
Definition is_space (a : ascii) : bool :=
  let n := nat_of_ascii a in
  ((9 <=? n) && (n <=? 13) || (n =? 32))%nat.

Fixpoint lstrip (s : string) : string :=
  match s with
  | String a s' => if is_space a then lstrip s' else s
  | EmptyString => EmptyString
  end.

Definition strip (s : string) : string :=
  String.rev (lstrip (String.rev (lstrip s))).

Definition digit (a : ascii) : option Z :=
  let n := nat_of_ascii a in
  if ((48 <=? n) && (n <=? 57))%nat then Some (Z.of_nat n - 48) else None.

(** The digits of an [int] literal, most significant first, with the
    single underscores Python allows between two digits.  [acc] is the
    value read so far and [prev] tells whether the previous character
    was a digit. *)
Fixpoint digits (acc : Z) (prev : bool) (s : string) : option Z :=
  match s with
  | EmptyString => if prev then Some acc else None
  | String a s' =>
      match digit a with
      | Some d => digits (10 * acc + d) true s'
      | None =>
          if Ascii.eqb a "_" && prev
          then match s' with
               | String b _ =>
                   if digit b is Some _ then digits acc false s' else None
               | EmptyString => None
               end
          else None
      end
  end.

(** [s.isascii()] *)
Fixpoint isascii (s : string) : bool :=
  match s with
  | String a s' => (nat_of_ascii a <? 128)%nat && isascii s'
  | EmptyString => true
  end.

(** [int(s)] on a [str], base ten: surrounding white space, one optional
    sign, digits.  [None] is [ValueError].  This is [int] on the strings
    that are ASCII ([isascii]); outside ASCII [int] also reads the other
    decimal digits and spaces of Unicode, which this function does not. *)
Definition int (s : string) : option Z :=
  match strip s with
  | String "-" s' => Z.opp <$> digits 0 false s'
  | String "+" s' => digits 0 false s'
  | s' => digits 0 false s'
  end.

End PyStr.

(** ** Paths ([pathlib.PurePosixPath])

    A path is the list of its [parts].  An absolute path starts with the
    part ["/"] (or ["//"]); no other part holds a slash, is empty or is a
    single dot. *)

Abbreviation path := (list string).

Module PurePath.

Definition root_of (s : string) : string :=
  if PyStr.startswith "//" s && negb (PyStr.startswith "///" s) then "//"
  else if PyStr.startswith "/" s then "/"
  else "".

(** The parts a string contributes besides the root. *)
Definition segments (s : string) : list string :=
  filter (λ x, x ≠ "" ∧ x ≠ ".") (PyStr.split "/" s).

(** [Path(s)] *)
Definition Path (s : string) : path :=
  match root_of s with
  | EmptyString => segments s
  | r => r :: segments s
  end.

(** [p / s]: an absolute [s] replaces [p]. *)
Definition div (p : path) (s : string) : path :=
  if PyStr.startswith "/" s then Path s else p ++ segments s.

Definition is_root (s : string) : bool :=
  bool_decide (s = "/") || bool_decide (s = "//").

(** [str(p)] *)
Definition str (p : path) : string :=
  match p with
  | [] => "."
  | r :: rest => if is_root r then r +:+ PyStr.join "/" rest
                 else PyStr.join "/" p
  end.

(** [p.name] *)
Definition name (p : path) : string :=
  match last p with
  | Some n => if is_root n then "" else n
  | None => ""
  end.

(** [p.stem]: the name without its last suffix. *)
Definition stem (p : path) : string :=
  let n := name p in
  match PyStr.rfind "." n with
  | Some i => if ((0 <? i) && (i <? String.length n - 1))%nat
              then PyStr.take i n else n
  | None => n
  end.

(** [p.parent] *)
Definition parent (p : path) : path := removelast p.

End PurePath.

Notation "p // s" := (PurePath.div p s) (at level 40, left associativity).

(** ** Dates ([datetime.date], [datetime.datetime])

    The calendar arithmetic is CPython's ([Lib/_pydatetime.py]). *)

Module Calendar.

Definition MINYEAR : Z := 1.
Definition MAXYEAR : Z := 9999.
Definition _MAXORDINAL : Z := 3652059.

Definition _is_leap (year : Z) : bool :=
  (year mod 4 =? 0) && (negb (year mod 100 =? 0) || (year mod 400 =? 0)).

Definition _days_before_year (year : Z) : Z :=
  let y := year - 1 in
  y * 365 + y / 4 - y / 100 + y / 400.

Definition _DAYS_IN_MONTH (month : Z) : Z :=
  match month with
  | 1 => 31 | 2 => 28 | 3 => 31 | 4 => 30 | 5 => 31 | 6 => 30
  | 7 => 31 | 8 => 31 | 9 => 30 | 10 => 31 | 11 => 30 | 12 => 31
  | _ => -1
  end.

Definition _DAYS_BEFORE_MONTH (month : Z) : Z :=
  match month with
  | 1 => 0 | 2 => 31 | 3 => 59 | 4 => 90 | 5 => 120 | 6 => 151
  | 7 => 181 | 8 => 212 | 9 => 243 | 10 => 273 | 11 => 304 | 12 => 334
  | _ => -1
  end.

Definition _days_in_month (year month : Z) : Z :=
  if (month =? 2) && _is_leap year then 29 else _DAYS_IN_MONTH month.

Definition _days_before_month (year month : Z) : Z :=
  _DAYS_BEFORE_MONTH month
  + (if (2 <? month) && _is_leap year then 1 else 0).

Definition _ymd2ord (year month day : Z) : Z :=
  _days_before_year year + _days_before_month year month + day.

Definition _DI400Y : Z := 146097.
Definition _DI100Y : Z := 36524.
Definition _DI4Y : Z := 1461.

Definition _ord2ymd (n : Z) : Z * Z * Z :=
  let n := n - 1 in
  let n400 := n / _DI400Y in
  let n := n mod _DI400Y in
  let year := n400 * 400 + 1 in
  let n100 := n / _DI100Y in
  let n := n mod _DI100Y in
  let n4 := n / _DI4Y in
  let n := n mod _DI4Y in
  let n1 := n / 365 in
  let n := n mod 365 in
  let year := year + n100 * 100 + n4 * 4 + n1 in
  if (n1 =? 4) || (n100 =? 4) then (year - 1, 12, 31)
  else
    let leapyear := (n1 =? 3) && (negb (n4 =? 24) || (n100 =? 3)) in
    let month := Z.shiftr (n + 50) 5 in
    let preceding :=
      _DAYS_BEFORE_MONTH month
      + (if (2 <? month) && leapyear then 1 else 0) in
    if n <? preceding then
      let month := month - 1 in
      let preceding :=
        preceding
        - (_DAYS_IN_MONTH month
           + (if (month =? 2) && leapyear then 1 else 0)) in
      (year, month, n - preceding + 1)
    else (year, month, n - preceding + 1).

(** [_check_date_fields]: the test behind [date(year, month, day)]. *)
Definition check_date_fields (year month day : Z) : bool :=
  (MINYEAR <=? year) && (year <=? MAXYEAR)
  && (1 <=? month) && (month <=? 12)
  && (1 <=? day) && (day <=? _days_in_month year month).

End Calendar.

(** A [date] is kept as its proleptic Gregorian ordinal, the number
    [date.toordinal()] returns: day 1 is 0001-01-01 and day [_MAXORDINAL]
    is 9999-12-31.  Dates compare as their ordinals do. *)
Record date := Date { toordinal : Z }.

Definition date_valid (d : date) : Prop :=
  1 <= toordinal d <= Calendar._MAXORDINAL.

Definition date_year (d : date) : Z := (Calendar._ord2ymd (toordinal d)).1.1.
Definition date_month (d : date) : Z := (Calendar._ord2ymd (toordinal d)).1.2.
Definition date_day (d : date) : Z := (Calendar._ord2ymd (toordinal d)).2.

(** [d1 <= d2] and [d1 < d2] *)
Definition date_le (d1 d2 : date) : bool := toordinal d1 <=? toordinal d2.
Definition date_lt (d1 d2 : date) : bool := toordinal d1 <? toordinal d2.

(** [d.isoformat()] *)
Definition date_isoformat (d : date) : string :=
  PyStr.fmt_0d 4 (date_year d) +:+ "-" +:+ PyStr.fmt_0d 2 (date_month d)
  +:+ "-" +:+ PyStr.fmt_0d 2 (date_day d).

(** [datetime.now()] is an input of the operations that read the clock. *)
Record datetime := DateTime {
  dt_date : date;
  dt_hour : Z;
  dt_minute : Z;
  dt_second : Z;
  dt_microsecond : Z
}.

(** [ts.strftime('%Y%m%d_%H%M%S')] (the year on four digits, as for every
    year from 1000 on). *)
Definition strftime_Ymd_HMS (ts : datetime) : string :=
  PyStr.fmt_0d 4 (date_year (dt_date ts))
  +:+ PyStr.fmt_0d 2 (date_month (dt_date ts))
  +:+ PyStr.fmt_0d 2 (date_day (dt_date ts)) +:+ "_"
  +:+ PyStr.fmt_0d 2 (dt_hour ts) +:+ PyStr.fmt_0d 2 (dt_minute ts)
  +:+ PyStr.fmt_0d 2 (dt_second ts).

(** [ts.isoformat()] *)
Definition datetime_isoformat (ts : datetime) : string :=
  date_isoformat (dt_date ts) +:+ "T"
  +:+ PyStr.fmt_0d 2 (dt_hour ts) +:+ ":" +:+ PyStr.fmt_0d 2 (dt_minute ts)
  +:+ ":" +:+ PyStr.fmt_0d 2 (dt_second ts)
  +:+ (if dt_microsecond ts =? 0 then ""
       else "." +:+ PyStr.fmt_0d 6 (dt_microsecond ts)).

(** ** Dictionaries with [str] keys

    A [dict] is the list of its items in insertion order. *)

Module Dict.
Section dict.
Context {A : Type}.

(** [d.get(k)] *)
Fixpoint get (k : string) (m : list (string * A)) : option A :=
  match m with
  | [] => None
  | (k', v) :: m' => if bool_decide (k' = k) then Some v else get k m'
  end.

(** [d[k] = v]: a key that is present keeps its place. *)
Fixpoint set (k : string) (v : A) (m : list (string * A))
  : list (string * A) :=
  match m with
  | [] => [(k, v)]
  | (k', v') :: m' =>
      if bool_decide (k' = k) then (k, v) :: m' else (k', v') :: set k v m'
  end.

(** [d.update(e)] *)
Definition update (m e : list (string * A)) : list (string * A) :=
  foldl (λ acc kv, set kv.1 kv.2 acc) m e.
End dict.
End Dict.

(** ** JSON documents

    A payload is a JSON document.  An object is the list of its members in
    insertion order, as a Python [dict] keeps them; a [float] is carried by
    its [repr], the text [json.dumps] writes for it. *)

Inductive json :=
| JNull
| JBool (b : bool)
| JInt (n : Z)
| JFloat (repr : string)
| JStr (s : string)
| JArr (items : list json)
| JObj (members : list (string * json)).

(** What the model takes from the interpreter: the MD5 digest of
    [hashlib]; the string escaping of the [json] encoder with
    [ensure_ascii=True], quotes included ([py_encode_basestring_ascii]);
    and [sys.get_int_max_str_digits()], the number of decimal digits
    beyond which the conversion of an [int] into text raises [ValueError]
    (4300 by default since CPython 3.11; 0 is no limit). *)
Class Runtime := {
  md5_hexdigest : string → string;
  py_encode_basestring_ascii : string → string;
  int_max_str_digits : N
}.

Module Json.

(** [d.get(k)], [d[k] = v] and [d.update(e)] on the members of an
    object. *)
Definition get := @Dict.get json.
Definition set := @Dict.set json.
Definition update := @Dict.update json.

(** A document whose objects have no repeated key: the documents Python
    can hold. *)
Fixpoint wf (j : json) : Prop :=
  match j with
  | JArr l => foldr (λ x P, wf x ∧ P) True l
  | JObj m => NoDup m.*1 ∧ foldr (λ kv P, wf kv.2 ∧ P) True m
  | _ => True
  end.

(** Equality of documents, objects being compared as mappings: the same
    keys with equal values, whatever the order of insertion. *)
Fixpoint mapping_eq (a b : json) : bool :=
  match a, b with
  | JNull, JNull => true
  | JBool x, JBool y => bool_decide (x = y)
  | JInt x, JInt y => bool_decide (x = y)
  | JFloat x, JFloat y => bool_decide (x = y)
  | JStr x, JStr y => bool_decide (x = y)
  | JArr l1, JArr l2 =>
      (fix go (l1 l2 : list json) : bool :=
         match l1, l2 with
         | [], [] => true
         | x :: l1', y :: l2' => mapping_eq x y && go l1' l2'
         | _, _ => false
         end) l1 l2
  | JObj m1, JObj m2 =>
      bool_decide (length m1 = length m2)
      && forallb (λ kv,
           match get kv.1 m2 with
           | Some w => mapping_eq kv.2 w
           | None => false
           end) m1
  | _, _ => false
  end.

(** The documents the encoder can write: those whose every [int] has no
    more decimal digits than the interpreter converts into text, that is,
    lies below the power of ten with that many zeros.  (An [int] of fewer
    than three bits for each digit allowed lies below that power, and one
    of more than four bits for each digit does not: the two tests on the
    number of bits only spare the computation of the power.) *)
Definition int_fits `{Runtime} (n : Z) : bool :=
  if (int_max_str_digits =? 0)%N then true
  else if Z.log2 (Z.abs n) <? 3 * Z.of_N int_max_str_digits then true
  else if 4 * Z.of_N int_max_str_digits <=? Z.log2 (Z.abs n) then false
  else Z.abs n <? 10 ^ Z.of_N int_max_str_digits.

Fixpoint serializable `{Runtime} (j : json) : bool :=
  match j with
  | JInt n => int_fits n
  | JArr l => forallb serializable l
  | JObj m => forallb (λ kv, serializable kv.2) m
  | _ => true
  end.

(** Equality as Python decides it, [a == b]: a [bool], an [int] and a
    [float] are compared by their value, so that [True == 1 == 1.0]; the
    other values are compared as in [mapping_eq].  The whole number a
    [float] stands for is read off its [repr], which ends in [".0"] for the
    whole numbers written without exponent; two other floats are told
    apart by their [repr].  (Without [nan], and without the floats written
    with an exponent, a value that passes the test is equal in Python.) *)
Definition whole_float (r : string) : option Z :=
  if PyStr.endswith ".0" r
  then PyStr.int (PyStr.take (String.length r - 2) r)
  else None.

Definition as_int (j : json) : option Z :=
  match j with
  | JBool b => Some (if b then 1 else 0)
  | JInt n => Some n
  | JFloat r => whole_float r
  | _ => None
  end.

Fixpoint py_eq (a b : json) : bool :=
  match as_int a, as_int b with
  | Some x, Some y => bool_decide (x = y)
  | Some _, None | None, Some _ => false
  | None, None =>
      match a, b with
      | JNull, JNull => true
      | JFloat x, JFloat y => bool_decide (x = y)
      | JStr x, JStr y => bool_decide (x = y)
      | JArr l1, JArr l2 =>
          (fix go (l1 l2 : list json) : bool :=
             match l1, l2 with
             | [], [] => true
             | x :: l1', y :: l2' => py_eq x y && go l1' l2'
             | _, _ => false
             end) l1 l2
      | JObj m1, JObj m2 =>
          bool_decide (length m1 = length m2)
          && forallb (λ kv,
               match get kv.1 m2 with
               | Some w => py_eq kv.2 w
               | None => false
               end) m1
      | _, _ => false
      end
  end.

(** [sorted(items)] on the items of a [dict]: by key. *)
Definition sort_items {A} (l : list (string * A)) : list (string * A) :=
  merge_sort (λ a b, String.le a.1 b.1) l.

(** The escaping of the encoder with [ensure_ascii=False]
    ([py_encode_basestring]): only the quote, the backslash and the
    control characters are rewritten. *)
Definition hex_digit (n : nat) : string :=
  String.substring n 1 "0123456789abcdef".

Definition dquote : string := String "034" "".

Definition escape_char (a : ascii) : string :=
  let n := nat_of_ascii a in
  if (n =? 34)%nat then "\" +:+ dquote
  else if (n =? 92)%nat then "\\"
  else if (n =? 10)%nat then "\n"
  else if (n =? 13)%nat then "\r"
  else if (n =? 9)%nat then "\t"
  else if (n =? 12)%nat then "\f"
  else if (n =? 8)%nat then "\b"
  else if (n <? 32)%nat
       then "\u00" +:+ hex_digit (n / 16) +:+ hex_digit (n mod 16)
  else String a "".

Fixpoint escape_body (s : string) : string :=
  match s with
  | EmptyString => ""
  | String a s' => escape_char a +:+ escape_body s'
  end.

Definition py_encode_basestring (s : string) : string :=
  dquote +:+ escape_body s +:+ dquote.

Definition newline_indent (indent : option nat) (level : nat) : string :=
  match indent with
  | Some w => String "010" (String.concat "" (replicate (w * level) " "))
  | None => ""
  end.

(** The text of a container: [open], the items and [close], laid out as
    the encoder does for the given [indent]. *)
Definition container (indent : option nat) (level : nat)
    (opening closing : string) (items : list string) : string :=
  match items with
  | [] => opening +:+ closing
  | _ =>
      let sep := match indent with
                 | Some _ => "," +:+ newline_indent indent (S level)
                 | None => ", "
                 end in
      opening +:+ newline_indent indent (S level)
      +:+ PyStr.join sep items
      +:+ newline_indent indent level +:+ closing
  end.

(** The text [json.dumps(j, sort_keys=..., indent=..., ensure_ascii=...)]
    returns for a document the encoder can write ([serializable]). *)
Section encoder.
Context `{Runtime}.
Variable sort_keys : bool.
Variable indent : option nat.
Variable ensure_ascii : bool.

Definition encode_str (s : string) : string :=
  if ensure_ascii then py_encode_basestring_ascii s
  else py_encode_basestring s.

Fixpoint encode (level : nat) (j : json) : string :=
  match j with
  | JNull => "null"
  | JBool true => "true"
  | JBool false => "false"
  | JInt n => PyStr.fmt_d n
  | JFloat r => r
  | JStr s => encode_str s
  | JArr l =>
      container indent level "[" "]" (encode (S level) <$> l)
  | JObj m =>
      let items := (λ kv, (kv.1, encode (S level) kv.2)) <$> m in
      let items := if sort_keys then sort_items items else items in
      container indent level "{" "}"
        ((λ kv, encode_str kv.1 +:+ ": " +:+ kv.2) <$> items)
  end.
(** What [iterencode] has yielded, piece after piece, when an [int] of
    too many digits makes it raise, or when it comes to its end: the text
    and whether the value was written to its end.  [buf] is what the
    encoder holds back to yield together with the first piece of the
    value: the bracket that opens a list, or the separator before an item
    of a list; a member of an object comes after its key and the colon,
    which are yielded before it. *)
Definition join_written (first sep : string)
    (items : list (string * bool)) : string * bool :=
  (fix go (hold : string) (l : list (string * bool)) : string * bool :=
     match l with
     | [] => ("", true)
     | (t, ok) :: l' =>
         if ok then let r := go sep l' in (hold +:+ t +:+ r.1, r.2)
         else (hold +:+ t, false)
     end) first items.

Fixpoint written (level : nat) (buf : string) (j : json) : string * bool :=
  match j with
  | JNull => (buf +:+ "null", true)
  | JBool true => (buf +:+ "true", true)
  | JBool false => (buf +:+ "false", true)
  | JInt n => if int_fits n then (buf +:+ PyStr.fmt_d n, true) else ("", false)
  | JFloat r => (buf +:+ r, true)
  | JStr s => (buf +:+ encode_str s, true)
  | JArr [] => (buf +:+ "[]", true)
  | JArr l =>
      let sep := match indent with
                 | Some _ => "," +:+ newline_indent indent (S level)
                 | None => ", "
                 end in
      let body :=
        (fix go (hold : string) (l : list json) : string * bool :=
           match l with
           | [] => ("", true)
           | x :: l' =>
               let r := written (S level) hold x in
               if r.2 then let r' := go sep l' in (r.1 +:+ r'.1, r'.2)
               else r
           end) ("[" +:+ newline_indent indent (S level)) l in
      if body.2
      then (buf +:+ body.1 +:+ newline_indent indent level +:+ "]", true)
      else (buf +:+ body.1, false)
  | JObj [] => (buf +:+ "{}", true)
  | JObj m =>
      let sep := match indent with
                 | Some _ => "," +:+ newline_indent indent (S level)
                 | None => ", "
                 end in
      let items := (λ kv, (kv.1, written (S level) "" kv.2)) <$> m in
      let items := if sort_keys then sort_items items else items in
      let body :=
        join_written "" sep
          ((λ kv, (encode_str kv.1 +:+ ": " +:+ kv.2.1, kv.2.2)) <$> items) in
      let opening := buf +:+ "{" +:+ newline_indent indent (S level) in
      if body.2
      then (opening +:+ body.1 +:+ newline_indent indent level +:+ "}", true)
      else (opening +:+ body.1, false)
  end.
End encoder.

Definition dumps `{Runtime} (sort_keys : bool) (indent : option nat)
    (ensure_ascii : bool) (j : json) : string :=
  encode sort_keys indent ensure_ascii 0 j.

End Json.

(** ** Exceptions and the logger *)

Inductive exn :=
| FileNotFoundError
| FileExistsError
| NotADirectoryError
| IsADirectoryError
| JSONDecodeError
| ValueError
| IndexError
| TypeError
| OverflowError.

#[global] Instance exn_eq_dec : EqDecision exn.
Proof. solve_decision. Defined.

(** [except ValueError] also catches the subclasses of [ValueError]. *)
Definition is_ValueError (e : exn) : bool :=
  match e with
  | ValueError | JSONDecodeError => true
  | _ => false
  end.

(** The records the manager emits at the levels WARNING and ERROR, by call
    site.  (The INFO messages are not kept: nothing reads them.) *)
Inductive log_record :=
| WarnErroLerArquivo (arquivo_json : path) (erro : exn)
| WarnDataInvalida (pasta_dia : path)
| ErrorArmazenar (erro : exn).

(** ** The directory tree

    The tree under the process's working directory: every entry is found
    under the list of its parts.  A regular file is kept as what [json.load]
    makes of its text, together with its size in bytes.  Names are taken
    literally ([..] and symbolic links are not resolved). *)

Inductive contents :=
| Document (j : json)
| Unreadable.

Inductive node :=
| Dir
| File (data : contents) (st_size : N).

Abbreviation tree := (gmap path node).

Record world := World {
  fs : tree;
  log : list log_record
}.

Module Fs.

(** The working directory itself is a directory. *)
Definition lookup (t : tree) (p : path) : option node :=
  match p with
  | [] => Some Dir
  | _ => t !! p
  end.

(** [p.exists()], [p.is_dir()], [p.is_file()] *)
Definition exists_ (t : tree) (p : path) : bool :=
  bool_decide (is_Some (lookup t p)).

Definition is_dir (t : tree) (p : path) : bool :=
  match lookup t p with Some Dir => true | _ => false end.

Definition is_file (t : tree) (p : path) : bool :=
  match lookup t p with Some (File _ _) => true | _ => false end.

(** Name resolution along [rest] from the directory [at_]: the error of
    the first part that is missing or is not a directory. *)
Fixpoint walk (t : tree) (at_ : path) (rest : list string) : option exn :=
  match rest with
  | [] => None
  | n :: rest' =>
      match lookup t (at_ ++ [n]) with
      | Some Dir => walk t (at_ ++ [n]) rest'
      | Some (File _ _) => Some NotADirectoryError
      | None => Some FileNotFoundError
      end
  end.

(** What prevents reaching the directory that holds [p], if anything. *)
Definition parent_error (t : tree) (p : path) : option exn :=
  walk t [] (removelast p).

(** The name under which [k] is an entry of the directory [p]. *)
Definition child_name (p k : path) : option string :=
  match last k with
  | Some n => if bool_decide (k = p ++ [n]) then Some n else None
  | None => None
  end.

(** The entries of the directory [p], as [os.scandir] lists them. *)
Definition children (t : tree) (p : path) : list path :=
  filter (λ k, is_Some (child_name p k)) (map_to_list t).*1.

(** Everything below [p]. *)
Definition descendants (t : tree) (p : path) : list path :=
  filter (λ k, p `prefix_of` k ∧ k ≠ p) (map_to_list t).*1.

(** The glob patterns the manager uses: [prefix*], [*suffix] and [*]. *)
Inductive pattern :=
| Prefix (s : string)
| Suffix (s : string)
| Any.

Definition matches (pat : pattern) (name : string) : bool :=
  match pat with
  | Prefix s => PyStr.startswith s name
  | Suffix s => PyStr.endswith s name
  | Any => true
  end.

(** [p.glob(pat)] and [p.rglob(pat)]: nothing when [p] is not a
    directory. *)
Definition glob (pat : pattern) (t : tree) (p : path) : list path :=
  if is_dir t p
  then filter (λ k, matches pat (PurePath.name k) = true) (children t p)
  else [].

Definition rglob (pat : pattern) (t : tree) (p : path) : list path :=
  if is_dir t p
  then filter (λ k, matches pat (PurePath.name k) = true) (descendants t p)
  else [].

(** The tree without [p] and what is below it. *)
Definition remove_subtree (p : path) (t : tree) : tree :=
  filter (λ kv, ¬ p `prefix_of` kv.1) t.

End Fs.

(** ** Computations

    A method runs on a [world], may change it, and either returns a value
    or raises; what it did before raising stays done. *)

Definition io (A : Type) : Type := world → world * (exn + A).

#[global] Instance io_ret : MRet io := λ A a w, (w, inr a).

#[global] Instance io_bind : MBind io := λ A B f m w,
  match m w with
  | (w', inr a) => f a w'
  | (w', inl e) => (w', inl e)
  end.

Definition raise {A} (e : exn) : io A := λ w, (w, inl e).

(** [try: m except Exception as e: h e] *)
Definition try_except {A} (m : io A) (h : exn → io A) : io A := λ w,
  match m w with
  | (w', inl e) => h e w'
  | r => r
  end.

(** [try: m except ValueError: h] *)
Definition try_except_ValueError {A} (m : io A) (h : io A) : io A :=
  try_except m (λ e, if is_ValueError e then h else raise e).

Definition gets {A} (f : tree → A) : io A := λ w, (w, inr (f (fs w))).

Definition put_fs (t : tree) : io unit := λ w,
  ({| fs := t; log := log w |}, inr ()).

Definition emit (r : log_record) : io unit := λ w,
  ({| fs := fs w; log := log w ++ [r] |}, inr ()).

Definition lift {A} (r : exn + A) : io A := λ w, (w, r).

(** [for x in l: acc = body acc x] *)
Fixpoint for_ {A B} (l : list A) (acc : B) (body : B → A → io B) : io B :=
  match l with
  | [] => mret acc
  | x :: l' => acc' ← body acc x; for_ l' acc' body
  end.

Module Os.

(** [os.mkdir(p)] *)
Definition mkdir (p : path) : io unit :=
  t ← gets id;
  match Fs.parent_error t p with
  | Some e => raise e
  | None =>
      if Fs.exists_ t p then raise FileExistsError
      else put_fs (<[p := Dir]> t)
  end.

(** [p.mkdir(parents=False, exist_ok=...)] *)
Definition mkdir_flat (exist_ok : bool) (p : path) : io unit :=
  try_except (mkdir p) (λ e,
    match e with
    | FileNotFoundError => raise e
    | _ =>
        d ← gets (λ t, Fs.is_dir t p);
        if exist_ok && d then mret () else raise e
    end).

(** [p.mkdir(parents=True, exist_ok=...)], [rp] being the parts of [p]
    from the last to the first. *)
Fixpoint mkdir_parents (exist_ok : bool) (rp : list string) : io unit :=
  try_except (mkdir (rev rp)) (λ e,
    match e with
    | FileNotFoundError =>
        match rp with
        | [] => raise e
        | _ :: rp' =>
            mkdir_parents true rp';; mkdir_flat exist_ok (rev rp)
        end
    | _ =>
        d ← gets (λ t, Fs.is_dir t (rev rp));
        if exist_ok && d then mret () else raise e
    end).

(** [p.mkdir(parents=..., exist_ok=...)] *)
Definition Path_mkdir (parents exist_ok : bool) (p : path) : io unit :=
  if parents then mkdir_parents exist_ok (rev p) else mkdir_flat exist_ok p.

(** [with open(p, 'w') as f: f.write(text)], [data] being what the text
    reads back as and [size] its length. *)
Definition write_file (p : path) (data : contents) (size : N) : io unit :=
  t ← gets id;
  match Fs.parent_error t p with
  | Some e => raise e
  | None =>
      match Fs.lookup t p with
      | Some Dir => raise IsADirectoryError
      | _ => put_fs (<[p := File data size]> t)
      end
  end.

(** [with open(p, 'r') as f: json.load(f)] *)
Definition load_json (p : path) : io json :=
  t ← gets id;
  match Fs.parent_error t p with
  | Some e => raise e
  | None =>
      match Fs.lookup t p with
      | None => raise FileNotFoundError
      | Some Dir => raise IsADirectoryError
      | Some (File (Document j) _) => mret j
      | Some (File Unreadable _) => raise JSONDecodeError
      end
  end.

(** [p.iterdir()] *)
Definition iterdir (p : path) : io (list path) :=
  t ← gets id;
  match Fs.parent_error t p with
  | Some e => raise e
  | None =>
      match Fs.lookup t p with
      | None => raise FileNotFoundError
      | Some (File _ _) => raise NotADirectoryError
      | Some Dir => mret (Fs.children t p)
      end
  end.

(** [p.stat().st_size]; the manager asks it of regular files only. *)
Definition stat_size (p : path) : io Z :=
  t ← gets id;
  match Fs.lookup t p with
  | Some (File _ n) => mret (Z.of_N n)
  | Some Dir => mret 0
  | None => raise FileNotFoundError
  end.

(** [shutil.rmtree(p)] *)
Definition rmtree (p : path) : io unit :=
  t ← gets id;
  match Fs.lookup t p with
  | None => raise FileNotFoundError
  | Some (File _ _) => raise NotADirectoryError
  | Some Dir => put_fs (Fs.remove_subtree p t)
  end.

End Os.

(** ** Numbers of the runtime *)

(** [date(year, month, day)]: arguments outside a C [int] raise
    [OverflowError], other invalid ones [ValueError]. *)
Definition c_int (z : Z) : bool := (- 2 ^ 31 <=? z) && (z <? 2 ^ 31).

Definition date_new (year month day : Z) : exn + date :=
  if c_int year && c_int month && c_int day then
    if Calendar.check_date_fields year month day
    then inr (Date (Calendar._ymd2ord year month day))
    else inl ValueError
  else inl OverflowError.

(** [d + timedelta(days=n)] *)
Definition date_add_days (d : date) (n : Z) : exn + date :=
  let o := toordinal d + n in
  if (0 <? o) && (o <=? Calendar._MAXORDINAL) then inr (Date o)
  else inl OverflowError.

(** [round(x, 0)] of the fraction [num / den], ties going to the even
    neighbour as Python's [round] sends them. *)
Definition round_half_even (num den : Z) : Z :=
  let q := num / den in
  let r := num mod den in
  if 2 * r <? den then q
  else if den <? 2 * r then q + 1
  else if Z.even q then q else q + 1.

(** [round(nbytes / (1024 * 1024), 2)], counted in hundredths of a
    megabyte.  The division by a power of two is exact in a [float], so the
    result is the correctly rounded one. *)
Definition round_mb (nbytes : Z) : Z :=
  round_half_even (nbytes * 100) (1024 * 1024).

(** [s.split('=')[1]] *)
Definition split_eq_1 (s : string) : exn + string :=
  match PyStr.split "=" s !! 1%nat with
  | Some x => inr x
  | None => inl IndexError
  end.

(** [json.dumps(j, sort_keys=..., indent=..., ensure_ascii=...)]: the
    text, or [ValueError] for a document that holds an [int] of more
    digits than the interpreter converts. *)
Definition json_dumps `{Runtime} (sort_keys : bool) (indent : option nat)
    (ensure_ascii : bool) (j : json) : exn + string :=
  if Json.serializable j
  then inr (Json.dumps sort_keys indent ensure_ascii j)
  else inl ValueError.

(** [int(s)] *)
Definition int_of_str (s : string) : exn + Z :=
  match PyStr.int s with
  | Some z => inr z
  | None => inl ValueError
  end.

(** [d[k] = v] on whatever [json.load] returned. *)
Definition setitem (d : json) (k : string) (v : json) : exn + json :=
  match d with
  | JObj m => inr (JObj (Json.set k v m))
  | _ => inl TypeError
  end.

(** ** The manager *)

Inductive zona := raw | processed | schemas | metadata | archive | temp.

#[global] Instance zona_eq_dec : EqDecision zona.
Proof. solve_decision. Defined.

(** [self.estrutura_pastas], and its keys in the order of the [dict]. *)
Definition estrutura_pastas (z : zona) : string :=
  match z with
  | raw => "dados_brutos"
  | processed => "dados_processados"
  | schemas => "esquemas"
  | metadata => "metadados"
  | archive => "arquivo"
  | temp => "temporario"
  end.

Definition zonas : list zona :=
  [raw; processed; schemas; metadata; archive; temp].

Definition endpoints_api : list string :=
  ["bilgetFiscalInvoice"; "getGuestChecks"; "getChargeBack";
   "getTransactions"; "getCashManagementDetails"].

(** The manager is its [caminho_base]. *)
Record GerenciadorDataLake := Gerenciador { caminho_base : path }.

(** The day directory of an endpoint:
    [base / raw / endpoint / f"ano={y}" / f"mes={m:02d}" / f"dia={d:02d}"]. *)
Definition particao_dia (base : path) (endpoint : string) (d : date) : path :=
  base // estrutura_pastas raw // endpoint
  // ("ano=" +:+ PyStr.fmt_d (date_year d))
  // ("mes=" +:+ PyStr.fmt_0d 2 (date_month d))
  // ("dia=" +:+ PyStr.fmt_0d 2 (date_day d)).

Section manager.
Context `{Runtime}.
Variable self : GerenciadorDataLake.

Definition _criar_estrutura_api (agora : datetime) (caminho : path)
  : io unit :=
  for_ endpoints_api () (λ _ endpoint,
    let caminho_endpoint := caminho // endpoint in
    Os.Path_mkdir false true caminho_endpoint;;
    let exemplo_data := dt_date agora in
    let caminho_particao :=
      caminho_endpoint
      // ("ano=" +:+ PyStr.fmt_d (date_year exemplo_data))
      // ("mes=" +:+ PyStr.fmt_0d 2 (date_month exemplo_data))
      // ("dia=" +:+ PyStr.fmt_0d 2 (date_day exemplo_data)) in
    Os.Path_mkdir true true caminho_particao).

(** The body of [__init__] once the fields are set; [agora] is what
    [datetime.now()] answers. *)
Definition _criar_estrutura_base (agora : datetime) : io unit :=
  Os.Path_mkdir true true (caminho_base self);;
  for_ zonas () (λ _ pasta_en,
    let caminho_pasta := caminho_base self // estrutura_pastas pasta_en in
    Os.Path_mkdir false true caminho_pasta;;
    if bool_decide (pasta_en ∈ [raw; processed])
    then _criar_estrutura_api agora caminho_pasta
    else mret ()).

Definition _calcular_hash (dados : json) : exn + string :=
  match json_dumps true None true dados with
  | inr dados_str => inr (md5_hexdigest dados_str)
  | inl erro => inl erro
  end.

(** [with open(p, 'w', encoding='utf-8') as arquivo:
       json.dump(doc, arquivo, indent=2, ensure_ascii=False, default=str)]

    [open] creates the file or empties the one that is there; the encoder
    then writes the text piece by piece.  When it raises on the way, the
    file is closed with what was written so far, a text that no longer
    parses, and the error goes on. *)
Definition json_dump_to (p : path) (doc : json) : io unit :=
  match json_dumps false (Some 2%nat) false doc with
  | inr texto =>
      Os.write_file p (Document doc) (N.of_nat (String.length texto))
  | inl erro =>
      let escrito := (Json.written false (Some 2%nat) false 0 "" doc).1 in
      Os.write_file p Unreadable (N.of_nat (String.length escrito));;
      raise erro
  end.

Definition _salvar_metadados (endpoint : string)
    (metadados : list (string * json)) (caminho_arquivo : path) : io unit :=
  let caminho_metadados :=
    caminho_base self // estrutura_pastas metadata // endpoint in
  Os.Path_mkdir true true caminho_metadados;;
  let nome_metadados :=
    "meta_" +:+ PurePath.stem caminho_arquivo +:+ ".json" in
  let arquivo_metadados := caminho_metadados // nome_metadados in
  let metadados_completos := metadados in
  let metadados_completos :=
    Json.set "caminho_arquivo" (JStr (PurePath.str caminho_arquivo))
      metadados_completos in
  let metadados_completos :=
    Json.set "nome_arquivo" (JStr (PurePath.name caminho_arquivo))
      metadados_completos in
  json_dump_to arquivo_metadados (JObj metadados_completos).

(** The partition directory and the file of a record. *)
Definition caminho_particao_de (endpoint : string) (data_negocio : date)
    (id_loja : string) : path :=
  particao_dia (caminho_base self) endpoint data_negocio
  // ("loja=" +:+ id_loja).

Definition nome_arquivo_de (timestamp : datetime) (endpoint id_loja : string)
  : string :=
  endpoint +:+ "_" +:+ id_loja +:+ "_" +:+ strftime_Ymd_HMS timestamp
  +:+ ".json".

(** The envelope, before the caller's extra entries, from the hash of the
    payload and the text [json.dumps(dados)]. *)
Definition envelope (timestamp : datetime) (endpoint : string)
    (hash_dados dados_json : string) (data_negocio : date)
    (id_loja : string) : list (string * json) :=
  [("endpoint", JStr endpoint);
   ("data_negocio", JStr (date_isoformat data_negocio));
   ("id_loja", JStr id_loja);
   ("timestamp_ingestao", JStr (datetime_isoformat timestamp));
   ("versao_esquema", JStr "1.0");
   ("hash_dados", JStr hash_dados);
   ("tamanho_bytes", JInt (Z.of_nat (String.length dados_json)))].

(** The envelope of a payload that the encoder can write. *)
Definition metadados_de (timestamp : datetime) (endpoint : string)
    (dados : json) (data_negocio : date) (id_loja : string)
  : list (string * json) :=
  envelope timestamp endpoint
    (md5_hexdigest (Json.dumps true None true dados))
    (Json.dumps false None true dados) data_negocio id_loja.

(** [if metadados_adicionais: metadados.update(metadados_adicionais)] *)
Definition com_adicionais (metadados : list (string * json))
    (metadados_adicionais : option (list (string * json)))
  : list (string * json) :=
  match metadados_adicionais with
  | Some (kv :: e) => Json.update metadados (kv :: e)
  | _ => metadados
  end.

(** Lines 100 to 138 of the source: from the clock reading to the dump of
    the record into the raw zone.  Returns the path of the file and the
    envelope.  The hash and the size of the payload are computed after the
    partition directory is made and before the file is opened. *)
Definition gravar_bruto (agora : datetime) (endpoint : string) (dados : json)
    (data_negocio : date) (id_loja : string)
    (metadados_adicionais : option (list (string * json)))
  : io (path * list (string * json)) :=
  let timestamp := agora in
  let caminho_particao :=
    caminho_particao_de endpoint data_negocio id_loja in
  Os.Path_mkdir true true caminho_particao;;
  let nome_arquivo := nome_arquivo_de timestamp endpoint id_loja in
  let caminho_arquivo := caminho_particao // nome_arquivo in
  hash_dados ← lift (_calcular_hash dados);
  dados_json ← lift (json_dumps false None true dados);
  let metadados :=
    com_adicionais
      (envelope timestamp endpoint hash_dados dados_json data_negocio
         id_loja)
      metadados_adicionais in
  let dados_completos :=
    JObj [("metadados", JObj metadados); ("dados", dados)] in
  json_dump_to caminho_arquivo dados_completos;;
  mret (caminho_arquivo, metadados).

Definition armazenar_resposta_api (agora : datetime) (endpoint : string)
    (dados : json) (data_negocio : date) (id_loja : string)
    (metadados_adicionais : option (list (string * json))) : io string :=
  try_except
    ('(caminho_arquivo, metadados) ←
       gravar_bruto agora endpoint dados data_negocio id_loja
         metadados_adicionais;
     _salvar_metadados endpoint metadados caminho_arquivo;;
     mret (PurePath.str caminho_arquivo))
    (λ erro, emit (ErrorArmazenar erro);; raise erro).

Definition _ler_arquivos_pasta (caminho_pasta : path) : io (list json) :=
  candidatos ← gets (λ t, Fs.glob (Fs.Suffix ".json") t caminho_pasta);
  for_ candidatos [] (λ arquivos arquivo_json,
    try_except
      (dados ← Os.load_json arquivo_json;
       dados ← lift (setitem dados "_caminho_arquivo"
                       (JStr (PurePath.str arquivo_json)));
       mret (arquivos ++ [dados]))
      (λ erro, emit (WarnErroLerArquivo arquivo_json erro);;
               mret arquivos)).

(** One turn of the loop of [buscar_dados], for the day [data_atual]. *)
Definition buscar_dia (endpoint : string) (data_atual : date)
    (id_loja : option string) (resultados : list json) : io (list json) :=
  let caminho_particao :=
    particao_dia (caminho_base self) endpoint data_atual in
  existe ← gets (λ t, Fs.exists_ t caminho_particao);
  if (existe : bool) then
    match id_loja with
    | Some (String a s) =>
        let caminho_loja := caminho_particao // ("loja=" +:+ String a s) in
        existe_loja ← gets (λ t, Fs.exists_ t caminho_loja);
        if (existe_loja : bool) then
          lidos ← _ler_arquivos_pasta caminho_loja;
          mret (resultados ++ lidos)
        else mret resultados
    | _ =>
        pastas ← gets (λ t, Fs.glob (Fs.Prefix "loja=") t caminho_particao);
        for_ pastas resultados (λ resultados pasta_loja,
          lidos ← _ler_arquivos_pasta pasta_loja;
          mret (resultados ++ lidos))
    end
  else mret resultados.

(** [while data_atual <= data_fim: ...; data_atual += timedelta(days=1)].
    [turns] bounds the number of turns; [buscar_dados] gives one more
    than the loop can take. *)
Fixpoint buscar_loop (turns : nat) (endpoint : string)
    (data_atual data_fim : date) (id_loja : option string)
    (resultados : list json) : io (list json) :=
  match turns with
  | O => mret resultados
  | S turns' =>
      if date_le data_atual data_fim then
        resultados ← buscar_dia endpoint data_atual id_loja resultados;
        data_atual ← lift (date_add_days data_atual 1);
        buscar_loop turns' endpoint data_atual data_fim id_loja resultados
      else mret resultados
  end.

Definition buscar_dados (endpoint : string) (data_inicio data_fim : date)
    (id_loja : option string) : io (list json) :=
  let resultados := [] in
  let data_atual := data_inicio in
  buscar_loop
    (S (Z.to_nat (toordinal data_fim + 1 - toordinal data_inicio)))
    endpoint data_atual data_fim id_loja resultados.

End manager.

(** ** Statistics and retention *)

Record info_pasta := InfoPasta {
  ip_total_arquivos : Z;
  ip_tamanho_mb : Z;
  ip_caminho : string
}.

Record info_endpoint := InfoEndpoint {
  ie_total_arquivos : Z;
  ie_lojas_unicas : list string;
  ie_datas_disponiveis : list string;
  ie_tamanho_mb : Z
}.

(** The report of [obter_estatisticas_data_lake].  Sizes are counted in
    hundredths of a megabyte. *)
Record estatisticas := Estatisticas {
  est_timestamp_calculo : string;
  est_estrutura_pastas : list (string * info_pasta);
  est_total_arquivos : Z;
  est_tamanho_total_mb : Z;
  est_endpoints : list (string * info_endpoint);
  est_periodo_dados : option string * option string
}.

(** The report of [limpar_dados_antigos]. *)
Record relatorio_limpeza := RelatorioLimpeza {
  arquivos_removidos : Z;
  tamanho_liberado_mb : Z;
  data_corte : string
}.

(** [l.index(x)] for an [x] taken from [l]. *)
Definition index_of (x : string) (l : list string) : nat :=
  match list_find (λ y, y = x) l with
  | Some (i, _) => i
  | None => length l
  end.

(** [l[i]] *)
Definition getitem (l : list string) (i : nat) : exn + string :=
  match l !! i with
  | Some x => inr x
  | None => inl IndexError
  end.

(** [sorted(list(s))] *)
Definition sorted_list (s : gset string) : list string :=
  merge_sort String.le (elements s).

(** [timedelta(days=n)] *)
Definition timedelta_days (n : Z) : exn + Z :=
  if (-999999999 <=? n) && (n <=? 999999999) then inr n
  else inl OverflowError.

Section manager_walks.
Variable self : GerenciadorDataLake.

(** The counting loop shared by [_analisar_pasta] and
    [limpar_dados_antigos]: [for arquivo in pasta.rglob("*")], the
    regular files adding one to the count and their size to the total. *)
Definition contar_arquivos (pasta : path) (acc : Z * Z) : io (Z * Z) :=
  entradas ← gets (λ t, Fs.rglob Fs.Any t pasta);
  for_ entradas acc (λ acc arquivo,
    f ← gets (λ t, Fs.is_file t arquivo);
    if (f : bool) then
      tamanho ← Os.stat_size arquivo;
      mret (acc.1 + 1, acc.2 + tamanho)
    else mret acc).

Definition _analisar_pasta (caminho_pasta : path) : io info_pasta :=
  '(total_arquivos, tamanho_total) ← contar_arquivos caminho_pasta (0, 0);
  mret {| ip_total_arquivos := total_arquivos;
          ip_tamanho_mb := round_mb tamanho_total;
          ip_caminho := PurePath.str caminho_pasta |}.

(** The body of [for parte in partes_caminho] in [_analisar_endpoint]. *)
Definition extrair_parte (partes_caminho : list string)
    (acc : gset string * gset string) (parte : string)
  : io (gset string * gset string) :=
  if PyStr.startswith "loja=" parte then
    loja ← lift (split_eq_1 parte);
    mret ({[loja]} ∪ acc.1, acc.2)
  else if PyStr.startswith "ano=" parte then
    ano ← lift (split_eq_1 parte);
    let idx := index_of parte partes_caminho in
    if (idx + 2 <? length partes_caminho)%nat then
      parte_mes ← lift (getitem partes_caminho (idx + 1));
      mes ← lift (split_eq_1 parte_mes);
      parte_dia ← lift (getitem partes_caminho (idx + 2));
      dia ← lift (split_eq_1 parte_dia);
      mret (acc.1, {[ano +:+ "-" +:+ mes +:+ "-" +:+ dia]} ∪ acc.2)
    else mret acc
  else mret acc.

Definition _analisar_endpoint (caminho_endpoint : path) : io info_endpoint :=
  entradas ← gets (λ t, Fs.rglob (Fs.Suffix ".json") t caminho_endpoint);
  '(total, tamanho, conjuntos) ←
    for_ entradas (0, 0, (∅, ∅)) (λ info arquivo,
      f ← gets (λ t, Fs.is_file t arquivo);
      if (f : bool) then
        st_size ← Os.stat_size arquivo;
        let partes_caminho := arquivo in
        conjuntos ← for_ partes_caminho info.2
                      (extrair_parte partes_caminho);
        mret (info.1.1 + 1, info.1.2 + st_size, conjuntos)
      else mret info);
  mret {| ie_total_arquivos := total;
          ie_lojas_unicas := sorted_list conjuntos.1;
          ie_datas_disponiveis := sorted_list conjuntos.2;
          ie_tamanho_mb := round_mb tamanho |}.

Definition obter_estatisticas_data_lake (agora : datetime)
  : io estatisticas :=
  '(pastas, endpoints) ←
    for_ zonas ([], []) (λ acc pasta_en,
      let pasta_pt := estrutura_pastas pasta_en in
      let caminho_pasta := caminho_base self // pasta_pt in
      existe ← gets (λ t, Fs.exists_ t caminho_pasta);
      if (existe : bool) then
        info_pasta ← _analisar_pasta caminho_pasta;
        let pastas := Dict.set pasta_pt info_pasta acc.1 in
        if bool_decide (pasta_en = raw) then
          filhos ← Os.iterdir caminho_pasta;
          endpoints ← for_ filhos acc.2 (λ endpoints pasta_endpoint,
            d ← gets (λ t, Fs.is_dir t pasta_endpoint);
            if (d : bool) then
              info_endpoint ← _analisar_endpoint pasta_endpoint;
              mret (Dict.set (PurePath.name pasta_endpoint) info_endpoint
                      endpoints)
            else mret endpoints);
          mret (pastas, endpoints)
        else mret (pastas, acc.2)
      else mret acc);
  mret {| est_timestamp_calculo := datetime_isoformat agora;
          est_estrutura_pastas := pastas;
          est_total_arquivos :=
            foldl (λ n kv, n + ip_total_arquivos kv.2) 0 pastas;
          est_tamanho_total_mb :=
            foldl (λ n kv, n + ip_tamanho_mb kv.2) 0 pastas;
          est_endpoints := endpoints;
          est_periodo_dados := (None, None) |}.

(** [int(pasta.name.split('=')[1])] *)
Definition numero_da_pasta (pasta : path) : io Z :=
  texto ← lift (split_eq_1 (PurePath.name pasta));
  lift (int_of_str texto).

(** The body of [for pasta_dia in pasta_mes.glob("dia=*")]. *)
Definition limpar_dia (data_corte : date) (ano mes : Z) (acc : Z * Z)
    (pasta_dia : path) : io (Z * Z) :=
  dia ← numero_da_pasta pasta_dia;
  try_except_ValueError
    (data_pasta ← lift (date_new ano mes dia);
     if date_lt data_pasta data_corte then
       acc ← contar_arquivos pasta_dia acc;
       Os.rmtree pasta_dia;;
       mret acc
     else mret acc)
    (emit (WarnDataInvalida pasta_dia);; mret acc).

Definition limpar_mes (data_corte : date) (ano : Z) (acc : Z * Z)
    (pasta_mes : path) : io (Z * Z) :=
  mes ← numero_da_pasta pasta_mes;
  dias ← gets (λ t, Fs.glob (Fs.Prefix "dia=") t pasta_mes);
  for_ dias acc (limpar_dia data_corte ano mes).

Definition limpar_ano (data_corte : date) (acc : Z * Z) (pasta_ano : path)
  : io (Z * Z) :=
  ano ← numero_da_pasta pasta_ano;
  meses ← gets (λ t, Fs.glob (Fs.Prefix "mes=") t pasta_ano);
  for_ meses acc (limpar_mes data_corte ano).

Definition limpar_endpoint (data_corte : date) (acc : Z * Z)
    (pasta_endpoint : path) : io (Z * Z) :=
  d ← gets (λ t, Fs.is_dir t pasta_endpoint);
  if (d : bool) then
    anos ← gets (λ t, Fs.glob (Fs.Prefix "ano=") t pasta_endpoint);
    for_ anos acc (limpar_ano data_corte)
  else mret acc.

(** [dias_retencao] defaults to 90 in the source. *)
Definition limpar_dados_antigos (agora : datetime) (dias_retencao : Z)
  : io relatorio_limpeza :=
  delta ← lift (timedelta_days dias_retencao);
  data_corte ← lift (date_add_days (dt_date agora) (- delta));
  let caminho_raw := caminho_base self // estrutura_pastas raw in
  endpoints ← Os.iterdir caminho_raw;
  '(removidos, tamanho_liberado) ←
    for_ endpoints (0, 0) (limpar_endpoint data_corte);
  mret {| arquivos_removidos := removidos;
          tamanho_liberado_mb := round_mb tamanho_liberado;
          data_corte := date_isoformat data_corte |}.

End manager_walks.

(** ** Notions used to state the properties *)

(** A name that joins a path as one part holds no slash. *)
Fixpoint has_slash (s : string) : bool :=
  match s with
  | EmptyString => false
  | String a s' => Ascii.eqb a "/" || has_slash s'
  end.

(** A name that [p / name] appends unchanged as one new part. *)
Definition plain_name (s : string) : Prop :=
  has_slash s = false ∧ s ≠ "" ∧ s ≠ ".".


(** The paths of a query are spelled directly: no part [".."] in the base
    path, in the endpoint or in the store directory. *)
Definition consulta_direta (base : path) (endpoint : string)
    (id_loja : option string) : Prop :=
  (".." ∉ base) ∧ (".." ∉ PurePath.segments endpoint)
  ∧ match id_loja with
    | Some id => ".." ∉ PurePath.segments ("loja=" +:+ id)
    | None => True
    end.

(** A base path whose [str] can be prolonged with ["/"]: it has a part
    besides the root. *)
Definition proper_base (p : path) : bool :=
  match p with
  | [] => false
  | [r] => negb (PurePath.is_root r)
  | _ => true
  end.

(** Every entry of a tree sits in a directory of the tree (or at the top). *)
Definition entry_ok (t : tree) (k : path) : bool :=
  match k with
  | [] => false
  | _ => match removelast k with
         | [] => true
         | q => match t !! q with Some Dir => true | _ => false end
         end
  end.

Definition wf_tree (t : tree) : Prop :=
  map_Forall (λ k _, entry_ok t k = true) t.

(** [t'] is [t] with some directories added. *)
Definition grows_dirs (t t' : tree) : Prop :=
  ∀ k, t' !! k = t !! k ∨ (t !! k = None ∧ t' !! k = Some Dir).

(** Weakest preconditions: [wp m Q E w] says that [m], run on [w], ends in
    a world and value satisfying [Q], or raises in a world satisfying [E]. *)
Definition wp {A} (m : io A) (Q : world → A → Prop) (E : world → exn → Prop)
    (w : world) : Prop :=
  match m w with
  | (w', inr a) => Q w' a
  | (w', inl e) => E w' e
  end.

(** What a [.json] entry yields when [_ler_arquivos_pasta] reads it: the
    object it holds, with the path of the file added. *)
Definition registro_de (t : tree) (arquivo_json : path) : option json :=
  match t !! arquivo_json with
  | Some (File (Document (JObj m)) _) =>
      Some (JObj (Dict.set "_caminho_arquivo"
                    (JStr (PurePath.str arquivo_json)) m))
  | _ => None
  end.

(** The exception an entry that yields no record runs into. *)
Definition erro_de (t : tree) (arquivo_json : path) : exn :=
  match t !! arquivo_json with
  | Some Dir => IsADirectoryError
  | Some (File Unreadable _) => JSONDecodeError
  | Some (File (Document _) _) => TypeError
  | None => FileNotFoundError
  end.

Definition aviso_de (t : tree) (arquivo_json : path) : option log_record :=
  match registro_de t arquivo_json with
  | Some _ => None
  | None => Some (WarnErroLerArquivo arquivo_json (erro_de t arquivo_json))
  end.

(** The records and the warnings of one directory. *)
Definition registros_pasta (t : tree) (pasta : path) : list json :=
  omap (registro_de t) (Fs.glob (Fs.Suffix ".json") t pasta).

Definition avisos_pasta (t : tree) (pasta : path) : list log_record :=
  omap (aviso_de t) (Fs.glob (Fs.Suffix ".json") t pasta).

(** The store directories a query reads for one day. *)
Definition pastas_dia (t : tree) (base : path) (endpoint : string) (d : date)
    (id_loja : option string) : list path :=
  let caminho_particao := particao_dia base endpoint d in
  if Fs.exists_ t caminho_particao then
    match id_loja with
    | Some (String a s) =>
        let caminho_loja := caminho_particao // ("loja=" +:+ String a s) in
        if Fs.exists_ t caminho_loja then [caminho_loja] else []
    | _ => Fs.glob (Fs.Prefix "loja=") t caminho_particao
    end
  else [].

(** The days from [d1] to [d2], both included. *)
Definition dias_entre (d1 d2 : date) : list date :=
  Date <$> seqZ (toordinal d1) (toordinal d2 + 1 - toordinal d1).

(** The store directories of a whole range, day after day. *)
Definition pastas_periodo (t : tree) (base : path) (endpoint : string)
    (d1 d2 : date) (id_loja : option string) : list path :=
  mjoin ((λ d, pastas_dia t base endpoint d id_loja) <$> dias_entre d1 d2).

(** [w'] is [w] after directories were created and nothing else. *)
Definition only_dirs_added (w w' : world) : Prop :=
  log w' = log w ∧ grows_dirs (fs w) (fs w')
  ∧ (wf_tree (fs w) → wf_tree (fs w')).

(** [w'] is [w], or [w] with the file at [p] left unreadable by a write
    that was opened and did not come to its end. *)
Definition talvez_truncado (p : path) (w w' : world) : Prop :=
  w' = w
  ∨ ∃ n, w' = {| fs := <[p := File Unreadable n]> (fs w); log := log w |}
         ∧ Fs.parent_error (fs w) p = None
         ∧ Fs.lookup (fs w) p ≠ Some Dir.

(** The record file of a call to [armazenar_resposta_api] and the document
    written into it. *)
Definition caminho_arquivo_de (self : GerenciadorDataLake) (agora : datetime)
    (endpoint : string) (data_negocio : date) (id_loja : string) : path :=
  caminho_particao_de self endpoint data_negocio id_loja
  // nome_arquivo_de agora endpoint id_loja.

Definition registro_gravado (metadados : list (string * json)) (dados : json)
  : json :=
  JObj [("metadados", JObj metadados); ("dados", dados)].

(** The sidecar of a record file. *)
Definition caminho_sidecar_de (self : GerenciadorDataLake) (endpoint : string)
    (caminho_arquivo : path) : path :=
  caminho_base self // estrutura_pastas metadata // endpoint
  // ("meta_" +:+ PurePath.stem caminho_arquivo +:+ ".json").

(** ** A small lake, for the examples

    The theorems hold for every runtime; the examples run with the plainest
    one, whose digest of a text is the text itself, with the default limit
    on the digits of an [int]. *)

Definition runtime_exemplo : Runtime :=
  {| md5_hexdigest := id;
     py_encode_basestring_ascii := Json.py_encode_basestring;
     int_max_str_digits := 4300 |}.

Definition lake : GerenciadorDataLake :=
  Gerenciador (PurePath.Path "dados/data_lake").

(** 2024-01-15 10:05:07 *)
Definition dia_2024_01_15 : date := Date 738900.

Definition agora_exemplo : datetime := DateTime dia_2024_01_15 10 5 7 0.

(** The payload of the repository's integration test. *)
Definition dados_teste : json :=
  JObj [("guestCheckId", JStr "test-123");
        ("chkTtl", JFloat "100.0");
        ("items", JArr [JObj [("name", JStr "Teste");
                              ("price", JFloat "50.0")]])].

Definition mundo_vazio : world := World ∅ [].

(** The lake right after [GerenciadorDataLake("dados/data_lake")]. *)
Definition mundo_inicial : world :=
  (_criar_estrutura_base lake agora_exemplo mundo_vazio).1.


(** The records and the warnings of a query, read off the tree. *)
Definition registros_periodo (t : tree) (base : path) (endpoint : string)
    (d1 d2 : date) (id_loja : option string) : list json :=
  mjoin (registros_pasta t <$> pastas_periodo t base endpoint d1 d2 id_loja).

Definition avisos_periodo (t : tree) (base : path) (endpoint : string)
    (d1 d2 : date) (id_loja : option string) : list log_record :=
  mjoin (avisos_pasta t <$> pastas_periodo t base endpoint d1 d2 id_loja).

(** The last day of the calendar, 9999-12-31. *)
Definition date_max : date := Date Calendar._MAXORDINAL.

(** The lake after the test's call
    [armazenar_resposta_api("getGuestChecks", dados_teste, 2024-01-15,
    "loja_teste")]. *)
Definition mundo_com_registro : world :=
  (armazenar_resposta_api (H := runtime_exemplo) lake agora_exemplo
     "getGuestChecks" dados_teste dia_2024_01_15 "loja_teste" None
     mundo_inicial).1.

(** The lake after a record dated 9999-12-31 was stored. *)
Definition mundo_com_registro_final : world :=
  (armazenar_resposta_api (H := runtime_exemplo) lake agora_exemplo
     "getGuestChecks" dados_teste date_max "loja_teste" None
     mundo_inicial).1.

(** The lake after a call for the endpoint ["a/b"] and the store ["x/a"]:
    the call raised, and left the directories it had created. *)
Definition mundo_com_pastas_a : world :=
  (armazenar_resposta_api (H := runtime_exemplo) lake agora_exemplo
     "a/b" dados_teste dia_2024_01_15 "x/a" None mundo_inicial).1.

(** The path of a record file as a text, for a base path whose text is
    [base]. *)
Definition caminho_registro_str (base endpoint : string) (d : date)
    (id_loja : string) (ts : datetime) : string :=
  base +:+ "/dados_brutos/" +:+ endpoint
  +:+ "/ano=" +:+ PyStr.fmt_d (date_year d)
  +:+ "/mes=" +:+ PyStr.fmt_0d 2 (date_month d)
  +:+ "/dia=" +:+ PyStr.fmt_0d 2 (date_day d)
  +:+ "/loja=" +:+ id_loja
  +:+ "/" +:+ endpoint +:+ "_" +:+ id_loja +:+ "_" +:+ strftime_Ymd_HMS ts
  +:+ ".json".

(** The number and the total size of the regular files among the entries
    [pat] finds below [p]. *)
Definition count_files (pat : Fs.pattern) (t : tree) (p : path) : Z :=
  Z.of_nat (length (filter (λ k, Fs.is_file t k = true) (Fs.rglob pat t p))).

Definition size_of (t : tree) (k : path) : Z :=
  match t !! k with
  | Some (File _ n) => Z.of_N n
  | _ => 0
  end.

Definition total_size (pat : Fs.pattern) (t : tree) (p : path) : Z :=
  foldr (λ k n, size_of t k + n) 0
    (filter (λ k, Fs.is_file t k = true) (Fs.rglob pat t p)).








(** ** Notions for the retention walk *)

(** [int(name.split('=')[1])] on a name, without the world. *)
Definition numero (nome : string) : exn + Z :=
  match split_eq_1 nome with
  | inr texto => int_of_str texto
  | inl e => inl e
  end.

(** The day directory [.../a/m/d] is a partition older than [corte]: its
    three names have the prefixes of a partition and parse to a date before
    [corte]. *)
Definition dia_velho (corte : date) (a m d : string) : bool :=
  PyStr.startswith "ano=" a && PyStr.startswith "mes=" m
  && PyStr.startswith "dia=" d
  && match numero a, numero m, numero d with
     | inr ano, inr mes, inr dia =>
         match date_new ano mes dia with
         | inr data_pasta => date_lt data_pasta corte
         | inl _ => false
         end
     | _, _, _ => false
     end.

(** [k] is an old day partition of the raw zone [zona_raw], or lies below
    one. *)
Definition vencido (zona_raw : path) (corte : date) (k : path) : bool :=
  bool_decide (zona_raw `prefix_of` k)
  && match drop (length zona_raw) k with
     | _ :: a :: m :: d :: _ => dia_velho corte a m d
     | _ => false
     end.

(** The names the retention walk parses are ASCII: below the raw zone, the
    names of the three levels under an endpoint, those of the year, month
    and day directories.  On such names [PyStr.int] is [int]. *)
Definition particoes_ascii (zona_raw : path) (t : tree) : Prop :=
  map_Forall (λ k _,
    zona_raw `prefix_of` k →
    forallb PyStr.isascii (take 3 (drop (S (length zona_raw)) k)) = true) t.

(** The tree without the entries that satisfy [R]. *)
Definition sem (R : path → bool) (t : tree) : tree :=
  filter (λ kv, R kv.1 = false) t.

(** The regular files of a tree that satisfy [R]: their number and the sum
    of their sizes. *)
Definition arquivos_em (R : path → bool) (t : tree) : list path :=
  filter (λ k, Fs.is_file t k = true ∧ R k = true) (map_to_list t).*1.

Definition contagem (R : path → bool) (t : tree) : Z :=
  Z.of_nat (length (arquivos_em R t)).

Definition tamanho (R : path → bool) (t : tree) : Z :=
  foldr (λ k n, size_of t k + n) 0 (arquivos_em R t).

(** [k] lies in the subtree of [c]. *)
Definition sob (c k : path) : bool := bool_decide (c `prefix_of` k).

(** The sum of the sizes of a list of files. *)
Definition soma_tamanhos (t : tree) (l : list path) : Z :=
  foldr (λ k n, size_of t k + n) 0 l.

(** [body] clears the subtree of [c]: run on a well-formed tree, when it
    returns it has removed the entries below [c] that satisfy [V], and
    nothing else, and has added the number and the sizes of the regular
    files among them to its counters. *)
Definition limpa_subarvore (V : path → bool)
    (body : Z * Z → path → io (Z * Z)) (c : path) : Prop :=
  ∀ (acc : Z * Z) (w : world),
    wf_tree (fs w) →
    wp (body acc c)
       (λ w' acc',
          fs w' = sem (λ k, sob c k && V k) (fs w)
          ∧ acc' = (acc.1 + contagem (λ k, sob c k && V k) (fs w),
                    acc.2 + tamanho (λ k, sob c k && V k) (fs w)))
       (λ _ _, True) w.

(** Being below one of the paths [cs]. *)
Definition sob_algum (cs : list path) (k : path) : bool :=
  existsb (λ c, sob c k) cs.

(** ** More of the small lake *)


(** A second payload. *)
Definition outros_dados : json :=
  JObj [("guestCheckId", JStr "test-456")].

(** The lake after a second call for the same endpoint, day and store, made
    within the same second of the clock as the first. *)
Definition mundo_regravado : world :=
  (armazenar_resposta_api (H := runtime_exemplo) lake agora_exemplo
     "getGuestChecks" outros_dados dia_2024_01_15 "loja_teste" None
     mundo_com_registro).1.

(** The partition of the stored record, and the record file. *)
Definition pasta_exemplo : path :=
  caminho_particao_de lake "getGuestChecks" dia_2024_01_15 "loja_teste".

Definition arquivo_exemplo : path :=
  caminho_arquivo_de lake agora_exemplo "getGuestChecks" dia_2024_01_15
    "loja_teste".

(** The partition with two more files: one that is no JSON text, and one
    that holds the JSON array [[1]]. *)
Definition mundo_misto : world :=
  {| fs := <[pasta_exemplo // "lista.json" := File (Document (JArr [JInt 1])) 3]>
             (<[pasta_exemplo // "corrompido.json" := File Unreadable 5]>
                (fs mundo_com_registro));
     log := [] |}.

(** 2024-06-01 12:00:00, some months after the record was stored. *)
Definition agora_depois : datetime := DateTime (Date 739038) 12 0 0 0.

(** The lake with a day directory whose day is no number. *)
Definition mundo_dia_invalido : world :=
  {| fs := <[caminho_base lake // estrutura_pastas raw // "getGuestChecks"
             // "ano=2024" // "mes=01" // "dia=xx" := Dir]>
             (fs mundo_com_registro);
     log := [] |}.

(** The lake with a day directory for the 31st of February. *)
Definition mundo_dia_31_02 : world :=
  {| fs := <[caminho_base lake // estrutura_pastas raw // "getGuestChecks"
             // "ano=2024" // "mes=02" // "dia=31" := Dir]>
             (<[caminho_base lake // estrutura_pastas raw // "getGuestChecks"
                // "ano=2024" // "mes=02" := Dir]>
                (fs mundo_com_registro));
     log := [] |}.



(** ** Notions for the effects of a call on the tree *)

(** [t'] is [t] with directories added on the way to [p], and nothing
    else. *)
Definition dirs_no_caminho (p : path) (t t' : tree) : Prop :=
  ∀ k, t' !! k = t !! k
       ∨ (t !! k = None ∧ t' !! k = Some Dir ∧ k `prefix_of` p).

(** The document [_salvar_metadados] writes for a record file. *)
Definition metadados_sidecar (metadados : list (string * json))
    (caminho_arquivo : path) : list (string * json) :=
  Json.set "nome_arquivo" (JStr (PurePath.name caminho_arquivo))
    (Json.set "caminho_arquivo" (JStr (PurePath.str caminho_arquivo))
       metadados).

(** ** More worlds for the examples *)


(** ** The schema listing *)

(** [sorted(versoes)], for a list of [str]. *)
Definition sorted_strings (l : list string) : list string :=
  merge_sort String.le l.

Section manager_schemas.
Variable self : GerenciadorDataLake.

Definition listar_esquemas_disponiveis : io (list (string * list string)) :=
  let caminho_esquemas := caminho_base self // estrutura_pastas schemas in
  let esquemas := [] in
  existe ← gets (λ t, Fs.exists_ t caminho_esquemas);
  if (existe : bool) then
    pastas ← Os.iterdir caminho_esquemas;
    for_ pastas esquemas (λ esquemas pasta_endpoint,
      d ← gets (λ t, Fs.is_dir t pasta_endpoint);
      if (d : bool) then
        arquivos ← gets (λ t, Fs.glob (Fs.Suffix ".json") t pasta_endpoint);
        versoes ← for_ arquivos [] (λ versoes arquivo_esquema,
                    mret (versoes ++ [PurePath.stem arquivo_esquema]));
        mret (Dict.set (PurePath.name pasta_endpoint)
                (sorted_strings versoes) esquemas)
      else mret esquemas)
  else mret esquemas.

End manager_schemas.

(** The lake with two schema files of an endpoint, a text beside them, and
    a regular file in the schema zone. *)
Definition mundo_com_esquemas : world :=
  let esquemas := caminho_base lake // estrutura_pastas schemas in
  {| fs := <[esquemas // "getGuestChecks" // "v2.json" := File Unreadable 9]>
             (<[esquemas // "getGuestChecks" // "v1.json"
                := File (Document (JObj [])) 2]>
                (<[esquemas // "getGuestChecks" // "notas.txt"
                   := File Unreadable 4]>
                   (<[esquemas // "getGuestChecks" := Dir]>
                      (<[esquemas // "LEIAME.md" := File Unreadable 1]>
                         (fs mundo_inicial)))));
     log := [] |}.

(** The lake where a regular file took the place of the schema zone. *)
Definition mundo_sem_esquemas : world :=
  {| fs := <[caminho_base lake // estrutura_pastas schemas
             := File Unreadable 0]> (fs mundo_inicial);
     log := [] |}.

(** The lake with a [.json] file two levels below a year directory whose
    month directory bears no [=]. *)
Definition arquivo_solto : path :=
  caminho_base lake // estrutura_pastas raw // "getGuestChecks" // "ano=2024"
  // "rascunho" // "nota.json".

Definition mundo_com_rascunho : world :=
  {| fs := <[arquivo_solto := File (Document (JObj [])) 2]>
             (<[caminho_base lake // estrutura_pastas raw // "getGuestChecks"
                // "ano=2024" // "rascunho" := Dir]>
                (fs mundo_com_registro));
     log := [] |}.

(* ===================================================================== *)
(** * Part II: lemmas and theorems *)
(* ===================================================================== *)

(** ** Rules of the weakest-precondition calculus *)

Section wp_rules.
Context {A B : Type}.
Implicit Types (Q : world → A → Prop) (E : world → exn → Prop).

Lemma wp_ret (a : A) Q E w : Q w a → wp (mret a) Q E w.
Proof. done. Qed.

Lemma wp_raise (e : exn) Q E w : E w e → wp (raise e) Q E w.
Proof. done. Qed.

Lemma wp_bind (m : io A) (f : A → io B) (R : world → B → Prop) E w :
  wp m (λ w' a, wp (f a) R E w') E w → wp (m ≫= f) R E w.
Proof.
  unfold wp, mbind, io_bind. by destruct (m w) as [w' [e|a]].
Qed.

Lemma wp_mono (m : io A) Q Q' E E' w :
  wp m Q E w →
  (∀ w' a, Q w' a → Q' w' a) → (∀ w' e, E w' e → E' w' e) →
  wp m Q' E' w.
Proof.
  unfold wp. destruct (m w) as [w' [e|a]]; auto.
Qed.

Lemma wp_try (m : io A) (h : exn → io A) Q E w :
  wp m Q (λ w' e, wp (h e) Q E w') w → wp (try_except m h) Q E w.
Proof.
  unfold wp, try_except. by destruct (m w) as [w' [e|a]].
Qed.

Lemma wp_gets (f : tree → A) Q E w : Q w (f (fs w)) → wp (gets f) Q E w.
Proof. done. Qed.

Lemma wp_lift (r : exn + A) Q E w :
  match r with inr a => Q w a | inl e => E w e end → wp (lift r) Q E w.
Proof. by destruct r. Qed.

Lemma wp_run (m : io A) Q E w :
  wp m Q E w ↔ match m w with (w', inr a) => Q w' a | (w', inl e) => E w' e end.
Proof. done. Qed.

(** A loop keeps an invariant that each turn keeps. *)
Lemma wp_for (I : list B → world → A → Prop) E (l : list B) (acc : A)
    (body : A → B → io A) w :
  I l w acc →
  (∀ x rest w a, I (x :: rest) w a → wp (body a x) (I rest) E w) →
  wp (for_ l acc body) (I []) E w.
Proof.
  intros HI Hbody. revert acc w HI.
  induction l as [|x l IH]; intros acc w HI; simpl.
  - by apply wp_ret.
  - unfold wp, mbind, io_bind. specialize (Hbody x l w acc HI).
    unfold wp in Hbody. destruct (body acc x w) as [w' [e|a]]; [done|].
    apply IH, Hbody.
Qed.
End wp_rules.

Lemma wp_put_fs (t : tree) (Q : world → unit → Prop) E w :
  Q {| fs := t; log := log w |} () → wp (put_fs t) Q E w.
Proof. done. Qed.

Lemma wp_emit (r : log_record) (Q : world → unit → Prop) E w :
  Q {| fs := fs w; log := log w ++ [r] |} () → wp (emit r) Q E w.
Proof. done. Qed.

(** Running a computation, step by step. *)
Lemma run_bind {A B} (m : io A) (f : A → io B) (w : world) :
  (m ≫= f) w
  = match m w with
    | (w', inr a) => f a w'
    | (w', inl e) => (w', inl e)
    end.
Proof. done. Qed.

Lemma run_ret {A} (a : A) (w : world) : mret (M := io) a w = (w, inr a).
Proof. done. Qed.

Lemma run_gets {A} (f : tree → A) (w : world) :
  gets f w = (w, inr (f (fs w))).
Proof. done. Qed.

(** ** The directory tree *)

Lemma lookup_nonempty (t : tree) (p : path) : p ≠ [] → Fs.lookup t p = t !! p.
Proof. by destruct p. Qed.

Lemma lookup_snoc (t : tree) (a : path) (n : string) :
  Fs.lookup t (a ++ [n]) = t !! (a ++ [n]).
Proof. apply lookup_nonempty. by destruct a. Qed.

Lemma removelast_snoc {A} (l : list A) (x : A) : removelast (l ++ [x]) = l.
Proof. apply removelast_last. Qed.

Lemma snoc_cases {A} (l : list A) : l = [] ∨ ∃ q x, l = q ++ [x].
Proof.
  destruct l as [|y l] using rev_ind; [by left|right; eauto].
Qed.

Lemma walk_app (t : tree) (a l1 l2 : path) :
  Fs.walk t a (l1 ++ l2)
  = match Fs.walk t a l1 with
    | Some e => Some e
    | None => Fs.walk t (a ++ l1) l2
    end.
Proof.
  revert a. induction l1 as [|n l1 IH]; intros a; simpl.
  - by rewrite app_nil_r.
  - destruct (Fs.lookup t (a ++ [n])) as [[|]|]; try done.
    by rewrite IH, <-app_assoc.
Qed.

Lemma walk_snoc_None (t : tree) (q : path) (n : string) :
  Fs.walk t [] (q ++ [n]) = None ↔
  Fs.walk t [] q = None ∧ t !! (q ++ [n]) = Some Dir.
Proof.
  rewrite walk_app. destruct (Fs.walk t [] q); simpl.
  { split; [done|]. by intros [? _]. }
  rewrite lookup_snoc.
  destruct (t !! (q ++ [n])) as [[|]|]; (split; [try done|by intros [_ ?]]).
Qed.

(** A successful walk went through directories only. *)
Lemma walk_None_dir (t : tree) (p : path) :
  Fs.walk t [] p = None → Fs.lookup t p = Some Dir.
Proof.
  destruct (snoc_cases p) as [->|(q & n & ->)]; [done|].
  rewrite walk_snoc_None, lookup_snoc. by intros [_ ?].
Qed.

Lemma walk_None_prefix (t : tree) (p q : path) :
  Fs.walk t [] (p ++ q) = None → Fs.walk t [] p = None.
Proof. rewrite walk_app. by destruct (Fs.walk t [] p). Qed.

Lemma entry_ok_snoc (t : tree) (q : path) (n : string) :
  entry_ok t (q ++ [n]) = true ↔ Fs.lookup t q = Some Dir.
Proof.
  unfold entry_ok. rewrite removelast_snoc.
  destruct (q ++ [n]) eqn:Hq; [by destruct q|].
  destruct q as [|x q]; [done|]. unfold Fs.lookup.
  destruct (t !! (x :: q)) as [[|]|]; split; congruence.
Qed.

(** In a well-formed tree every directory can be reached. *)
Lemma wf_tree_walk (t : tree) (p : path) :
  wf_tree t → Fs.lookup t p = Some Dir → Fs.walk t [] p = None.
Proof.
  intros Hwf. induction p as [|n q IH] using rev_ind; [done|].
  rewrite lookup_snoc. intros Hp. apply walk_snoc_None. split; [|done].
  apply IH. specialize (Hwf _ _ Hp). by apply entry_ok_snoc in Hwf.
Qed.

Lemma wf_tree_parent_error (t : tree) (p : path) (n : string) :
  wf_tree t → Fs.lookup t p = Some Dir → Fs.parent_error t (p ++ [n]) = None.
Proof.
  intros. unfold Fs.parent_error. rewrite removelast_snoc.
  by apply wf_tree_walk.
Qed.

Lemma wf_tree_entry_parent (t : tree) (p : path) (n : string) (x : node) :
  wf_tree t → t !! (p ++ [n]) = Some x → Fs.lookup t p = Some Dir.
Proof.
  intros Hwf Hp. specialize (Hwf _ _ Hp). by apply entry_ok_snoc in Hwf.
Qed.

Lemma wf_tree_not_nil (t : tree) : wf_tree t → t !! ([] : path) = None.
Proof.
  intros Hwf. destruct (t !! ([] : path)) eqn:Hp; [|done].
  by specialize (Hwf _ _ Hp).
Qed.

Lemma wf_tree_empty : wf_tree ∅.
Proof. apply map_Forall_empty. Qed.

(** Adding an entry in a directory that can be reached, where no directory
    stood, keeps the tree well formed. *)
Lemma wf_tree_insert (t : tree) (p : path) (x : node) :
  wf_tree t → Fs.parent_error t p = None → Fs.lookup t p ≠ Some Dir →
  wf_tree (<[p := x]> t).
Proof.
  intros Hwf Hpar Hnd.
  assert (p ≠ []) as Hne by (by intros ->).
  rewrite lookup_nonempty in Hnd by done.
  assert (∀ q, Fs.lookup t q = Some Dir → Fs.lookup (<[p := x]> t) q = Some Dir)
    as Hkeep.
  { intros [|z q]; [done|]. simpl. intros Hq.
    rewrite lookup_insert_ne; [done|]. by intros ->. }
  intros k y Hk.
  assert (k ≠ []) as Hkne.
  { intros ->. apply lookup_insert_Some in Hk as [[? _]|[_ Hk]]; [done|].
    by rewrite (wf_tree_not_nil t) in Hk. }
  destruct (snoc_cases k) as [->|(q & n & ->)]; [done|].
  apply entry_ok_snoc, Hkeep.
  apply lookup_insert_Some in Hk as [[-> _]|[_ Hk]].
  - unfold Fs.parent_error in Hpar. rewrite removelast_snoc in Hpar.
    by apply walk_None_dir.
  - by eapply wf_tree_entry_parent.
Qed.

Lemma grows_dirs_refl (t : tree) : grows_dirs t t.
Proof. intros k. by left. Qed.

Lemma grows_dirs_trans (t1 t2 t3 : tree) :
  grows_dirs t1 t2 → grows_dirs t2 t3 → grows_dirs t1 t3.
Proof.
  intros H12 H23 k.
  destruct (H12 k) as [E12|[N1 D2]], (H23 k) as [E23|[N2 D3]].
  - left. congruence.
  - right. split; congruence.
  - right. split; congruence.
  - congruence.
Qed.

Lemma grows_dirs_insert (t : tree) (p : path) :
  t !! p = None → grows_dirs t (<[p := Dir]> t).
Proof.
  intros Hp k. rewrite lookup_insert. case_decide; subst; auto.
Qed.

Lemma grows_dirs_Some (t t' : tree) (k : path) (x : node) :
  grows_dirs t t' → t !! k = Some x → t' !! k = Some x.
Proof. intros Hg Hk. destruct (Hg k) as [->|[? ?]]; congruence. Qed.

Lemma grows_dirs_file (t t' : tree) (k : path) (c : contents) (n : N) :
  grows_dirs t t' → t' !! k = Some (File c n) → t !! k = Some (File c n).
Proof. intros Hg Hk. destruct (Hg k) as [<-|[? ?]]; congruence. Qed.

Lemma grows_dirs_lookup_dir (t t' : tree) (p : path) :
  grows_dirs t t' → Fs.lookup t p = Some Dir → Fs.lookup t' p = Some Dir.
Proof.
  destruct p; [done|]. simpl. apply grows_dirs_Some.
Qed.

Lemma grows_dirs_walk (t t' : tree) (p : path) :
  grows_dirs t t' → Fs.walk t [] p = None → Fs.walk t' [] p = None.
Proof.
  intros Hg. induction p as [|n q IH] using rev_ind; [done|].
  rewrite !walk_snoc_None. intros [? ?]. split; [auto|].
  by eapply grows_dirs_Some.
Qed.

(** ** The operations on the tree *)

Lemma only_dirs_added_refl (w : world) : only_dirs_added w w.
Proof. split; [done|]. split; [apply grows_dirs_refl|done]. Qed.

Lemma only_dirs_added_trans (w1 w2 w3 : world) :
  only_dirs_added w1 w2 → only_dirs_added w2 w3 → only_dirs_added w1 w3.
Proof.
  intros (Hl1 & Hg1 & Hw1) (Hl2 & Hg2 & Hw2). split; [congruence|].
  split; [by eapply grows_dirs_trans|auto].
Qed.

Lemma is_dir_lookup (t : tree) (p : path) :
  Fs.is_dir t p = true ↔ Fs.lookup t p = Some Dir.
Proof.
  unfold Fs.is_dir. destruct (Fs.lookup t p) as [[|]|]; split; congruence.
Qed.

Lemma exists_lookup (t : tree) (p : path) :
  Fs.exists_ t p = true ↔ is_Some (Fs.lookup t p).
Proof. unfold Fs.exists_. apply bool_decide_eq_true. Qed.

Lemma exists_false_lookup (t : tree) (p : path) :
  Fs.exists_ t p = false ↔ Fs.lookup t p = None.
Proof.
  unfold Fs.exists_. rewrite bool_decide_eq_false, eq_None_not_Some. done.
Qed.

Lemma is_dir_exists (t : tree) (p : path) :
  Fs.is_dir t p = true → Fs.exists_ t p = true.
Proof. rewrite is_dir_lookup, exists_lookup. by intros ->. Qed.

Lemma only_dirs_added_is_dir (w w' : world) (p : path) :
  only_dirs_added w w' → Fs.is_dir (fs w) p = true → Fs.is_dir (fs w') p = true.
Proof.
  intros (_ & Hg & _). rewrite !is_dir_lookup. by apply grows_dirs_lookup_dir.
Qed.

(** [os.mkdir] adds one directory or changes nothing. *)
Lemma mkdir_spec (p : path) (w : world) :
  wp (Os.mkdir p)
     (λ w' _, only_dirs_added w w' ∧ Fs.is_dir (fs w') p = true)
     (λ w' _, w' = w) w.
Proof.
  unfold Os.mkdir. apply wp_bind, wp_gets. unfold id.
  destruct (Fs.parent_error (fs w) p) as [e|] eqn:Hpar; [by apply wp_raise|].
  destruct (Fs.exists_ (fs w) p) eqn:Hex; [by apply wp_raise|].
  apply wp_put_fs. simpl. apply exists_false_lookup in Hex.
  assert (p ≠ []) as Hne by (by intros ->).
  rewrite lookup_nonempty in Hex by done.
  split; [split; [done|split]|].
  - by apply grows_dirs_insert.
  - intros Hwf. apply wf_tree_insert; [done..|].
    rewrite lookup_nonempty by done. congruence.
  - apply is_dir_lookup. rewrite lookup_nonempty by done.
    apply lookup_insert_eq.
Qed.

Lemma mkdir_flat_spec (exist_ok : bool) (p : path) (w : world) :
  wp (Os.mkdir_flat exist_ok p)
     (λ w' _, only_dirs_added w w' ∧ Fs.is_dir (fs w') p = true)
     (λ w' _, w' = w) w.
Proof.
  unfold Os.mkdir_flat. apply wp_try.
  eapply wp_mono; [apply mkdir_spec|done|]. simpl. intros w' e ->.
  assert (wp (d ← gets (λ t, Fs.is_dir t p);
              if exist_ok && d then mret () else raise e)
            (λ w' _, only_dirs_added w w' ∧ Fs.is_dir (fs w') p = true)
            (λ w' _, w' = w) w) as Hother.
  { apply wp_bind, wp_gets.
    destruct exist_ok, (Fs.is_dir (fs w) p) eqn:Hd; simpl;
      try by apply wp_raise.
    apply wp_ret. split; [apply only_dirs_added_refl|done]. }
  destruct e; try exact Hother. by apply wp_raise.
Qed.

Lemma mkdir_parents_spec (exist_ok : bool) (rp : list string) (w : world) :
  wp (Os.mkdir_parents exist_ok rp)
     (λ w' _, only_dirs_added w w' ∧ Fs.is_dir (fs w') (rev rp) = true)
     (λ w' _, only_dirs_added w w') w.
Proof.
  revert exist_ok w. induction rp as [|n rp IH]; intros exist_ok w.
  - simpl. apply wp_try.
    eapply wp_mono; [apply (mkdir_spec [])|done|]. simpl. intros w' e ->.
    assert (wp (d ← gets (λ t, Fs.is_dir t []);
                if exist_ok && d then mret () else raise e)
              (λ w' _, only_dirs_added w w' ∧ Fs.is_dir (fs w') [] = true)
              (λ w' _, only_dirs_added w w') w) as Hother.
    { apply wp_bind, wp_gets. destruct exist_ok; simpl.
      - apply wp_ret. split; [apply only_dirs_added_refl|done].
      - apply wp_raise, only_dirs_added_refl. }
    destruct e; try exact Hother. apply wp_raise, only_dirs_added_refl.
  - cbn [Os.mkdir_parents]. apply wp_try.
    eapply wp_mono; [apply mkdir_spec|done|]. simpl. intros w' e ->.
    assert (wp (d ← gets (λ t, Fs.is_dir t (rev rp ++ [n]));
                if exist_ok && d then mret () else raise e)
              (λ w' _, only_dirs_added w w'
                       ∧ Fs.is_dir (fs w') (rev rp ++ [n]) = true)
              (λ w' _, only_dirs_added w w') w) as Hother.
    { apply wp_bind, wp_gets.
      destruct exist_ok, (Fs.is_dir (fs w) (rev rp ++ [n])) eqn:Hd; simpl;
        try apply wp_raise, only_dirs_added_refl.
      apply wp_ret. split; [apply only_dirs_added_refl|done]. }
    destruct e; try exact Hother.
    apply wp_bind. eapply wp_mono; [apply IH| |done].
    simpl. intros w1 _ [Hext _].
    eapply wp_mono; [apply mkdir_flat_spec| |].
    + simpl. intros w2 _ [Hext2 Hd]. split; [|done].
      by eapply only_dirs_added_trans.
    + simpl. by intros w2 _ ->.
Qed.

Lemma Path_mkdir_spec (parents exist_ok : bool) (p : path) (w : world) :
  wp (Os.Path_mkdir parents exist_ok p)
     (λ w' _, only_dirs_added w w' ∧ Fs.is_dir (fs w') p = true)
     (λ w' _, only_dirs_added w w') w.
Proof.
  unfold Os.Path_mkdir. destruct parents.
  - eapply wp_mono; [apply mkdir_parents_spec| |done].
    simpl. intros w' _. by rewrite rev_involutive.
  - eapply wp_mono; [apply mkdir_flat_spec|done|].
    simpl. intros w' _ ->. apply only_dirs_added_refl.
Qed.

(** Writing a file changes one entry, which was not a directory. *)
Lemma write_file_spec (p : path) (c : contents) (n : N) (w : world) :
  wp (Os.write_file p c n)
     (λ w' _, w' = {| fs := <[p := File c n]> (fs w); log := log w |}
              ∧ Fs.parent_error (fs w) p = None
              ∧ Fs.lookup (fs w) p ≠ Some Dir)
     (λ w' _, w' = w) w.
Proof.
  unfold Os.write_file. apply wp_bind, wp_gets. unfold id.
  destruct (Fs.parent_error (fs w) p) as [e|] eqn:Hpar; [by apply wp_raise|].
  destruct (Fs.lookup (fs w) p) as [[|c' n']|] eqn:Hp;
    [by apply wp_raise|by apply wp_put_fs..].
Qed.

(** ** Storing a record *)

Section store.
Context `{Runtime}.
Variable self : GerenciadorDataLake.

Lemma json_dumps_inr (sort_keys : bool) (indent : option nat)
    (ensure_ascii : bool) (j : json) (s : string) :
  json_dumps sort_keys indent ensure_ascii j = inr s ↔
  Json.serializable j = true ∧ s = Json.dumps sort_keys indent ensure_ascii j.
Proof.
  unfold json_dumps. destruct (Json.serializable j).
  - split; [by intros [= <-]|by intros [_ ->]].
  - split; [done|by intros [? _]].
Qed.

Lemma json_dumps_inl (sort_keys : bool) (indent : option nat)
    (ensure_ascii : bool) (j : json) (e : exn) :
  json_dumps sort_keys indent ensure_ascii j = inl e ↔
  Json.serializable j = false ∧ e = ValueError.
Proof.
  unfold json_dumps. destruct (Json.serializable j).
  - split; [done|by intros [? _]].
  - split; [by intros [= <-]|by intros [_ ->]].
Qed.

(** A dump writes the document, or raises: before the file is opened, or
    after, and then the file is left unreadable. *)
Lemma json_dump_to_spec (p : path) (doc : json) (w : world) :
  wp (json_dump_to p doc)
     (λ w' _, (∃ n, w' = {| fs := <[p := File (Document doc) n]> (fs w);
                            log := log w |}
               ∧ Fs.parent_error (fs w) p = None
               ∧ Fs.lookup (fs w) p ≠ Some Dir)
              ∧ Json.serializable doc = true)
     (λ w' _, talvez_truncado p w w') w.
Proof.
  unfold json_dump_to, json_dumps.
  destruct (Json.serializable doc) eqn:Hs.
  - eapply wp_mono; [apply write_file_spec| |].
    + simpl. eauto.
    + simpl. intros w' _ ->. by left.
  - apply wp_bind. eapply wp_mono; [apply write_file_spec| |].
    + simpl. intros w' _ (-> & Hpar & Hnd). apply wp_raise. right. eauto.
    + simpl. intros w' _ ->. by left.
Qed.

Lemma gravar_bruto_spec agora endpoint dados data_negocio id_loja extra w :
  let arq := caminho_arquivo_de self agora endpoint data_negocio id_loja in
  let meta := com_adicionais
                (metadados_de agora endpoint dados data_negocio id_loja)
                extra in
  wp (gravar_bruto self agora endpoint dados data_negocio id_loja extra)
     (λ w' r, r = (arq, meta) ∧ ∃ w1 n,
        only_dirs_added w w1
        ∧ Fs.is_dir (fs w1)
            (caminho_particao_de self endpoint data_negocio id_loja) = true
        ∧ Fs.parent_error (fs w1) arq = None
        ∧ Fs.lookup (fs w1) arq ≠ Some Dir
        ∧ w' = {| fs := <[arq := File (Document (registro_gravado meta dados))
                                   n]> (fs w1);
                  log := log w1 |})
     (λ w' _, ∃ w1, only_dirs_added w w1 ∧ talvez_truncado arq w1 w') w.
Proof.
  intros arq meta. unfold gravar_bruto. apply wp_bind.
  eapply wp_mono; [apply Path_mkdir_spec| |].
  2:{ simpl. intros w1 _ Hext. exists w1. split; [done|by left]. }
  simpl. intros w1 _ [Hext Hdir].
  apply wp_bind. unfold _calcular_hash, json_dumps.
  destruct (Json.serializable dados) eqn:Hs; simpl.
  2:{ exists w1. split; [done|by left]. }
  apply wp_lift, wp_bind, wp_lift, wp_bind.
  eapply wp_mono; [apply json_dump_to_spec| |].
  - simpl. intros w2 _ [(n & -> & Hpar & Hnd) _]. apply wp_ret.
    split; [done|]. by exists w1, n.
  - simpl. intros w2 _ Ht. by exists w1.
Qed.

(** The payload of a record that was written is one the encoder can
    write. *)
Lemma gravar_bruto_serializable agora endpoint dados data_negocio id_loja
    extra w w' r :
  gravar_bruto self agora endpoint dados data_negocio id_loja extra w
  = (w', inr r) →
  Json.serializable dados = true.
Proof.
  unfold gravar_bruto. rewrite run_bind.
  destruct (Os.Path_mkdir _ _ _ w) as [w1 [e|[]]]; [done|].
  rewrite run_bind. unfold _calcular_hash, json_dumps.
  by destruct (Json.serializable dados).
Qed.

Lemma _salvar_metadados_spec endpoint metadados caminho_arquivo w :
  wp (_salvar_metadados self endpoint metadados caminho_arquivo)
     (λ w' _, ∃ w1 p doc n,
        only_dirs_added w w1
        ∧ p = caminho_sidecar_de self endpoint caminho_arquivo
        ∧ Fs.parent_error (fs w1) p = None
        ∧ Fs.lookup (fs w1) p ≠ Some Dir
        ∧ w' = {| fs := <[p := File (Document doc) n]> (fs w1);
                  log := log w1 |})
     (λ w' _, ∃ w1, only_dirs_added w w1
        ∧ talvez_truncado
            (caminho_sidecar_de self endpoint caminho_arquivo) w1 w') w.
Proof.
  unfold _salvar_metadados. apply wp_bind.
  eapply wp_mono; [apply Path_mkdir_spec| |].
  2:{ simpl. intros w1 _ Hext. exists w1. split; [done|by left]. }
  simpl. intros w1 _ [Hext Hdir].
  eapply wp_mono; [apply json_dump_to_spec| |].
  - simpl. intros w2 _ [(n & -> & Hpar & Hnd) _]. by eexists w1, _, _, n.
  - simpl. intros w2 _ Ht. by exists w1.
Qed.

(** How [armazenar_resposta_api] ends, from how its two writes end. *)
Lemma armazenar_run agora endpoint dados data_negocio id_loja extra w :
  armazenar_resposta_api self agora endpoint dados data_negocio id_loja
    extra w
  = match gravar_bruto self agora endpoint dados data_negocio id_loja
            extra w with
    | (w1, inl e) =>
        ({| fs := fs w1; log := log w1 ++ [ErrorArmazenar e] |}, inl e)
    | (w1, inr (arq, meta)) =>
        match _salvar_metadados self endpoint meta arq w1 with
        | (w2, inl e) =>
            ({| fs := fs w2; log := log w2 ++ [ErrorArmazenar e] |}, inl e)
        | (w2, inr _) => (w2, inr (PurePath.str arq))
        end
    end.
Proof.
  unfold armazenar_resposta_api, try_except, mbind, io_bind.
  destruct (gravar_bruto _ _ _ _ _ _ _ w) as [w1 [e|[arq meta]]]; [done|].
  by destruct (_salvar_metadados _ _ _ _ w1) as [w2 [e|[]]].
Qed.
End store.

(** ** Listing directories *)

Lemma elem_of_keys (t : tree) (k : path) :
  k ∈ (map_to_list t).*1 ↔ is_Some (t !! k).
Proof.
  rewrite list_elem_of_fmap. split.
  - intros ([k' x] & -> & Hin). apply elem_of_map_to_list in Hin. by exists x.
  - intros [x Hx]. exists (k, x). split; [done|].
    by apply elem_of_map_to_list.
Qed.

Lemma NoDup_keys (t : tree) : NoDup (map_to_list t).*1.
Proof. apply NoDup_fst_map_to_list. Qed.

Lemma child_name_Some (p k : path) (n : string) :
  Fs.child_name p k = Some n ↔ k = p ++ [n].
Proof.
  unfold Fs.child_name. split.
  - destruct (last k) as [m|] eqn:Hl; [|done].
    case_bool_decide as Hk; [|done]. by intros [= <-].
  - intros ->. rewrite last_snoc. by rewrite bool_decide_eq_true_2.
Qed.

Lemma elem_of_children (t : tree) (p k : path) :
  k ∈ Fs.children t p ↔ ∃ n, k = p ++ [n] ∧ is_Some (t !! k).
Proof.
  unfold Fs.children. rewrite list_elem_of_filter, elem_of_keys. split.
  - intros [[n Hn] Hk]. apply child_name_Some in Hn. eauto.
  - intros (n & -> & Hk). split; [|done]. exists n. by apply child_name_Some.
Qed.

Lemma NoDup_children (t : tree) (p : path) : NoDup (Fs.children t p).
Proof. apply NoDup_filter, NoDup_keys. Qed.

Lemma elem_of_descendants (t : tree) (p k : path) :
  k ∈ Fs.descendants t p ↔ p `prefix_of` k ∧ k ≠ p ∧ is_Some (t !! k).
Proof.
  unfold Fs.descendants. rewrite list_elem_of_filter, elem_of_keys.
  tauto.
Qed.


Lemma name_snoc (p : path) (n : string) :
  PurePath.is_root n = false → PurePath.name (p ++ [n]) = n.
Proof. intros Hr. unfold PurePath.name. by rewrite last_snoc, Hr. Qed.

Lemma elem_of_glob (pat : Fs.pattern) (t : tree) (p k : path) :
  k ∈ Fs.glob pat t p ↔
  Fs.is_dir t p = true ∧ Fs.matches pat (PurePath.name k) = true
  ∧ ∃ n, k = p ++ [n] ∧ is_Some (t !! k).
Proof.
  unfold Fs.glob. destruct (Fs.is_dir t p).
  - rewrite list_elem_of_filter, elem_of_children. tauto.
  - rewrite elem_of_nil. split; [done|]. by intros [? _].
Qed.

Lemma NoDup_glob (pat : Fs.pattern) (t : tree) (p : path) :
  NoDup (Fs.glob pat t p).
Proof.
  unfold Fs.glob. destruct (Fs.is_dir t p); [|constructor].
  apply NoDup_filter, NoDup_children.
Qed.

Lemma elem_of_rglob (pat : Fs.pattern) (t : tree) (p k : path) :
  k ∈ Fs.rglob pat t p ↔
  Fs.is_dir t p = true ∧ Fs.matches pat (PurePath.name k) = true
  ∧ p `prefix_of` k ∧ k ≠ p ∧ is_Some (t !! k).
Proof.
  unfold Fs.rglob. destruct (Fs.is_dir t p).
  - rewrite list_elem_of_filter, elem_of_descendants. tauto.
  - rewrite elem_of_nil. split; [done|]. by intros [? _].
Qed.

(** ** Reading the records of a directory *)

(** What the body of the loop of [_ler_arquivos_pasta] does with one
    entry. *)
Lemma ler_um (t : tree) (l : list log_record) (arquivos : list json)
    (arquivo_json : path) :
  Fs.parent_error t arquivo_json = None → arquivo_json ≠ [] →
  try_except
    (dados ← Os.load_json arquivo_json;
     dados ← lift (setitem dados "_caminho_arquivo"
                     (JStr (PurePath.str arquivo_json)));
     mret (arquivos ++ [dados]))
    (λ erro, emit (WarnErroLerArquivo arquivo_json erro);; mret arquivos)
    {| fs := t; log := l |}
  = ({| fs := t;
        log := l ++ from_option (λ r, [r]) [] (aviso_de t arquivo_json) |},
     inr (arquivos
          ++ from_option (λ r, [r]) [] (registro_de t arquivo_json))).
Proof.
  intros Hpar Hne.
  unfold try_except, Os.load_json, mbind, io_bind, gets, id, aviso_de,
    registro_de, erro_de. simpl. rewrite Hpar.
  rewrite lookup_nonempty by done.
  destruct (t !! arquivo_json) as [[|[j|] n]|]; simpl;
    try by rewrite ?app_nil_r.
  destruct j; simpl; by rewrite ?app_nil_r.
Qed.

Lemma ler_varios (t : tree) (candidatos : list path) :
  (∀ a, a ∈ candidatos → Fs.parent_error t a = None ∧ a ≠ []) →
  ∀ (l : list log_record) (arquivos : list json),
  for_ candidatos arquivos (λ arquivos arquivo_json,
      try_except
        (dados ← Os.load_json arquivo_json;
         dados ← lift (setitem dados "_caminho_arquivo"
                         (JStr (PurePath.str arquivo_json)));
         mret (arquivos ++ [dados]))
        (λ erro, emit (WarnErroLerArquivo arquivo_json erro);;
                 mret arquivos))
    {| fs := t; log := l |}
  = ({| fs := t; log := l ++ omap (aviso_de t) candidatos |},
     inr (arquivos ++ omap (registro_de t) candidatos)).
Proof.
  induction candidatos as [|a candidatos IH]; intros Hok l arquivos.
  - simpl. by rewrite !app_nil_r.
  - cbn [for_]. unfold mbind at 1, io_bind at 1.
    destruct (Hok a) as [Hpar Hne]; [by left|].
    rewrite ler_um by done.
    rewrite IH by (intros; apply Hok; by right).
    simpl. f_equal; [f_equal|f_equal]; rewrite <-app_assoc; f_equal.
    + by destruct (aviso_de t a).
    + by destruct (registro_de t a).
Qed.

(** [_ler_arquivos_pasta] as a function of the tree it reads. *)
Lemma ler_arquivos_pasta_run (caminho_pasta : path) (w : world) :
  wf_tree (fs w) →
  _ler_arquivos_pasta caminho_pasta w
  = ({| fs := fs w; log := log w ++ avisos_pasta (fs w) caminho_pasta |},
     inr (registros_pasta (fs w) caminho_pasta)).
Proof.
  intros Hwf. unfold _ler_arquivos_pasta, mbind at 1, io_bind at 1, gets.
  destruct w as [t l]. simpl.
  rewrite ler_varios; [done|].
  intros a (Hdir & _ & n & -> & _)%elem_of_glob. split.
  - apply wf_tree_parent_error; [done|]. by apply is_dir_lookup.
  - by destruct caminho_pasta.
Qed.

(** ** Queries *)

Section query.
Variable self : GerenciadorDataLake.

Lemma for_ler_pastas (t : tree) (pastas : list path) :
  wf_tree t →
  ∀ (l : list log_record) (resultados : list json),
  for_ pastas resultados (λ resultados pasta_loja,
      lidos ← _ler_arquivos_pasta pasta_loja;
      mret (resultados ++ lidos))
    {| fs := t; log := l |}
  = ({| fs := t; log := l ++ mjoin (avisos_pasta t <$> pastas) |},
     inr (resultados ++ mjoin (registros_pasta t <$> pastas))).
Proof.
  intros Hwf. induction pastas as [|p pastas IH]; intros l resultados.
  - simpl. by rewrite !app_nil_r.
  - cbn [for_]. unfold mbind at 1, io_bind at 1.
    unfold mbind at 1, io_bind at 1.
    rewrite ler_arquivos_pasta_run by done. simpl.
    rewrite IH. simpl. by rewrite <-!app_assoc.
Qed.

(** One turn of the loop reads the store directories of its day. *)
Lemma buscar_dia_run (endpoint : string) (d : date) (id_loja : option string)
    (resultados : list json) (w : world) :
  wf_tree (fs w) →
  let pastas := pastas_dia (fs w) (caminho_base self) endpoint d id_loja in
  buscar_dia self endpoint d id_loja resultados w
  = ({| fs := fs w; log := log w ++ mjoin (avisos_pasta (fs w) <$> pastas) |},
     inr (resultados ++ mjoin (registros_pasta (fs w) <$> pastas))).
Proof.
  intros Hwf. destruct w as [t l]. simpl in *.
  unfold buscar_dia, pastas_dia, mbind at 1, io_bind at 1, gets. simpl.
  destruct (Fs.exists_ t _); simpl; [|by rewrite !app_nil_r].
  assert (∀ s : string,
    (existe_loja ← gets (λ t, Fs.exists_ t
        (particao_dia (caminho_base self) endpoint d // ("loja=" +:+ s)));
     if (existe_loja : bool) then
       lidos ← _ler_arquivos_pasta
         (particao_dia (caminho_base self) endpoint d // ("loja=" +:+ s));
       mret (resultados ++ lidos)
     else mret resultados) {| fs := t; log := l |}
    = (let pastas :=
         if Fs.exists_ t
              (particao_dia (caminho_base self) endpoint d // ("loja=" +:+ s))
         then [particao_dia (caminho_base self) endpoint d // ("loja=" +:+ s)]
         else [] in
       ({| fs := t; log := l ++ mjoin (avisos_pasta t <$> pastas) |},
        inr (resultados ++ mjoin (registros_pasta t <$> pastas))))) as Hloja.
  { intros s. unfold mbind at 1, io_bind at 1, gets. simpl.
    destruct (Fs.exists_ t _); simpl; [|by rewrite !app_nil_r].
    unfold mbind at 1, io_bind at 1.
    rewrite ler_arquivos_pasta_run by done. simpl. by rewrite !app_nil_r. }
  assert ((pastas ← gets (λ t, Fs.glob (Fs.Prefix "loja=") t
                           (particao_dia (caminho_base self) endpoint d));
           for_ pastas resultados (λ resultados pasta_loja,
             lidos ← _ler_arquivos_pasta pasta_loja;
             mret (resultados ++ lidos))) {| fs := t; log := l |}
          = (let pastas := Fs.glob (Fs.Prefix "loja=") t
                             (particao_dia (caminho_base self) endpoint d) in
             ({| fs := t; log := l ++ mjoin (avisos_pasta t <$> pastas) |},
              inr (resultados ++ mjoin (registros_pasta t <$> pastas)))))
    as Htodas.
  { unfold mbind at 1, io_bind at 1, gets. simpl. by apply for_ler_pastas. }
  destruct id_loja as [[|a s]|]; [exact Htodas|apply Hloja|exact Htodas].
Qed.

Lemma mjoin_cons {A} (x : list A) (l : list (list A)) :
  mjoin (x :: l) = x ++ mjoin l.
Proof. done. Qed.

Lemma dias_entre_vazio (d1 d2 : date) :
  toordinal d2 < toordinal d1 → dias_entre d1 d2 = [].
Proof.
  intros Hlt. unfold dias_entre, seqZ.
  replace (Z.to_nat (toordinal d2 + 1 - toordinal d1)) with 0%nat by lia.
  done.
Qed.

Lemma dias_entre_cons (d1 d2 : date) :
  toordinal d1 <= toordinal d2 →
  dias_entre d1 d2 = d1 :: dias_entre (Date (toordinal d1 + 1)) d2.
Proof.
  intros Hle. unfold dias_entre. simpl.
  rewrite (seqZ_cons (toordinal d1)) by lia. rewrite fmap_cons.
  destruct d1 as [o]. simpl. do 2 f_equal. f_equal; lia.
Qed.

Lemma elem_of_dias_entre (d d1 d2 : date) :
  d ∈ dias_entre d1 d2 ↔ toordinal d1 <= toordinal d <= toordinal d2.
Proof.
  unfold dias_entre. rewrite list_elem_of_fmap. split.
  - intros (o & -> & Ho). apply elem_of_seqZ in Ho. simpl. lia.
  - intros Hd. exists (toordinal d). split; [by destruct d|].
    apply elem_of_seqZ. lia.
Qed.

(** The loop of [buscar_dados], given turns enough: it reads the days in
    order, and then either leaves the loop or, when the range ends on the
    last day of the calendar, fails to step past it. *)
Lemma buscar_loop_run (endpoint : string) (d2 : date)
    (id_loja : option string) (turns : nat) :
  toordinal d2 <= Calendar._MAXORDINAL →
  ∀ (d1 : date) (resultados : list json) (w : world),
  wf_tree (fs w) → 1 <= toordinal d1 →
  (Z.to_nat (toordinal d2 + 1 - toordinal d1) < turns)%nat →
  buscar_loop self turns endpoint d1 d2 id_loja resultados w
  = ({| fs := fs w;
        log := log w ++ avisos_periodo (fs w) (caminho_base self) endpoint
                          d1 d2 id_loja |},
     if bool_decide (toordinal d1 <= toordinal d2
                     ∧ toordinal d2 = Calendar._MAXORDINAL)
     then inl OverflowError
     else inr (resultados
               ++ registros_periodo (fs w) (caminho_base self) endpoint
                    d1 d2 id_loja)).
Proof.
  intros Hmax. unfold avisos_periodo, registros_periodo, pastas_periodo.
  induction turns as [|turns IH]; intros d1 resultados w Hwf Hd1 Hturns;
    [lia|].
  cbn [buscar_loop]. unfold date_le.
  destruct (Z.leb_spec (toordinal d1) (toordinal d2)) as [Hle|Hgt].
  - unfold mbind at 1, io_bind at 1. rewrite buscar_dia_run by done.
    cbv zeta. unfold mbind at 1, io_bind at 1, lift, date_add_days.
    rewrite (dias_entre_cons d1 d2) by done.
    rewrite fmap_cons, mjoin_cons, !fmap_app, !join_app.
    destruct (decide (toordinal d1 = Calendar._MAXORDINAL)) as [Heq|Hne].
    + assert (toordinal d2 = Calendar._MAXORDINAL) as Hd2 by lia.
      rewrite Heq. simpl.
      rewrite bool_decide_eq_true_2 by (rewrite Hd2; done).
      rewrite dias_entre_vazio by (simpl; lia). simpl.
      by rewrite !app_nil_r.
    + assert (toordinal d1 < Calendar._MAXORDINAL) as Hlt by lia.
      replace ((0 <? toordinal d1 + 1)
               && (toordinal d1 + 1 <=? Calendar._MAXORDINAL)) with true
        by (symmetry; apply andb_true_iff; split;
            [apply Z.ltb_lt|apply Z.leb_le]; lia).
      rewrite IH by (simpl; try done; lia). simpl.
      rewrite <-!app_assoc. f_equal.
      repeat case_bool_decide; simpl in *; try done; lia.
  - rewrite dias_entre_vazio by lia. simpl.
    rewrite bool_decide_eq_false_2 by lia.
    destruct w. by rewrite !app_nil_r.
Qed.

(** [buscar_dados] gives its loop turns enough. *)
Lemma buscar_dados_run (endpoint : string) (d1 d2 : date)
    (id_loja : option string) (w : world) :
  wf_tree (fs w) → date_valid d1 → date_valid d2 →
  buscar_dados self endpoint d1 d2 id_loja w
  = ({| fs := fs w;
        log := log w ++ avisos_periodo (fs w) (caminho_base self) endpoint
                          d1 d2 id_loja |},
     if bool_decide (toordinal d1 <= toordinal d2
                     ∧ toordinal d2 = Calendar._MAXORDINAL)
     then inl OverflowError
     else inr (registros_periodo (fs w) (caminho_base self) endpoint
                 d1 d2 id_loja)).
Proof.
  intros Hwf [Hd1 _] [_ Hd2]. unfold buscar_dados.
  rewrite buscar_loop_run by (try done; lia). done.
Qed.

End query.

(** ** Names and paths *)

Lemma has_slash_app (a b : string) :
  has_slash (a +:+ b) = has_slash a || has_slash b.
Proof.
  induction a as [|c a IH]; [done|]. simpl. by rewrite IH, orb_assoc.
Qed.

Lemma length_app_string (a b : string) :
  String.length (a +:+ b) = (String.length a + String.length b)%nat.
Proof. induction a as [|c a IH]; [done|]. simpl. by rewrite IH. Qed.

Lemma split_no_slash (s : string) :
  has_slash s = false → PyStr.split "/" s = [s].
Proof.
  induction s as [|c s IH]; [done|]. simpl.
  intros [Hc Hs]%orb_false_iff. rewrite Hc, IH by done. done.
Qed.

Lemma prefix_cons (a b : ascii) (s1 s2 : string) :
  String.prefix (String a s1) (String b s2)
  = if Ascii.eqb a b then String.prefix s1 s2 else false.
Proof.
  simpl. destruct (Ascii.ascii_dec a b), (Ascii.eqb_spec a b); congruence.
Qed.

Lemma startswith_no_slash (s : string) :
  has_slash s = false → PyStr.startswith "/" s = false.
Proof.
  destruct s as [|c s]; [done|]. intros Hs. simpl in Hs.
  apply orb_false_iff in Hs as [Hc _].
  unfold PyStr.startswith. rewrite prefix_cons.
  by rewrite Ascii.eqb_sym, Hc.
Qed.

Lemma segments_plain (s : string) :
  plain_name s → PurePath.segments s = [s].
Proof.
  intros (Hs & Hne & Hdot). unfold PurePath.segments.
  rewrite split_no_slash by done.
  by rewrite filter_cons_True, filter_nil.
Qed.

Lemma div_plain (p : path) (s : string) :
  plain_name s → p // s = p ++ [s].
Proof.
  intros Hs. unfold PurePath.div.
  rewrite startswith_no_slash by apply Hs. by rewrite segments_plain.
Qed.

(** A name without a slash joins as one part, or as none when it is empty
    or a dot. *)
Lemma div_no_slash (p : path) (s : string) :
  has_slash s = false → p // s = p ++ PurePath.segments s.
Proof.
  intros Hs. unfold PurePath.div. by rewrite startswith_no_slash.
Qed.

Lemma is_root_no_slash (s : string) :
  has_slash s = false → PurePath.is_root s = false.
Proof.
  intros Hs. unfold PurePath.is_root.
  rewrite !bool_decide_eq_false_2; [done|by intros ->..].
Qed.

Lemma has_slash_pretty_N_go (x : N) (s : string) :
  has_slash s = false → has_slash (pretty_N_go x s) = false.
Proof.
  revert s. induction (N.lt_wf_0 x) as [x _ IH]; intros s Hs.
  destruct (decide (x = 0)%N) as [->|Hx]; [by rewrite pretty_N_go_0|].
  rewrite pretty_N_go_step by lia. apply IH.
  - apply N.div_lt; lia.
  - simpl. rewrite Hs, orb_false_r.
    unfold pretty_N_char. by repeat case_match.
Qed.

Lemma has_slash_pretty_N (x : N) : has_slash (pretty x) = false.
Proof.
  unfold pretty, pretty_N. case_decide; [done|].
  by apply has_slash_pretty_N_go.
Qed.

Lemma has_slash_fmt_d (z : Z) : has_slash (PyStr.fmt_d z) = false.
Proof.
  unfold PyStr.fmt_d, pretty, pretty_Z. destruct z as [|x|x]; [done|..].
  - apply (has_slash_pretty_N (N.pos x)).
  - rewrite has_slash_app. apply (has_slash_pretty_N (N.pos x)).
Qed.

Lemma has_slash_zeros (k : nat) :
  has_slash (String.concat "" (replicate k "0")) = false.
Proof.
  induction k as [|k IH]; [done|]. simpl.
  destruct (replicate k "0") eqn:Hr; [done|].
  rewrite has_slash_app. simpl. exact IH.
Qed.

Lemma has_slash_fmt_0d (w : nat) (z : Z) :
  has_slash (PyStr.fmt_0d w z) = false.
Proof.
  unfold PyStr.fmt_0d, PyStr.zfill.
  by rewrite has_slash_app, has_slash_zeros, has_slash_fmt_d.
Qed.

Lemma has_slash_strftime (ts : datetime) :
  has_slash (strftime_Ymd_HMS ts) = false.
Proof.
  unfold strftime_Ymd_HMS.
  by rewrite !has_slash_app, !has_slash_fmt_0d.
Qed.

Lemma endswith_app (a p : string) : PyStr.endswith p (a +:+ p) = true.
Proof.
  induction a as [|c a IH].
  - change ("" +:+ p) with p.
    destruct p; cbn [PyStr.endswith]; by rewrite bool_decide_eq_true_2.
  - change (String c a +:+ p) with (String c (a +:+ p)).
    cbn [PyStr.endswith]. rewrite IH. apply orb_true_r.
Qed.

(** The name of a record file is one part, and ends in [.json]. *)
Lemma nome_arquivo_plain (ts : datetime) (endpoint id_loja : string) :
  has_slash endpoint = false → has_slash id_loja = false →
  plain_name (nome_arquivo_de ts endpoint id_loja).
Proof.
  intros He Hi. unfold nome_arquivo_de. split; [|split].
  - by rewrite !has_slash_app, He, Hi, has_slash_strftime.
  - intros Heq. apply (f_equal String.length) in Heq.
    rewrite !length_app_string in Heq. simpl in Heq. lia.
  - intros Heq. apply (f_equal String.length) in Heq.
    rewrite !length_app_string in Heq. simpl in Heq. lia.
Qed.

Lemma string_app_assoc (a b c : string) :
  a +:+ (b +:+ c) = (a +:+ b) +:+ c.
Proof.
  induction a as [|x a IH]; [done|].
  change (String x (a +:+ (b +:+ c)) = String x ((a +:+ b) +:+ c)).
  by f_equal.
Qed.

Lemma nome_arquivo_json (ts : datetime) (endpoint id_loja : string) :
  PyStr.endswith ".json" (nome_arquivo_de ts endpoint id_loja) = true.
Proof.
  unfold nome_arquivo_de. rewrite !string_app_assoc. apply endswith_app.
Qed.

Lemma pasta_loja_plain (id_loja : string) :
  has_slash id_loja = false → plain_name ("loja=" +:+ id_loja).
Proof. intros Hi. split; [by simpl|]. split; by destruct id_loja. Qed.

Lemma caminho_particao_snoc (self : GerenciadorDataLake) (endpoint : string)
    (d : date) (id_loja : string) :
  has_slash id_loja = false →
  caminho_particao_de self endpoint d id_loja
  = particao_dia (caminho_base self) endpoint d ++ ["loja=" +:+ id_loja].
Proof.
  intros Hi. unfold caminho_particao_de.
  by rewrite div_plain by by apply pasta_loja_plain.
Qed.

Lemma caminho_arquivo_snoc (self : GerenciadorDataLake) (agora : datetime)
    (endpoint : string) (d : date) (id_loja : string) :
  has_slash endpoint = false → has_slash id_loja = false →
  caminho_arquivo_de self agora endpoint d id_loja
  = caminho_particao_de self endpoint d id_loja
    ++ [nome_arquivo_de agora endpoint id_loja].
Proof.
  intros He Hi. unfold caminho_arquivo_de.
  by rewrite div_plain by by apply nome_arquivo_plain.
Qed.

(** ** What a successful store leaves on disk *)

Lemma div_relative (p : path) (s : string) :
  PyStr.startswith "/" s = false → p // s = p ++ PurePath.segments s.
Proof. intros Hs. unfold PurePath.div. by rewrite Hs. Qed.

Lemma startswith_app_no_slash (a b : string) :
  has_slash a = false → a ≠ "" → PyStr.startswith "/" (a +:+ b) = false.
Proof.
  destruct a as [|c a]; [done|]. intros Hs _. simpl in Hs.
  apply orb_false_iff in Hs as [Hc _].
  change (String c a +:+ b) with (String c (a +:+ b)).
  unfold PyStr.startswith. rewrite prefix_cons.
  by rewrite Ascii.eqb_sym, Hc.
Qed.

Lemma nome_arquivo_relative (ts : datetime) (endpoint id_loja : string) :
  has_slash endpoint = false →
  PyStr.startswith "/" (nome_arquivo_de ts endpoint id_loja) = false.
Proof.
  intros He. unfold nome_arquivo_de. destruct endpoint as [|c e]; [done|].
  by apply startswith_app_no_slash.
Qed.

(** A record file lies in the raw zone and a sidecar in the metadata
    zone. *)
Lemma caminho_arquivo_shape (self : GerenciadorDataLake) (agora : datetime)
    (endpoint : string) (d : date) (id_loja : string) :
  has_slash endpoint = false →
  ∃ tl, caminho_arquivo_de self agora endpoint d id_loja
        = caminho_base self ++ "dados_brutos" :: tl.
Proof.
  intros He.
  unfold caminho_arquivo_de, caminho_particao_de, particao_dia.
  rewrite (div_relative _ (nome_arquivo_de _ _ _))
    by by apply nome_arquivo_relative.
  rewrite (div_relative _ ("loja=" +:+ _)) by done.
  rewrite (div_relative _ ("dia=" +:+ _)) by done.
  rewrite (div_relative _ ("mes=" +:+ _)) by done.
  rewrite (div_relative _ ("ano=" +:+ _)) by done.
  rewrite (div_relative _ endpoint) by by apply startswith_no_slash.
  rewrite (div_relative _ (estrutura_pastas raw)) by done.
  change (PurePath.segments (estrutura_pastas raw)) with ["dados_brutos"].
  rewrite <-!app_assoc. simpl. eauto.
Qed.

Lemma caminho_sidecar_shape (self : GerenciadorDataLake) (endpoint : string)
    (caminho_arquivo : path) :
  has_slash endpoint = false →
  ∃ tl, caminho_sidecar_de self endpoint caminho_arquivo
        = caminho_base self ++ "metadados" :: tl.
Proof.
  intros He. unfold caminho_sidecar_de.
  rewrite (div_relative _ ("meta_" +:+ _)) by done.
  rewrite (div_relative _ endpoint) by by apply startswith_no_slash.
  rewrite (div_relative _ (estrutura_pastas metadata)) by done.
  change (PurePath.segments (estrutura_pastas metadata)) with ["metadados"].
  rewrite <-!app_assoc. simpl. eauto.
Qed.

Lemma sidecar_is_not_the_record (self : GerenciadorDataLake)
    (agora : datetime) (endpoint : string) (d : date) (id_loja : string)
    (caminho_arquivo : path) :
  has_slash endpoint = false →
  caminho_sidecar_de self endpoint caminho_arquivo
  ≠ caminho_arquivo_de self agora endpoint d id_loja.
Proof.
  intros He Heq.
  destruct (caminho_arquivo_shape self agora endpoint d id_loja He)
    as [tl1 H1].
  destruct (caminho_sidecar_shape self endpoint caminho_arquivo He)
    as [tl2 H2].
  rewrite H1, H2 in Heq. by apply app_inv_head in Heq.
Qed.

Lemma insert_keeps_dir (t : tree) (p q : path) (x : node) :
  Fs.lookup t q = Some Dir → Fs.lookup t p ≠ Some Dir →
  Fs.lookup (<[p := x]> t) q = Some Dir.
Proof.
  destruct q as [|a q]; [done|]. simpl. intros Hq Hp.
  rewrite lookup_insert_ne; [done|]. intros ->. by destruct Hp.
Qed.

Section stored.
Context `{Runtime}.
Variable self : GerenciadorDataLake.

(** After [armazenar_resposta_api] returned, the tree is well formed, the
    record is in its file and the store directory is there. *)
Lemma armazenar_ok agora endpoint dados data_negocio id_loja extra w w1 s :
  wf_tree (fs w) → has_slash endpoint = false →
  armazenar_resposta_api self agora endpoint dados data_negocio id_loja
    extra w = (w1, inr s) →
  let arq := caminho_arquivo_de self agora endpoint data_negocio id_loja in
  let meta := com_adicionais
                (metadados_de agora endpoint dados data_negocio id_loja)
                extra in
  wf_tree (fs w1)
  ∧ s = PurePath.str arq
  ∧ (∃ n, fs w1 !! arq
          = Some (File (Document (registro_gravado meta dados)) n))
  ∧ Fs.is_dir (fs w1)
      (caminho_particao_de self endpoint data_negocio id_loja) = true.
Proof.
  intros Hwf He Hrun arq meta. rewrite armazenar_run in Hrun.
  pose proof (gravar_bruto_spec self agora endpoint dados data_negocio
                id_loja extra w) as Hg.
  unfold wp in Hg. cbv zeta in Hg. fold arq meta in Hg.
  destruct (gravar_bruto _ _ _ _ _ _ _ w) as [wa [e|[arq' meta']]];
    [done|].
  destruct Hg as ([= -> ->] & w0 & n & Hext0 & Hdir0 & Hpar0 & Hnd0 & ->).
  pose proof (_salvar_metadados_spec self endpoint meta arq
                {| fs := <[arq := File (Document (registro_gravado meta dados))
                                    n]> (fs w0);
                   log := log w0 |}) as Hs.
  unfold wp in Hs.
  destruct (_salvar_metadados _ _ _ _ _) as [w2 [e|[]]]; [done|].
  injection Hrun as <- <-.
  destruct Hs as (w3 & p & doc & n' & Hext3 & -> & Hpar3 & Hnd3 & ->).
  destruct Hext0 as (_ & Hg0 & Hwf0), Hext3 as (_ & Hg3 & Hwf3).
  simpl in *.
  assert (wf_tree (<[arq := File (Document (registro_gravado meta dados)) n]>
                     (fs w0))) as Hwfa.
  { apply wf_tree_insert; auto. }
  split; [|split; [done|split]].
  - apply wf_tree_insert; auto.
  - exists n. rewrite lookup_insert_ne
      by by apply sidecar_is_not_the_record.
    eapply grows_dirs_Some; [done|]. apply lookup_insert_eq.
  - apply is_dir_lookup, insert_keeps_dir; [|done].
    eapply grows_dirs_lookup_dir; [done|].
    apply insert_keeps_dir; [|done]. by apply is_dir_lookup.
Qed.

(** The record a query makes of a stored file holds the payload under
    [dados]. *)
Lemma registro_de_gravado (t : tree) (arq : path)
    (meta : list (string * json)) (dados : json) (n : N) :
  t !! arq = Some (File (Document (registro_gravado meta dados)) n) →
  ∃ m, registro_de t arq = Some (JObj m) ∧ Dict.get "dados" m = Some dados.
Proof.
  intros Harq. unfold registro_de. rewrite Harq. simpl. eauto.
Qed.

(** Store, then query: the record comes back. *)
Lemma armazenar_buscar agora endpoint dados data_negocio id_loja extra
    (d1 d2 : date) (w w1 : world) (s : string) :
  wf_tree (fs w) →
  has_slash endpoint = false → has_slash id_loja = false →
  date_valid d1 →
  toordinal d1 <= toordinal data_negocio <= toordinal d2 →
  toordinal d2 < Calendar._MAXORDINAL →
  armazenar_resposta_api self agora endpoint dados data_negocio id_loja
    extra w = (w1, inr s) →
  ∃ w2 rs m,
    buscar_dados self endpoint d1 d2 (Some id_loja) w1 = (w2, inr rs)
    ∧ JObj m ∈ rs ∧ Dict.get "dados" m = Some dados.
Proof.
  intros Hwf He Hi Hd1 Hdn Hd2 Hrun.
  destruct (armazenar_ok _ _ _ _ _ _ _ _ _ Hwf He Hrun)
    as (Hwf1 & _ & [n Harq] & Hdir).
  destruct (registro_de_gravado _ _ _ _ _ Harq) as (m & Hreg & Hget).
  rewrite buscar_dados_run; [|done|done|unfold date_valid in *; lia].
  rewrite bool_decide_eq_false_2 by lia.
  eexists _, _, m. split; [done|]. split; [|done].
  set (loja := caminho_particao_de self endpoint data_negocio id_loja) in *.
  set (arq := caminho_arquivo_de self agora endpoint data_negocio id_loja)
    in *.
  assert (arq = loja ++ [nome_arquivo_de agora endpoint id_loja]) as Harq_eq
    by by apply caminho_arquivo_snoc.
  assert (loja = particao_dia (caminho_base self) endpoint data_negocio
                 ++ ["loja=" +:+ id_loja]) as Hloja_eq
    by by apply caminho_particao_snoc.
  assert (JObj m ∈ registros_pasta (fs w1) loja) as Hin.
  { unfold registros_pasta. apply list_elem_of_omap. exists arq.
    split; [|done]. apply elem_of_glob. split; [done|]. split.
    - rewrite Harq_eq, name_snoc.
      + apply nome_arquivo_json.
      + apply is_root_no_slash. by apply nome_arquivo_plain.
    - eexists. split; [done|]. by rewrite Harq. }
  assert (loja ∈ pastas_dia (fs w1) (caminho_base self) endpoint data_negocio
                   (Some id_loja)) as Hloja.
  { assert (Fs.is_dir (fs w1)
              (particao_dia (caminho_base self) endpoint data_negocio) = true)
      as Hdia.
    { apply is_dir_lookup. apply is_dir_lookup in Hdir.
      rewrite Hloja_eq, lookup_snoc in Hdir.
      by eapply wf_tree_entry_parent. }
    unfold pastas_dia. rewrite (is_dir_exists _ _ Hdia).
    assert (loja = particao_dia (caminho_base self) endpoint data_negocio
                   // ("loja=" +:+ id_loja)) as Hloja_def by done.
    clearbody loja arq.
    destruct id_loja as [|a i].
    - apply elem_of_glob. split; [done|]. split.
      + by rewrite Hloja_eq, name_snoc.
      + exists "loja=". split; [done|].
        apply is_dir_lookup in Hdir. rewrite Hloja_eq, lookup_snoc in Hdir.
        by rewrite Hloja_eq, Hdir.
    - rewrite <-Hloja_def, (is_dir_exists _ _ Hdir). by left. }
  unfold registros_periodo, pastas_periodo.
  apply list_elem_of_join. eexists. split; [exact Hin|].
  apply list_elem_of_fmap. exists loja. split; [done|].
  apply list_elem_of_join. eexists. split; [exact Hloja|].
  apply list_elem_of_fmap. exists data_negocio. split; [done|].
  by apply elem_of_dias_entre.
Qed.

End stored.

(** ** The path of a record *)

Lemma join_app_ne (sep : string) (a b : list string) :
  a ≠ [] → b ≠ [] →
  PyStr.join sep (a ++ b) = PyStr.join sep a +:+ sep +:+ PyStr.join sep b.
Proof.
  intros Ha Hb. induction a as [|x a IH]; [done|].
  destruct a as [|y a].
  - destruct b; [done|]. done.
  - change (PyStr.join sep ((x :: y :: a) ++ b))
      with (x +:+ sep +:+ PyStr.join sep ((y :: a) ++ b)).
    rewrite IH by done.
    change (PyStr.join sep (x :: y :: a))
      with (x +:+ sep +:+ PyStr.join sep (y :: a)).
    by rewrite <-!string_app_assoc.
Qed.

Lemma str_app (p l : path) :
  proper_base p = true → l ≠ [] →
  PurePath.str (p ++ l) = PurePath.str p +:+ "/" +:+ PyStr.join "/" l.
Proof.
  intros Hp Hl. destruct p as [|r p]; [done|].
  change (PurePath.str ((r :: p) ++ l))
    with (if PurePath.is_root r then r +:+ PyStr.join "/" (p ++ l)
          else PyStr.join "/" ((r :: p) ++ l)).
  unfold PurePath.str. destruct (PurePath.is_root r) eqn:Hr.
  - destruct p as [|y p]; [unfold proper_base in Hp; by rewrite Hr in Hp|].
    rewrite join_app_ne by done. by rewrite <-!string_app_assoc.
  - by rewrite join_app_ne.
Qed.

Lemma plain_prefixed (pre s : string) :
  has_slash pre = false → pre ≠ "" → String.length pre ≠ 1%nat →
  has_slash s = false → plain_name (pre +:+ s).
Proof.
  intros Hpre Hne Hlen Hs. split; [by rewrite has_slash_app, Hpre, Hs|].
  split; intros Heq; apply (f_equal String.length) in Heq;
    rewrite length_app_string in Heq; simpl in Heq;
    destruct pre as [|? [|? ?]]; simpl in *; try done; lia.
Qed.

Lemma particao_dia_parts (base : path) (endpoint : string) (d : date) :
  plain_name endpoint →
  particao_dia base endpoint d
  = base ++ ["dados_brutos"; endpoint;
             "ano=" +:+ PyStr.fmt_d (date_year d);
             "mes=" +:+ PyStr.fmt_0d 2 (date_month d);
             "dia=" +:+ PyStr.fmt_0d 2 (date_day d)].
Proof.
  intros He. unfold particao_dia.
  rewrite (div_plain _ ("dia=" +:+ _))
    by (apply plain_prefixed; try done; apply has_slash_fmt_0d).
  rewrite (div_plain _ ("mes=" +:+ _))
    by (apply plain_prefixed; try done; apply has_slash_fmt_0d).
  rewrite (div_plain _ ("ano=" +:+ _))
    by (apply plain_prefixed; try done; apply has_slash_fmt_d).
  rewrite (div_plain _ endpoint) by done.
  rewrite (div_plain _ (estrutura_pastas raw)) by (by split).
  by rewrite <-!app_assoc.
Qed.

(** The parts of the path of a record file. *)
Lemma caminho_arquivo_parts (self : GerenciadorDataLake) (agora : datetime)
    (endpoint : string) (d : date) (id_loja : string) :
  plain_name endpoint → has_slash id_loja = false →
  caminho_arquivo_de self agora endpoint d id_loja
  = caminho_base self
    ++ ["dados_brutos"; endpoint;
        "ano=" +:+ PyStr.fmt_d (date_year d);
        "mes=" +:+ PyStr.fmt_0d 2 (date_month d);
        "dia=" +:+ PyStr.fmt_0d 2 (date_day d);
        "loja=" +:+ id_loja;
        nome_arquivo_de agora endpoint id_loja].
Proof.
  intros He Hi. destruct He as [He0 He1].
  rewrite caminho_arquivo_snoc, caminho_particao_snoc by done.
  rewrite particao_dia_parts by by split.
  by rewrite <-!app_assoc.
Qed.

Lemma caminho_arquivo_str (self : GerenciadorDataLake) (agora : datetime)
    (endpoint : string) (d : date) (id_loja : string) :
  plain_name endpoint → has_slash id_loja = false →
  proper_base (caminho_base self) = true →
  PurePath.str (caminho_arquivo_de self agora endpoint d id_loja)
  = caminho_registro_str (PurePath.str (caminho_base self)) endpoint d
      id_loja agora.
Proof.
  intros He Hi Hb. rewrite caminho_arquivo_parts by done.
  rewrite str_app by done.
  unfold caminho_registro_str, nome_arquivo_de. cbn [PyStr.join].
  by rewrite <-!string_app_assoc.
Qed.

(** What [armazenar_resposta_api] returns is the text of the record's
    path. *)
Lemma armazenar_returns `{Runtime} (self : GerenciadorDataLake) agora endpoint
    dados data_negocio id_loja extra (w w1 : world) (s : string) :
  armazenar_resposta_api self agora endpoint dados data_negocio id_loja
    extra w = (w1, inr s) →
  s = PurePath.str (caminho_arquivo_de self agora endpoint data_negocio
                      id_loja).
Proof.
  intros Hrun. rewrite armazenar_run in Hrun.
  pose proof (gravar_bruto_spec self agora endpoint dados data_negocio
                id_loja extra w) as Hg.
  unfold wp in Hg. cbv zeta in Hg.
  destruct (gravar_bruto _ _ _ _ _ _ _ w) as [wa [e|[arq' meta']]];
    [done|].
  destruct Hg as ([= -> ->] & _).
  destruct (_salvar_metadados _ _ _ _ _) as [w2 [e|[]]]; [done|].
  by injection Hrun as _ <-.
Qed.

(** ** The content hash *)

(** Induction on a document, through its arrays and objects. *)
Lemma json_nested_ind (P : json → Prop) :
  P JNull → (∀ b, P (JBool b)) → (∀ n, P (JInt n)) → (∀ r, P (JFloat r)) →
  (∀ s, P (JStr s)) →
  (∀ l, Forall P l → P (JArr l)) →
  (∀ m, Forall (λ kv, P kv.2) m → P (JObj m)) →
  ∀ j, P j.
Proof.
  intros Hnull Hbool Hint Hfloat Hstr Harr Hobj.
  fix IH 1. intros [|b|n|r|s|l|m].
  - exact Hnull.
  - apply Hbool.
  - apply Hint.
  - apply Hfloat.
  - apply Hstr.
  - apply Harr. induction l as [|x l IHl]; constructor; [apply IH|exact IHl].
  - apply Hobj.
    induction m as [|[k v] m IHm]; constructor; [apply IH|exact IHm].
Qed.

Lemma wf_arr (l : list json) : Json.wf (JArr l) ↔ Forall Json.wf l.
Proof. simpl. by rewrite Forall_fold_right. Qed.

Lemma wf_obj (m : list (string * json)) :
  Json.wf (JObj m) ↔ NoDup m.*1 ∧ Forall (λ kv, Json.wf kv.2) m.
Proof.
  change (Json.wf (JObj m))
    with (NoDup m.*1 ∧ foldr (λ kv P, Json.wf kv.2 ∧ P) True m).
  by rewrite (Forall_fold_right (λ kv, Json.wf kv.2)).
Qed.

Lemma dict_get_elem {A} (k : string) (m : list (string * A)) (v : A) :
  Dict.get k m = Some v → (k, v) ∈ m.
Proof.
  induction m as [|[k' v'] m IH]; [done|]. simpl.
  case_bool_decide as Hk.
  - intros [= ->]. subst. by left.
  - intros Hg. right. by apply IH.
Qed.

Lemma NoDup_keys_pairs {A} (m : list (string * A)) : NoDup m.*1 → NoDup m.
Proof. apply NoDup_fmap_1. Qed.

(** Two lists of items with distinct keys, the same length and the items
    of the first among those of the second sort to the same list. *)
Lemma sort_items_unique {A} (l1 l2 : list (string * A)) :
  NoDup l1.*1 → NoDup l2.*1 → length l1 = length l2 →
  (∀ x, x ∈ l1 → x ∈ l2) →
  Json.sort_items l1 = Json.sort_items l2.
Proof.
  intros Hnd1 Hnd2 Hlen Hsub. unfold Json.sort_items.
  set (R := λ a b : string * A, String.le a.1 b.1).
  assert (Transitive R) as Htrans.
  { intros a b c. unfold R. apply transitivity. }
  assert (Total R) as Htot.
  { intros a b. unfold R. apply total, _. }
  assert (l1 ≡ₚ l2) as Hperm.
  { apply submseteq_length_Permutation; [|lia].
    apply NoDup_submseteq; [by apply NoDup_keys_pairs|done]. }
  apply (Sorted_unique_strong R).
  - intros x1 x2 Hx1 Hx2 H12 H21.
    assert (x1.1 = x2.1) as Hkey by (by apply (anti_symm String.le)).
    rewrite merge_sort_Permutation in Hx1, Hx2.
    rewrite Hperm in Hx1.
    destruct x1 as [k v1], x2 as [k' v2]. simpl in Hkey. subst k'.
    f_equal.
    assert (∀ (l : list (string * A)) k v v',
      NoDup l.*1 → (k, v) ∈ l → (k, v') ∈ l → v = v') as Hfun.
    { clear. induction l as [|[k0 v0] l IH]; intros k v v' Hnd Hv Hv'.
      - by apply elem_of_nil in Hv.
      - apply NoDup_cons in Hnd as [Hk0 Hnd].
        apply elem_of_cons in Hv as [[= -> ->]|Hv],
          Hv' as [[= ?]|Hv']; subst; try done.
        + destruct Hk0. apply list_elem_of_fmap. by exists (k0, v').
        + destruct Hk0. apply list_elem_of_fmap. by exists (k0, v).
        + by eapply IH. }
    by eapply Hfun.
  - by apply Sorted_merge_sort.
  - by apply Sorted_merge_sort.
  - by rewrite !merge_sort_Permutation.
Qed.

Lemma mapping_eq_arr (l1 l2 : list json) :
  Json.mapping_eq (JArr l1) (JArr l2) = true ↔
  Forall2 (λ x y, Json.mapping_eq x y = true) l1 l2.
Proof.
  simpl. revert l2. induction l1 as [|x l1 IH]; intros [|y l2].
  - split; [constructor|done].
  - split; [done|inversion 1].
  - split; [done|inversion 1].
  - rewrite andb_true_iff, IH. split.
    + intros [? ?]. by constructor.
    + by inversion 1.
Qed.

Lemma mapping_eq_obj (m1 m2 : list (string * json)) :
  Json.mapping_eq (JObj m1) (JObj m2) = true ↔
  length m1 = length m2
  ∧ Forall (λ kv, ∃ w, Dict.get kv.1 m2 = Some w
                       ∧ Json.mapping_eq kv.2 w = true) m1.
Proof.
  change (Json.mapping_eq (JObj m1) (JObj m2))
    with (bool_decide (length m1 = length m2)
          && forallb (λ kv, match Json.get kv.1 m2 with
                            | Some w => Json.mapping_eq kv.2 w
                            | None => false
                            end) m1).
  rewrite andb_true_iff, bool_decide_eq_true, forallb_forall, Forall_forall.
  split; intros [Hlen Hall]; (split; [done|]); intros kv Hkv.
  - apply list_elem_of_In, Hall in Hkv. unfold Json.get in Hkv.
    destruct (Dict.get kv.1 m2) as [w|]; [eauto|done].
  - apply list_elem_of_In, Hall in Hkv as (w & Hw & Heq).
    unfold Json.get. by rewrite Hw.
Qed.

Section hash.
Context `{Runtime}.
Variable indent : option nat.
Variable ensure_ascii : bool.

(** With [sort_keys], documents that are equal as mappings have the same
    text. *)
Lemma encode_sorted_mapping_eq (p : json) :
  ∀ (q : json) (level : nat),
  Json.wf p → Json.wf q → Json.mapping_eq p q = true →
  Json.encode true indent ensure_ascii level p
  = Json.encode true indent ensure_ascii level q.
Proof.
  induction p as [|b|n|r|s|l IH|m IH] using json_nested_ind;
    intros q level Hwfp Hwfq Heq.
  - by destruct q.
  - destruct q; try done. simpl in Heq.
    by apply bool_decide_eq_true in Heq as ->.
  - destruct q; try done. simpl in Heq.
    by apply bool_decide_eq_true in Heq as ->.
  - destruct q; try done. simpl in Heq.
    by apply bool_decide_eq_true in Heq as ->.
  - destruct q; try done. simpl in Heq.
    by apply bool_decide_eq_true in Heq as ->.
  - destruct q as [| | | | |l2|]; try done.
    apply mapping_eq_arr in Heq. apply wf_arr in Hwfp, Hwfq.
    cbn [Json.encode]. f_equal.
    revert l2 Heq Hwfq. induction l as [|x l IHl]; intros l2 Heq Hwfq.
    + by inversion Heq.
    + inversion Heq as [|? y ? l2' Hxy Hrest]; subst.
      apply Forall_cons in IH as [IHx IHrest].
      apply Forall_cons in Hwfp as [Hx Hl], Hwfq as [Hy Hl2].
      rewrite !fmap_cons. f_equal; [by apply IHx|by apply IHl].
  - destruct q as [| | | | | |m2]; try done.
    apply mapping_eq_obj in Heq as [Hlen Hall].
    apply wf_obj in Hwfp as [Hnd1 Hwf1], Hwfq as [Hnd2 Hwf2].
    cbn [Json.encode]. cbv zeta. do 2 f_equal.
    apply sort_items_unique.
    + by rewrite <-list_fmap_compose.
    + by rewrite <-list_fmap_compose.
    + by rewrite !length_fmap.
    + intros [k e] Hke. apply list_elem_of_fmap in Hke
        as ([k1 v1] & [= -> ->] & Hin).
      rewrite Forall_forall in Hall, IH, Hwf1, Hwf2.
      destruct (Hall _ Hin) as (w & Hget & Hvw). simpl in *.
      apply dict_get_elem in Hget.
      apply list_elem_of_fmap. exists (k1, w). split; [|done].
      simpl. f_equal. apply (IH _ Hin); [by apply (Hwf1 _ Hin)| |done].
      by apply (Hwf2 _ Hget).
Qed.

End hash.

(** Whether the encoder can write a document does not depend on the order
    of its keys. *)
Lemma serializable_arr `{Runtime} (l : list json) :
  Json.serializable (JArr l) = true
  ↔ Forall (λ x, Json.serializable x = true) l.
Proof.
  change (Json.serializable (JArr l)) with (forallb Json.serializable l).
  rewrite forallb_forall, Forall_forall.
  split; intros Hl x Hx; apply Hl; by apply list_elem_of_In.
Qed.

Lemma serializable_obj `{Runtime} (m : list (string * json)) :
  Json.serializable (JObj m) = true
  ↔ Forall (λ kv, Json.serializable kv.2 = true) m.
Proof.
  change (Json.serializable (JObj m))
    with (forallb (λ kv, Json.serializable kv.2) m).
  rewrite forallb_forall, Forall_forall.
  split; intros Hl x Hx; apply Hl; by apply list_elem_of_In.
Qed.

Lemma NoDup_fst_functional {A} (l : list (string * A)) (k : string)
    (v v' : A) :
  NoDup l.*1 → (k, v) ∈ l → (k, v') ∈ l → v = v'.
Proof.
  induction l as [|[k0 v0] l IH]; intros Hnd Hv Hv'.
  - by apply elem_of_nil in Hv.
  - apply NoDup_cons in Hnd as [Hk0 Hnd].
    apply elem_of_cons in Hv as [[= -> ->]|Hv],
      Hv' as [[= ?]|Hv']; subst; try done.
    + destruct Hk0. apply list_elem_of_fmap. by exists (k0, v').
    + destruct Hk0. apply list_elem_of_fmap. by exists (k0, v).
    + by eapply IH.
Qed.

Lemma serializable_mapping_eq `{Runtime} (p : json) :
  ∀ q : json,
  Json.wf p → Json.wf q → Json.mapping_eq p q = true →
  Json.serializable p = Json.serializable q.
Proof.
  induction p as [|b|n|r|s|l IH|m IH] using json_nested_ind;
    intros q Hwfp Hwfq Heq.
  - by destruct q.
  - by destruct q.
  - destruct q; try done. simpl in Heq.
    by apply bool_decide_eq_true in Heq as ->.
  - by destruct q.
  - by destruct q.
  - destruct q as [| | | | |l2|]; try done.
    apply mapping_eq_arr in Heq. apply wf_arr in Hwfp, Hwfq.
    apply eq_true_iff_eq. rewrite !serializable_arr.
    revert l2 Heq Hwfq. induction l as [|x l IHl]; intros l2 Heq Hwfq.
    + by inversion Heq.
    + inversion Heq as [|? y ? l2' Hxy Hrest]; subst.
      apply Forall_cons in IH as [IHx IHrest].
      apply Forall_cons in Hwfp as [Hx Hl], Hwfq as [Hy Hl2].
      rewrite !Forall_cons, (IHx y), (IHl IHrest Hl l2') by done. done.
  - destruct q as [| | | | | |m2]; try done.
    apply mapping_eq_obj in Heq as [Hlen Hall].
    apply wf_obj in Hwfp as [Hnd1 Hwf1], Hwfq as [Hnd2 Hwf2].
    apply eq_true_iff_eq. rewrite !serializable_obj.
    rewrite Forall_forall in Hall, IH, Hwf1, Hwf2.
    assert (∀ kv, kv ∈ m → ∃ w, (kv.1, w) ∈ m2
              ∧ Json.serializable kv.2 = Json.serializable w) as Hto.
    { intros kv Hkv. destruct (Hall _ Hkv) as (w & Hget & Hvw).
      apply dict_get_elem in Hget. exists w. split; [done|].
      apply (IH _ Hkv); [by apply Hwf1| |done]. by apply (Hwf2 _ Hget). }
    assert (m.*1 ≡ₚ m2.*1) as Hperm.
    { apply submseteq_length_Permutation; [|by rewrite !length_fmap; lia].
      apply NoDup_submseteq; [done|].
      intros k ([k1 v1] & -> & Hin)%list_elem_of_fmap.
      destruct (Hto _ Hin) as (w & Hw & _).
      apply list_elem_of_fmap. by exists (k1, w). }
    rewrite !Forall_forall. split.
    + intros Hs [k2 v2] Hin2.
      assert (k2 ∈ m.*1) as Hk.
      { rewrite Hperm. apply list_elem_of_fmap. by exists (k2, v2). }
      apply list_elem_of_fmap in Hk as ([k1 v1] & Hk1 & Hin1).
      simpl in Hk1. subst k1.
      destruct (Hto _ Hin1) as (w & Hw & Hsw). simpl in *.
      rewrite (NoDup_fst_functional m2 k2 v2 w) by done.
      rewrite <-Hsw. by apply (Hs _ Hin1).
    + intros Hs kv Hin. destruct (Hto _ Hin) as (w & Hw & ->).
      by apply (Hs _ Hw).
Qed.

(** The hash of a payload is the digest of its key-sorted text, so
    payloads that are equal as mappings have the same hash (or both have
    none). *)
Lemma calcular_hash_mapping_eq `{Runtime} (p q : json) :
  Json.wf p → Json.wf q → Json.mapping_eq p q = true →
  _calcular_hash p = _calcular_hash q.
Proof.
  intros Hp Hq Heq. unfold _calcular_hash, json_dumps, Json.dumps.
  rewrite (serializable_mapping_eq p q) by done.
  by rewrite (encode_sorted_mapping_eq None true p q).
Qed.

(** ** Counting files *)

Lemma is_file_lookup (t : tree) (p : path) :
  Fs.is_file t p = true → ∃ c n, Fs.lookup t p = Some (File c n).
Proof.
  unfold Fs.is_file. destruct (Fs.lookup t p) as [[|c n]|]; try done. eauto.
Qed.

Lemma stat_size_file (p : path) (w : world) :
  Fs.is_file (fs w) p = true →
  Os.stat_size p w = (w, inr (size_of (fs w) p)).
Proof.
  intros Hf. unfold Os.stat_size, mbind, io_bind, gets, id, size_of.
  destruct (is_file_lookup _ _ Hf) as (c & n & Hp). simpl. rewrite Hp.
  destruct p; [done|]. simpl in Hp. by rewrite Hp.
Qed.

(** The counting loop adds the number and the sizes of the regular files
    it meets. *)
Lemma contar_loop (l : list path) (acc : Z * Z) (w : world) :
  for_ l acc (λ acc arquivo,
      f ← gets (λ t, Fs.is_file t arquivo);
      if (f : bool) then
        tamanho ← Os.stat_size arquivo;
        mret (acc.1 + 1, acc.2 + tamanho)
      else mret acc) w
  = (w, inr (acc.1 + Z.of_nat (length (filter (λ k, Fs.is_file (fs w) k = true)
                                         l)),
             acc.2 + foldr (λ k n, size_of (fs w) k + n) 0
                       (filter (λ k, Fs.is_file (fs w) k = true) l))).
Proof.
  revert acc. induction l as [|k l IH]; intros [n s].
  - simpl. by rewrite !Z.add_0_r.
  - cbn [for_]. rewrite !run_bind, run_gets. cbn [fst snd].
    destruct (Fs.is_file (fs w) k) eqn:Hf.
    + rewrite run_bind, stat_size_file, run_ret by done.
      rewrite IH. rewrite filter_cons_True by done.
      cbn [fst snd length foldr]. do 3 f_equal; lia.
    + rewrite run_ret, IH. rewrite filter_cons_False; [done|].
      by rewrite Hf.
Qed.

Lemma contar_arquivos_run (pasta : path) (acc : Z * Z) (w : world) :
  contar_arquivos pasta acc w
  = (w, inr (acc.1 + count_files Fs.Any (fs w) pasta,
             acc.2 + total_size Fs.Any (fs w) pasta)).
Proof.
  unfold contar_arquivos. rewrite run_bind, run_gets.
  by rewrite contar_loop.
Qed.

Lemma _analisar_pasta_run (caminho_pasta : path) (w : world) :
  _analisar_pasta caminho_pasta w
  = (w, inr {| ip_total_arquivos := count_files Fs.Any (fs w) caminho_pasta;
               ip_tamanho_mb :=
                 round_mb (total_size Fs.Any (fs w) caminho_pasta);
               ip_caminho := PurePath.str caminho_pasta |}).
Proof.
  unfold _analisar_pasta. by rewrite run_bind, contar_arquivos_run.
Qed.


(** ** The statistics report *)



Lemma dict_get_set_eq {A} (k : string) (v : A) (m : list (string * A)) :
  Dict.get k (Dict.set k v m) = Some v.
Proof.
  induction m as [|[k' v'] m IH]; simpl.
  - by rewrite bool_decide_eq_true_2.
  - case_bool_decide as Hk; simpl.
    + by rewrite bool_decide_eq_true_2.
    + by rewrite bool_decide_eq_false_2.
Qed.

Lemma dict_get_set_ne {A} (k k' : string) (v : A) (m : list (string * A)) :
  k ≠ k' → Dict.get k' (Dict.set k v m) = Dict.get k' m.
Proof.
  intros Hne. induction m as [|[k0 v0] m IH]; simpl.
  - by rewrite bool_decide_eq_false_2.
  - case_bool_decide as Hk; simpl.
    + subst k0. by rewrite !bool_decide_eq_false_2.
    + case_bool_decide; [done|]. exact IH.
Qed.


Lemma Forall_dict_set {A} (P : string * A → Prop) (k : string) (v : A)
    (m : list (string * A)) :
  P (k, v) → Forall P m → Forall P (Dict.set k v m).
Proof.
  intros Hv. induction 1 as [|[k' v'] m Hx Hm IH]; simpl.
  - by constructor.
  - case_bool_decide; by constructor.
Qed.


Lemma count_files_not_dir (pat : Fs.pattern) (t : tree) (p : path) :
  Fs.is_dir t p = false → count_files pat t p = 0.
Proof. intros Hd. unfold count_files, Fs.rglob. by rewrite Hd. Qed.


Lemma estrutura_pastas_inj : Inj (=) (=) estrutura_pastas.
Proof. intros [] []; by intros [=]. Qed.

Lemma zonas_all (z : zona) : z ∈ zonas.
Proof. unfold zonas. destruct z; by repeat constructor. Qed.


Lemma iterdir_spec (p : path) (w : world) :
  wp (Os.iterdir p) (λ w' l, w' = w ∧ l = Fs.children (fs w) p)
     (λ _ _, True) w.
Proof.
  unfold Os.iterdir. apply wp_bind, wp_gets. unfold id.
  destruct (Fs.parent_error (fs w) p); [done|].
  by destruct (Fs.lookup (fs w) p) as [[|]|].
Qed.

Section stats.
Variable self : GerenciadorDataLake.


End stats.

(** ** Per-endpoint counts against the count of the raw zone *)

(** In a well-formed tree what lies above an entry is a directory. *)
Lemma wf_tree_above (t : tree) (p : path) (l : list string) :
  wf_tree t → l ≠ [] → is_Some (t !! (p ++ l)) →
  Fs.lookup t p = Some Dir.
Proof.
  intros Hwf. induction l as [|n l IH] using rev_ind; [done|].
  intros _ [x Hx]. rewrite app_assoc in Hx.
  apply wf_tree_entry_parent in Hx; [|done].
  destruct l as [|m l]; [by rewrite app_nil_r in Hx|].
  apply IH; [done|]. destruct (p ++ m :: l) eqn:Hpl; [by destruct p|].
  simpl in Hx. by rewrite Hx.
Qed.

Lemma prefix_snoc_inj (p x : path) (n n' : string) :
  (p ++ [n]) `prefix_of` x → (p ++ [n']) `prefix_of` x → n = n'.
Proof.
  intros [l1 ->] [l2 Heq]. rewrite <-!app_assoc in Heq.
  apply app_inv_head in Heq. by injection Heq.
Qed.

Section counts.
Variable t : tree.
Variable raiz : path.







End counts.

(** ** Removing subtrees *)

Lemma sem_lookup (R : path → bool) (t : tree) (k : path) :
  sem R t !! k = if R k then None else t !! k.
Proof.
  unfold sem. destruct (R k) eqn:HR.
  - apply map_lookup_filter_None. right. intros x _. simpl. congruence.
  - destruct (t !! k) as [x|] eqn:Hk.
    + by apply map_lookup_filter_Some.
    + apply map_lookup_filter_None. by left.
Qed.

Lemma sem_ext (R1 R2 : path → bool) (t : tree) :
  (∀ k, is_Some (t !! k) → R1 k = R2 k) → sem R1 t = sem R2 t.
Proof.
  intros Hext. apply map_eq. intros k. rewrite !sem_lookup.
  destruct (t !! k) as [x|] eqn:Hk.
  - by rewrite Hext by by rewrite Hk.
  - by destruct (R1 k), (R2 k).
Qed.

Lemma sem_sem (R1 R2 : path → bool) (t : tree) :
  sem R2 (sem R1 t) = sem (λ k, R1 k || R2 k) t.
Proof.
  apply map_eq. intros k. rewrite !sem_lookup.
  by destruct (R1 k), (R2 k).
Qed.

Lemma sem_none (R : path → bool) (t : tree) :
  (∀ k, is_Some (t !! k) → R k = false) → sem R t = t.
Proof.
  intros HR. apply map_eq. intros k. rewrite sem_lookup.
  destruct (t !! k) as [x|] eqn:Hk; [|by destruct (R k)].
  by rewrite HR by by rewrite Hk.
Qed.

Lemma remove_subtree_sem (p : path) (t : tree) :
  Fs.remove_subtree p t = sem (sob p) t.
Proof.
  unfold Fs.remove_subtree, sem, sob. apply map_filter_ext.
  intros k x _. simpl. by rewrite bool_decide_eq_false.
Qed.

(** Removing whole subtrees keeps a tree well formed. *)
Lemma wf_tree_sem (R : path → bool) (t : tree) :
  (∀ k k', R k = true → k `prefix_of` k' → R k' = true) →
  wf_tree t → wf_tree (sem R t).
Proof.
  intros Hup Hwf k x Hk. rewrite sem_lookup in Hk.
  destruct (R k) eqn:HRk; [done|].
  pose proof (Hwf _ _ Hk) as Hok.
  destruct (snoc_cases k) as [->|(q & n & ->)]; [done|].
  apply entry_ok_snoc. apply entry_ok_snoc in Hok.
  destruct q as [|a q]; [done|]. unfold Fs.lookup in *. rewrite sem_lookup.
  destruct (R (a :: q)) eqn:HRq; [|done].
  rewrite (Hup (a :: q) ((a :: q) ++ [n])) in HRk; [done|done|].
  by apply prefix_app_r.
Qed.

(** ** Counting what is removed *)

Lemma elem_of_arquivos_em (R : path → bool) (t : tree) (k : path) :
  k ∈ arquivos_em R t ↔ Fs.is_file t k = true ∧ R k = true.
Proof.
  unfold arquivos_em. rewrite list_elem_of_filter, elem_of_keys. split.
  - tauto.
  - intros [Hf HR]. split; [done|].
    apply is_file_lookup in Hf as (c & n & Hk).
    destruct k; [done|]. simpl in Hk. by rewrite Hk.
Qed.

Lemma NoDup_arquivos_em (R : path → bool) (t : tree) :
  NoDup (arquivos_em R t).
Proof. apply NoDup_filter, NoDup_keys. Qed.

Lemma soma_tamanhos_perm (t : tree) (l1 l2 : list path) :
  l1 ≡ₚ l2 → soma_tamanhos t l1 = soma_tamanhos t l2.
Proof.
  induction 1 as [|x l1 l2 _ IH|x y l|l1 l2 l3 _ IH1 _ IH2]; simpl;
    [done|by rewrite IH|lia|congruence].
Qed.

Lemma soma_tamanhos_app (t : tree) (l1 l2 : list path) :
  soma_tamanhos t (l1 ++ l2) = soma_tamanhos t l1 + soma_tamanhos t l2.
Proof. induction l1 as [|x l1 IH]; simpl; [done|]. rewrite IH. lia. Qed.

Lemma soma_tamanhos_ext (t1 t2 : tree) (l : list path) :
  (∀ k, k ∈ l → t1 !! k = t2 !! k) →
  soma_tamanhos t1 l = soma_tamanhos t2 l.
Proof.
  induction l as [|x l IH]; intros Hl; [done|]. simpl.
  rewrite IH by (intros; apply Hl; by right).
  unfold size_of. by rewrite (Hl x) by by left.
Qed.

(** Two predicates that no file satisfies together split the files of their
    union. *)
Lemma arquivos_em_union (R1 R2 : path → bool) (t : tree) :
  (∀ k, R1 k = true → R2 k = true → False) →
  arquivos_em (λ k, R1 k || R2 k) t ≡ₚ arquivos_em R1 t ++ arquivos_em R2 t.
Proof.
  intros Hdisj. apply NoDup_Permutation.
  - apply NoDup_arquivos_em.
  - apply NoDup_app. split; [apply NoDup_arquivos_em|].
    split; [|apply NoDup_arquivos_em].
    intros k [_ H1]%elem_of_arquivos_em [_ H2]%elem_of_arquivos_em.
    by eapply Hdisj.
  - intros k. rewrite elem_of_app, !elem_of_arquivos_em, orb_true_iff.
    tauto.
Qed.

(** Trees that agree where [R] holds have the same files there. *)
Lemma arquivos_em_agree (R : path → bool) (t1 t2 : tree) :
  (∀ k, R k = true → t1 !! k = t2 !! k) →
  arquivos_em R t1 ≡ₚ arquivos_em R t2.
Proof.
  intros Hag. apply NoDup_Permutation; try apply NoDup_arquivos_em.
  intros k. rewrite !elem_of_arquivos_em.
  assert (R k = true → Fs.is_file t1 k = Fs.is_file t2 k) as Hf.
  { intros HR. unfold Fs.is_file, Fs.lookup. destruct k; [done|].
    by rewrite Hag. }
  split; intros [? HR]; (split; [|done]); [rewrite <-Hf|rewrite Hf]; done.
Qed.

Lemma is_file_Some (t : tree) (k : path) :
  Fs.is_file t k = true → is_Some (t !! k).
Proof.
  intros (c & n & Hk)%is_file_lookup. destruct k; [done|].
  simpl in Hk. by rewrite Hk.
Qed.

Lemma arquivos_em_ext (R1 R2 : path → bool) (t : tree) :
  (∀ k, is_Some (t !! k) → R1 k = R2 k) →
  arquivos_em R1 t ≡ₚ arquivos_em R2 t.
Proof.
  intros Hext. apply NoDup_Permutation; try apply NoDup_arquivos_em.
  intros k. rewrite !elem_of_arquivos_em.
  split; intros [Hf HR]; (split; [done|]);
    [rewrite <-Hext|rewrite Hext]; auto using is_file_Some.
Qed.

Lemma arquivos_em_none (R : path → bool) (t : tree) :
  (∀ k, is_Some (t !! k) → R k = false) → arquivos_em R t = [].
Proof.
  intros HR. destruct (arquivos_em R t) as [|k l] eqn:Hl; [done|].
  assert (k ∈ arquivos_em R t) as [Hf Hk]%elem_of_arquivos_em
    by (rewrite Hl; left).
  rewrite HR in Hk by by apply is_file_Some. done.
Qed.

Lemma medida_union (R1 R2 : path → bool) (t : tree) :
  (∀ k, R1 k = true → R2 k = true → False) →
  contagem (λ k, R1 k || R2 k) t = contagem R1 t + contagem R2 t
  ∧ tamanho (λ k, R1 k || R2 k) t = tamanho R1 t + tamanho R2 t.
Proof.
  intros Hd. pose proof (arquivos_em_union R1 R2 t Hd) as Hp.
  unfold contagem. split.
  - rewrite Hp, length_app. lia.
  - change (soma_tamanhos t (arquivos_em (λ k, R1 k || R2 k) t)
            = soma_tamanhos t (arquivos_em R1 t)
              + soma_tamanhos t (arquivos_em R2 t)).
    by rewrite (soma_tamanhos_perm _ _ _ Hp), soma_tamanhos_app.
Qed.

Lemma medida_agree (R : path → bool) (t1 t2 : tree) :
  (∀ k, R k = true → t1 !! k = t2 !! k) →
  contagem R t1 = contagem R t2 ∧ tamanho R t1 = tamanho R t2.
Proof.
  intros Hag. pose proof (arquivos_em_agree R t1 t2 Hag) as Hp.
  unfold contagem. split; [by rewrite Hp|].
  change (soma_tamanhos t1 (arquivos_em R t1)
          = soma_tamanhos t2 (arquivos_em R t2)).
  rewrite (soma_tamanhos_perm _ _ _ Hp). apply soma_tamanhos_ext.
  intros k [_ Hk]%elem_of_arquivos_em. by apply Hag.
Qed.

Lemma medida_ext (R1 R2 : path → bool) (t : tree) :
  (∀ k, is_Some (t !! k) → R1 k = R2 k) →
  contagem R1 t = contagem R2 t ∧ tamanho R1 t = tamanho R2 t.
Proof.
  intros Hext. pose proof (arquivos_em_ext R1 R2 t Hext) as Hp.
  unfold contagem. split; [by rewrite Hp|].
  change (soma_tamanhos t (arquivos_em R1 t)
          = soma_tamanhos t (arquivos_em R2 t)).
  by rewrite (soma_tamanhos_perm _ _ _ Hp).
Qed.

Lemma medida_none (R : path → bool) (t : tree) :
  (∀ k, is_Some (t !! k) → R k = false) →
  contagem R t = 0 ∧ tamanho R t = 0.
Proof.
  intros HR. unfold contagem, tamanho. by rewrite arquivos_em_none.
Qed.

Lemma sob_algum_true (cs : list path) (k : path) :
  sob_algum cs k = true ↔ ∃ c, c ∈ cs ∧ c `prefix_of` k.
Proof.
  unfold sob_algum, sob. rewrite existsb_exists. split.
  - intros (c & Hc%list_elem_of_In & Hp%bool_decide_eq_true). eauto.
  - intros (c & Hc & Hp). exists c. split; [by apply list_elem_of_In|].
    by apply bool_decide_eq_true.
Qed.

(** ** The loops of the retention walk *)

(** A loop over entries of one directory that clears the subtree of each
    clears the subtrees of all of them. *)
Lemma limpar_loop (V : path → bool) (body : Z * Z → path → io (Z * Z))
    (p : path) (cs : list path) :
  (∀ k k', V k = true → k `prefix_of` k' → V k' = true) →
  NoDup cs →
  (∀ c, c ∈ cs → ∃ n, c = p ++ [n]) →
  (∀ c, c ∈ cs → limpa_subarvore V body c) →
  ∀ (acc : Z * Z) (w : world),
    wf_tree (fs w) →
    wp (for_ cs acc body)
       (λ w' acc',
          fs w' = sem (λ k, sob_algum cs k && V k) (fs w)
          ∧ acc' = (acc.1 + contagem (λ k, sob_algum cs k && V k) (fs w),
                    acc.2 + tamanho (λ k, sob_algum cs k && V k) (fs w)))
       (λ _ _, True) w.
Proof.
  intros Hup Hnd Hcs Hbody. induction cs as [|c cs IH]; intros acc w Hwf.
  - simpl. apply wp_ret. unfold sob_algum. simpl.
    rewrite sem_none by done.
    destruct (medida_none (λ _ : path, false) (fs w)) as [-> ->]; [done|].
    destruct acc. simpl. split; [done|]. f_equal; lia.
  - cbn [for_]. apply wp_bind. apply NoDup_cons in Hnd as [Hc Hnd].
    eapply wp_mono; [apply (Hbody c); [by left|done]| |done].
    intros w1 acc1 [Hfs1 ->].
    assert (wf_tree (fs w1)) as Hwf1.
    { rewrite Hfs1. apply wf_tree_sem; [|done].
      intros k k' [Hs HV]%andb_true_iff Hk. apply andb_true_iff. split.
      - unfold sob in *. apply bool_decide_eq_true.
        apply bool_decide_eq_true in Hs. by etrans.
      - by eapply Hup. }
    eapply wp_mono; [apply IH; [done| | |done]| |done].
    + intros c' Hc'. apply Hcs. by right.
    + intros c' Hc'. apply Hbody. by right.
    + intros w2 acc2 [Hfs2 ->].
      assert (∀ k, sob c k = true → sob_algum cs k = true → False) as Hdisj.
      { intros k Hk (c' & Hc' & Hp)%sob_algum_true.
        apply bool_decide_eq_true in Hk.
        destruct (Hcs c) as [n ->]; [by left|].
        destruct (Hcs c') as [n' ->]; [by right|].
        rewrite (prefix_snoc_inj _ _ _ _ Hk Hp) in Hc. done. }
      destruct (medida_agree (λ k, sob_algum cs k && V k) (fs w1) (fs w))
        as [Hc1 Ht1].
      { intros k [Hs HV]%andb_true_iff. rewrite Hfs1, sem_lookup.
        destruct (sob c k) eqn:Hck; [|done]. destruct (Hdisj k Hck Hs). }
      destruct (medida_union (λ k, sob c k && V k)
                  (λ k, sob_algum cs k && V k) (fs w)) as [Hc2 Ht2].
      { intros k [Hs _]%andb_true_iff [Hs' _]%andb_true_iff. eauto. }
      destruct (medida_ext (λ k, sob_algum (c :: cs) k && V k)
                  (λ k, sob c k && V k || sob_algum cs k && V k) (fs w))
        as [Hc3 Ht3].
      { intros k _. unfold sob_algum. simpl.
        by destruct (sob c k), (existsb _ cs), (V k). }
      split.
      * rewrite Hfs2, Hfs1, sem_sem. apply sem_ext. intros k _.
        unfold sob_algum. simpl.
        by destruct (sob c k), (existsb _ cs), (V k).
      * cbn [fst snd]. rewrite Hc1, Ht1, Hc3, Ht3, Hc2, Ht2. f_equal; lia.
Qed.

(** ** The retention walk, level by level *)

Lemma numero_da_pasta_run (p : path) (n : string) (w : world) :
  PurePath.is_root n = false →
  numero_da_pasta (p ++ [n]) w = (w, numero n).
Proof.
  intros Hr. unfold numero_da_pasta, numero. rewrite name_snoc by done.
  rewrite run_bind. unfold lift. by destruct (split_eq_1 n).
Qed.

Lemma is_root_startswith (s n : string) :
  PyStr.startswith s "/" = false → PyStr.startswith s "//" = false →
  PyStr.startswith s n = true → PurePath.is_root n = false.
Proof.
  intros H1 H2 Hn. destruct (PurePath.is_root n) eqn:Hr; [|done].
  apply orb_true_iff in Hr as [->%bool_decide_eq_true| ->%bool_decide_eq_true];
    congruence.
Qed.

Lemma name_matches (s : string) (p : path) (n : string) :
  PyStr.startswith s "" = false →
  PyStr.startswith s "/" = false → PyStr.startswith s "//" = false →
  Fs.matches (Fs.Prefix s) (PurePath.name (p ++ [n])) = true ↔
  PyStr.startswith s n = true.
Proof.
  intros H0 H1 H2. unfold PurePath.name. rewrite last_snoc.
  destruct (PurePath.is_root n) eqn:Hr; [|done]. cbn [Fs.matches].
  rewrite H0. split; [done|]. intros Hn.
  by rewrite (is_root_startswith s n) in Hr.
Qed.

Lemma vencido_below (zona_raw : path) (corte : date) (e a m d : string)
    (rest : list string) :
  vencido zona_raw corte (zona_raw ++ e :: a :: m :: d :: rest)
  = dia_velho corte a m d.
Proof.
  unfold vencido. rewrite bool_decide_true by by eexists.
  by rewrite drop_app_length.
Qed.

Lemma vencido_inv (zona_raw : path) (corte : date) (k : path) :
  vencido zona_raw corte k = true →
  ∃ e a m d rest, k = zona_raw ++ e :: a :: m :: d :: rest
                  ∧ dia_velho corte a m d = true.
Proof.
  unfold vencido. intros [[l ->]%bool_decide_eq_true Hl]%andb_true_iff.
  rewrite drop_app_length in Hl.
  destruct l as [|e [|a [|m [|d rest]]]]; try done. by eexists _, _, _, _, _.
Qed.

Lemma vencido_up (zona_raw : path) (corte : date) (k k' : path) :
  vencido zona_raw corte k = true → k `prefix_of` k' →
  vencido zona_raw corte k' = true.
Proof.
  intros (e & a & m & d & rest & -> & Hv)%vencido_inv [l ->].
  rewrite <-app_assoc. cbn [app]. by rewrite vencido_below.
Qed.

(** The entries a glob finds in a directory cover what is to be removed
    below it, when the names of what is to be removed match. *)
Lemma glob_cobre (V : path → bool) (s : string) (t : tree) (p : path) :
  wf_tree t →
  (∀ k, V k = true → p `prefix_of` k →
        ∃ n rest, k = p ++ n :: rest
                  ∧ Fs.matches (Fs.Prefix s) (PurePath.name (p ++ [n])) = true) →
  ∀ k, is_Some (t !! k) →
       sob_algum (Fs.glob (Fs.Prefix s) t p) k && V k = sob p k && V k.
Proof.
  intros Hwf HV k Hk. destruct (V k) eqn:HVk; [|by rewrite !andb_false_r].
  rewrite !andb_true_r. apply eq_true_iff_eq.
  rewrite sob_algum_true. unfold sob. rewrite bool_decide_eq_true. split.
  - intros (c & (_ & _ & n & -> & _)%elem_of_glob & Hp).
    etrans; [|done]. by eexists.
  - intros Hp. destruct (HV k HVk Hp) as (n & rest & -> & Hm).
    exists (p ++ [n]). split; [|by exists rest; rewrite <-app_assoc].
    apply elem_of_glob. split.
    { unfold Fs.is_dir. by rewrite (wf_tree_above t p (n :: rest)). }
    split; [done|]. exists n. split; [done|].
    destruct rest as [|x rest]; [done|].
    assert (Fs.lookup t (p ++ [n]) = Some Dir) as Hl.
    { apply (wf_tree_above t _ (x :: rest)); [done..|].
      by rewrite <-app_assoc. }
    destruct (p ++ [n]) eqn:Hpn; [by destruct p|].
    cbn [Fs.lookup] in Hl. by rewrite Hl.
Qed.

Lemma children_cobre (V : path → bool) (t : tree) (p : path) :
  wf_tree t →
  (∀ k, V k = true → ∃ n rest, k = p ++ n :: rest) →
  ∀ k, is_Some (t !! k) →
       sob_algum (Fs.children t p) k && V k = V k.
Proof.
  intros Hwf HV k Hk. destruct (V k) eqn:HVk; [|by rewrite !andb_false_r].
  rewrite !andb_true_r. apply sob_algum_true.
  destruct (HV k HVk) as (n & rest & ->).
  exists (p ++ [n]). split; [|by exists rest; rewrite <-app_assoc].
  apply elem_of_children. exists n. split; [done|].
  destruct rest as [|x rest]; [done|].
  assert (Fs.lookup t (p ++ [n]) = Some Dir) as Hl.
  { apply (wf_tree_above t _ (x :: rest)); [done..|].
    by rewrite <-app_assoc. }
  destruct (p ++ [n]) eqn:Hpn; [by destruct p|].
    cbn [Fs.lookup] in Hl. by rewrite Hl.
Qed.

Section retention.
Variable zona_raw : path.
Variable corte : date.

Lemma sob_dia (e a m d : string) (k : path) :
  sob (zona_raw ++ [e; a; m; d]) k = true →
  vencido zona_raw corte k = dia_velho corte a m d.
Proof.
  intros [l ->]%bool_decide_eq_true. rewrite <-app_assoc. cbn [app].
  apply vencido_below.
Qed.

Lemma nada_vencido (e a m d : string) (t : tree) (acc : Z * Z) :
  dia_velho corte a m d = false →
  t = sem (λ k, sob (zona_raw ++ [e; a; m; d]) k && vencido zona_raw corte k) t
  ∧ acc
    = (acc.1 + contagem (λ k, sob (zona_raw ++ [e; a; m; d]) k
                              && vencido zona_raw corte k) t,
       acc.2 + tamanho (λ k, sob (zona_raw ++ [e; a; m; d]) k
                             && vencido zona_raw corte k) t).
Proof.
  intros Hb.
  assert (∀ k, is_Some (t !! k) →
               sob (zona_raw ++ [e; a; m; d]) k && vencido zona_raw corte k
               = false) as Hn.
  { intros k _. destruct (sob _ k) eqn:Hs; [|done].
    by rewrite (sob_dia _ _ _ _ _ Hs). }
  rewrite sem_none by done. destruct (medida_none _ t Hn) as [-> ->].
  destruct acc. split; [done|]. cbn [fst snd]. f_equal; lia.
Qed.

Lemma tudo_vencido (e a m d : string) (t : tree) :
  dia_velho corte a m d = true →
  Fs.lookup t (zona_raw ++ [e; a; m; d]) = Some Dir →
  Fs.remove_subtree (zona_raw ++ [e; a; m; d]) t
  = sem (λ k, sob (zona_raw ++ [e; a; m; d]) k && vencido zona_raw corte k) t
  ∧ count_files Fs.Any t (zona_raw ++ [e; a; m; d])
    = contagem (λ k, sob (zona_raw ++ [e; a; m; d]) k
                     && vencido zona_raw corte k) t
  ∧ total_size Fs.Any t (zona_raw ++ [e; a; m; d])
    = tamanho (λ k, sob (zona_raw ++ [e; a; m; d]) k
                    && vencido zona_raw corte k) t.
Proof.
  intros Hb Hd.
  assert (∀ k, sob (zona_raw ++ [e; a; m; d]) k && vencido zona_raw corte k
               = sob (zona_raw ++ [e; a; m; d]) k) as Hs.
  { intros k. destruct (sob _ k) eqn:Hk; [|done].
    by rewrite (sob_dia _ _ _ _ _ Hk). }
  split.
  { rewrite remove_subtree_sem. apply sem_ext. intros k _. by rewrite Hs. }
  assert (filter (λ k, Fs.is_file t k = true)
            (Fs.rglob Fs.Any t (zona_raw ++ [e; a; m; d]))
          = arquivos_em (λ k, sob (zona_raw ++ [e; a; m; d]) k
                              && vencido zona_raw corte k) t) as Hl.
  { unfold Fs.rglob, Fs.is_dir. rewrite Hd.
    unfold Fs.descendants, arquivos_em. rewrite !list_filter_filter.
    apply list_filter_iff. intros k. rewrite Hs. unfold sob.
    rewrite bool_decide_eq_true. cbn [Fs.matches]. split; [tauto|].
    intros [Hf Hp]. repeat split; try done. intros ->.
    unfold Fs.is_file in Hf. by rewrite Hd in Hf. }
  unfold count_files, total_size, contagem, tamanho. by rewrite Hl.
Qed.

Lemma limpar_dia_spec (e a m d : string) (ano mes : Z) :
  numero a = inr ano → numero m = inr mes →
  PyStr.startswith "ano=" a = true → PyStr.startswith "mes=" m = true →
  PyStr.startswith "dia=" d = true →
  limpa_subarvore (vencido zona_raw corte) (limpar_dia corte ano mes)
    (zona_raw ++ [e; a; m; d]).
Proof.
  intros Ha Hm Hsa Hsm Hsd acc w Hwf.
  assert (dia_velho corte a m d
          = match numero d with
            | inr dia => match date_new ano mes dia with
                         | inr dt => date_lt dt corte
                         | inl _ => false
                         end
            | inl _ => false
            end) as Hb.
  { unfold dia_velho. rewrite Hsa, Hsm, Hsd, Ha, Hm.
    by destruct (numero d). }
  pose proof (numero_da_pasta_run (zona_raw ++ [e; a; m]) d w) as Hrun.
  rewrite <-app_assoc in Hrun. cbn [app] in Hrun.
  unfold wp, limpar_dia. rewrite run_bind, Hrun
    by by apply (is_root_startswith "dia=").
  destruct (numero d) as [ex|dia]; [done|].
  unfold try_except_ValueError, try_except. rewrite run_bind.
  unfold lift at 1. destruct (date_new ano mes dia) as [ex|dt] eqn:Hdn.
  - destruct (is_ValueError ex); [|done]. by apply nada_vencido.
  - destruct (date_lt dt corte) eqn:Hlt.
    + rewrite run_bind, contar_arquivos_run, run_bind.
      unfold Os.rmtree. rewrite run_bind, run_gets. unfold id.
      destruct (Fs.lookup (fs w) (zona_raw ++ [e; a; m; d]))
        as [[|c n]|] eqn:Hl; [|done|done].
      destruct (tudo_vencido e a m d (fs w)) as (H1 & H2 & H3); [done..|].
      cbn. by rewrite H1, H2, H3.
    + rewrite run_ret. by apply nada_vencido.
Qed.

Lemma dia_velho_prefixos (a m d : string) :
  dia_velho corte a m d = true →
  PyStr.startswith "ano=" a = true ∧ PyStr.startswith "mes=" m = true
  ∧ PyStr.startswith "dia=" d = true.
Proof.
  unfold dia_velho. rewrite !andb_true_iff. tauto.
Qed.

Lemma limpar_mes_spec (e a m : string) (ano : Z) :
  numero a = inr ano →
  PyStr.startswith "ano=" a = true → PyStr.startswith "mes=" m = true →
  limpa_subarvore (vencido zona_raw corte) (limpar_mes corte ano)
    (zona_raw ++ [e; a; m]).
Proof.
  intros Ha Hsa Hsm acc w Hwf.
  pose proof (numero_da_pasta_run (zona_raw ++ [e; a]) m w) as Hrun.
  rewrite <-app_assoc in Hrun. cbn [app] in Hrun.
  unfold limpar_mes. apply wp_bind. unfold wp at 1.
  rewrite Hrun by by apply (is_root_startswith "mes=").
  destruct (numero m) as [ex|mes] eqn:Hm; [done|].
  apply wp_bind, wp_gets.
  eapply wp_mono;
    [apply (limpar_loop (vencido zona_raw corte) _ (zona_raw ++ [e; a; m]))
    | |done].
  - apply vencido_up.
  - apply NoDup_glob.
  - intros c (_ & _ & n & -> & _)%elem_of_glob. eauto.
  - intros c (_ & Hmt & n & -> & _)%elem_of_glob.
    apply name_matches in Hmt; [|done..].
    rewrite <-app_assoc. cbn [app]. by apply limpar_dia_spec.
  - done.
  - intros w' acc' [-> ->].
    pose proof (glob_cobre (vencido zona_raw corte) "dia=" (fs w)
                  (zona_raw ++ [e; a; m]) Hwf) as Hc.
    assert (∀ k, is_Some (fs w !! k) →
                 sob_algum (Fs.glob (Fs.Prefix "dia=") (fs w)
                              (zona_raw ++ [e; a; m])) k
                 && vencido zona_raw corte k
                 = sob (zona_raw ++ [e; a; m]) k && vencido zona_raw corte k)
      as Hext.
    { apply Hc.
      intros k (e' & a' & m' & d & rest & -> & Hv)%vencido_inv [l Hl].
      rewrite <-app_assoc in Hl. apply app_inv_head in Hl.
      cbn [app] in Hl. simplify_eq. exists d, rest.
      split; [by rewrite <-app_assoc|].
      apply name_matches; [done..|]. by destruct (dia_velho_prefixos _ _ _ Hv) as (? & ? & ?). }
    split; [by apply sem_ext|].
    by destruct (medida_ext _ _ (fs w) Hext) as [-> ->].
Qed.

Lemma limpar_ano_spec (e a : string) :
  PyStr.startswith "ano=" a = true →
  limpa_subarvore (vencido zona_raw corte) (limpar_ano corte)
    (zona_raw ++ [e; a]).
Proof.
  intros Hsa acc w Hwf.
  pose proof (numero_da_pasta_run (zona_raw ++ [e]) a w) as Hrun.
  rewrite <-app_assoc in Hrun. cbn [app] in Hrun.
  unfold limpar_ano. apply wp_bind. unfold wp at 1.
  rewrite Hrun by by apply (is_root_startswith "ano=").
  destruct (numero a) as [ex|ano] eqn:Ha; [done|].
  apply wp_bind, wp_gets.
  eapply wp_mono;
    [apply (limpar_loop (vencido zona_raw corte) _ (zona_raw ++ [e; a]))
    | |done].
  - apply vencido_up.
  - apply NoDup_glob.
  - intros c (_ & _ & n & -> & _)%elem_of_glob. eauto.
  - intros c (_ & Hmt & n & -> & _)%elem_of_glob.
    apply name_matches in Hmt; [|done..].
    rewrite <-app_assoc. cbn [app]. by apply limpar_mes_spec.
  - done.
  - intros w' acc' [-> ->].
    pose proof (glob_cobre (vencido zona_raw corte) "mes=" (fs w)
                  (zona_raw ++ [e; a]) Hwf) as Hc.
    assert (∀ k, is_Some (fs w !! k) →
                 sob_algum (Fs.glob (Fs.Prefix "mes=") (fs w)
                              (zona_raw ++ [e; a])) k
                 && vencido zona_raw corte k
                 = sob (zona_raw ++ [e; a]) k && vencido zona_raw corte k)
      as Hext.
    { apply Hc.
      intros k (e' & a' & m & d & rest & -> & Hv)%vencido_inv [l Hl].
      rewrite <-app_assoc in Hl. apply app_inv_head in Hl.
      cbn [app] in Hl. simplify_eq. exists m, (d :: rest).
      split; [by rewrite <-app_assoc|].
      apply name_matches; [done..|]. by destruct (dia_velho_prefixos _ _ _ Hv) as (? & ? & ?). }
    split; [by apply sem_ext|].
    by destruct (medida_ext _ _ (fs w) Hext) as [-> ->].
Qed.

Lemma limpar_endpoint_spec (e : string) :
  limpa_subarvore (vencido zona_raw corte) (limpar_endpoint corte)
    (zona_raw ++ [e]).
Proof.
  intros acc w Hwf.
  assert (wp (anos ← gets (λ t, Fs.glob (Fs.Prefix "ano=") t (zona_raw ++ [e]));
              for_ anos acc (limpar_ano corte))
            (λ w' acc',
               fs w' = sem (λ k, sob (zona_raw ++ [e]) k
                                 && vencido zona_raw corte k) (fs w)
               ∧ acc' = (acc.1 + contagem (λ k, sob (zona_raw ++ [e]) k
                                              && vencido zona_raw corte k)
                                   (fs w),
                         acc.2 + tamanho (λ k, sob (zona_raw ++ [e]) k
                                             && vencido zona_raw corte k)
                                   (fs w)))
            (λ _ _, True) w) as Hanos.
  { apply wp_bind, wp_gets.
    eapply wp_mono;
      [apply (limpar_loop (vencido zona_raw corte) _ (zona_raw ++ [e]))
      | |done].
    - apply vencido_up.
    - apply NoDup_glob.
    - intros c (_ & _ & n & -> & _)%elem_of_glob. eauto.
    - intros c (_ & Hmt & n & -> & _)%elem_of_glob.
      apply name_matches in Hmt; [|done..].
      rewrite <-app_assoc. cbn [app]. by apply limpar_ano_spec.
    - done.
    - intros w' acc' [-> ->].
      pose proof (glob_cobre (vencido zona_raw corte) "ano=" (fs w)
                    (zona_raw ++ [e]) Hwf) as Hc.
      assert (∀ k, is_Some (fs w !! k) →
                   sob_algum (Fs.glob (Fs.Prefix "ano=") (fs w)
                                (zona_raw ++ [e])) k
                   && vencido zona_raw corte k
                   = sob (zona_raw ++ [e]) k && vencido zona_raw corte k)
        as Hext.
      { apply Hc.
        intros k (e' & a & m & d & rest & -> & Hv)%vencido_inv [l Hl].
        rewrite <-app_assoc in Hl. apply app_inv_head in Hl.
        cbn [app] in Hl. simplify_eq. exists a, (m :: d :: rest).
        split; [by rewrite <-app_assoc|].
        apply name_matches; [done..|]. by destruct (dia_velho_prefixos _ _ _ Hv) as (? & ? & ?). }
      split; [by apply sem_ext|].
      by destruct (medida_ext _ _ (fs w) Hext) as [-> ->]. }
  unfold limpar_endpoint. apply wp_bind, wp_gets.
  destruct (Fs.is_dir (fs w) (zona_raw ++ [e])) eqn:Hd; [done|].
  unfold wp in Hanos. rewrite run_bind, run_gets in Hanos.
  unfold Fs.glob in Hanos. by rewrite Hd in Hanos.
Qed.

(** The loop over the entries of the raw zone removes what is overdue, and
    counts it. *)
Lemma limpar_zona_spec (acc : Z * Z) (w : world) :
  wf_tree (fs w) →
  wp (for_ (Fs.children (fs w) zona_raw) acc (limpar_endpoint corte))
     (λ w' acc',
        fs w' = sem (vencido zona_raw corte) (fs w)
        ∧ acc' = (acc.1 + contagem (vencido zona_raw corte) (fs w),
                  acc.2 + tamanho (vencido zona_raw corte) (fs w)))
     (λ _ _, True) w.
Proof.
  intros Hwf.
  eapply wp_mono;
    [apply (limpar_loop (vencido zona_raw corte) _ zona_raw)| |done].
  - apply vencido_up.
  - apply NoDup_children.
  - intros c (n & -> & _)%elem_of_children. eauto.
  - intros c (n & -> & _)%elem_of_children. apply limpar_endpoint_spec.
  - done.
  - intros w' acc' [-> ->].
    pose proof (children_cobre (vencido zona_raw corte) (fs w) zona_raw Hwf)
      as Hc.
    assert (∀ k, is_Some (fs w !! k) →
                 sob_algum (Fs.children (fs w) zona_raw) k
                 && vencido zona_raw corte k
                 = vencido zona_raw corte k) as Hext.
    { apply Hc. intros k (e & a & m & d & rest & -> & _)%vencido_inv.
      eauto. }
    split; [by apply sem_ext|].
    by destruct (medida_ext _ _ (fs w) Hext) as [-> ->].
Qed.

End retention.

(** What a cleanup that returns has done. *)
Lemma limpar_dados_antigos_spec (self : GerenciadorDataLake)
    (agora : datetime) (dias_retencao : Z) (w w' : world)
    (rel : relatorio_limpeza) :
  wf_tree (fs w) →
  limpar_dados_antigos self agora dias_retencao w = (w', inr rel) →
  ∃ corte,
    date_add_days (dt_date agora) (- dias_retencao) = inr corte
    ∧ fs w' = sem (vencido (caminho_base self // estrutura_pastas raw) corte)
                (fs w)
    ∧ arquivos_removidos rel
      = contagem (vencido (caminho_base self // estrutura_pastas raw) corte)
          (fs w)
    ∧ tamanho_liberado_mb rel
      = round_mb
          (tamanho (vencido (caminho_base self // estrutura_pastas raw) corte)
             (fs w))
    ∧ data_corte rel = date_isoformat corte.
Proof.
  intros Hwf Hrun. unfold limpar_dados_antigos in Hrun.
  rewrite run_bind in Hrun. unfold lift at 1, timedelta_days in Hrun.
  destruct ((-999999999 <=? dias_retencao) && (dias_retencao <=? 999999999));
    [|done].
  rewrite run_bind in Hrun. unfold lift at 1 in Hrun.
  destruct (date_add_days (dt_date agora) (- dias_retencao))
    as [ex|corte] eqn:Hcorte; [done|].
  exists corte. split; [done|].
  rewrite run_bind in Hrun.
  pose proof (iterdir_spec (caminho_base self // estrutura_pastas raw) w)
    as Hi.
  unfold wp in Hi.
  destruct (Os.iterdir (caminho_base self // estrutura_pastas raw) w)
    as [w1 [ex|l]]; [done|].
  destruct Hi as [-> ->]. rewrite run_bind in Hrun.
  pose proof (limpar_zona_spec (caminho_base self // estrutura_pastas raw)
                corte (0, 0) w Hwf) as Hl.
  unfold wp in Hl.
  destruct (for_ _ (0, 0) (limpar_endpoint corte) w) as [w2 [ex|[n s]]];
    [done|].
  destruct Hl as [Hfs Hacc]. rewrite run_ret in Hrun.
  injection Hrun as <- <-. injection Hacc as -> ->. by cbn.
Qed.

(** ** Evaluating the examples *)

(** A run that evaluates to a result is the pair of its final world and
    that result. *)
Lemma run_eq {A} (r : world * (exn + A)) (x : exn + A) :
  r.2 = x → r = (r.1, x).
Proof. destruct r as [w y]. by intros <-. Qed.

Lemma wf_tree_decide (t : tree) : bool_decide (wf_tree t) = true → wf_tree t.
Proof. apply bool_decide_eq_true. Qed.

Lemma NoDup_decide (l : list string) : bool_decide (NoDup l) = true → NoDup l.
Proof. apply bool_decide_eq_true. Qed.

(** ** What is overdue lies in the raw zone *)

Lemma zona_plain (z : zona) : plain_name (estrutura_pastas z).
Proof. by destruct z. Qed.

(** What is overdue lies in the raw zone. *)
Lemma vencido_fora (base : path) (corte : date) (z : zona) (k : path) :
  z ≠ raw → (base // estrutura_pastas z) `prefix_of` k →
  vencido (base // estrutura_pastas raw) corte k = false.
Proof.
  intros Hz Hk. destruct (vencido _ corte k) eqn:Hv; [|done].
  apply vencido_inv in Hv as (e & a & m & d & rest & Heq & _).
  rewrite !div_plain in * by apply zona_plain.
  assert ((base ++ [estrutura_pastas raw]) `prefix_of` k) as Hraw.
  { rewrite Heq. by eexists. }
  destruct Hz. symmetry. apply estrutura_pastas_inj.
  by apply (prefix_snoc_inj base k).
Qed.

(** ** Where directories are created *)

Lemma dirs_no_caminho_refl (p : path) (t : tree) : dirs_no_caminho p t t.
Proof. intros k. by left. Qed.

Lemma dirs_no_caminho_trans (p : path) (t1 t2 t3 : tree) :
  dirs_no_caminho p t1 t2 → dirs_no_caminho p t2 t3 →
  dirs_no_caminho p t1 t3.
Proof.
  intros H12 H23 k.
  destruct (H12 k) as [E12|(N1 & D2 & P2)], (H23 k) as [E23|(N2 & D3 & P3)].
  - left. congruence.
  - right. split; [congruence|done].
  - right. split; [done|]. split; [congruence|done].
  - congruence.
Qed.

Lemma dirs_no_caminho_prefix (p q : path) (t t' : tree) :
  p `prefix_of` q → dirs_no_caminho p t t' → dirs_no_caminho q t t'.
Proof.
  intros Hpq Hd k. destruct (Hd k) as [?|(? & ? & ?)]; [by left|].
  right. split; [done|]. split; [done|]. by etrans.
Qed.

Lemma dirs_no_caminho_grows (p : path) (t t' : tree) :
  dirs_no_caminho p t t' → grows_dirs t t'.
Proof.
  intros Hd k. destruct (Hd k) as [?|(? & ? & ?)]; [by left|by right].
Qed.

Lemma mkdir_within (p : path) (w : world) :
  wp (Os.mkdir p)
     (λ w' _, log w' = log w ∧ dirs_no_caminho p (fs w) (fs w'))
     (λ w' _, w' = w) w.
Proof.
  unfold Os.mkdir. apply wp_bind, wp_gets. unfold id.
  destruct (Fs.parent_error (fs w) p) as [e|] eqn:Hpar; [by apply wp_raise|].
  destruct (Fs.exists_ (fs w) p) eqn:Hex; [by apply wp_raise|].
  apply wp_put_fs. simpl. apply exists_false_lookup in Hex.
  assert (p ≠ []) as Hne by (by intros ->).
  rewrite lookup_nonempty in Hex by done.
  split; [done|]. intros k. rewrite lookup_insert. case_decide; subst; auto.
Qed.

Lemma mkdir_flat_within (exist_ok : bool) (p : path) (w : world) :
  wp (Os.mkdir_flat exist_ok p)
     (λ w' _, log w' = log w ∧ dirs_no_caminho p (fs w) (fs w'))
     (λ w' _, w' = w) w.
Proof.
  unfold Os.mkdir_flat. apply wp_try.
  eapply wp_mono; [apply mkdir_within|done|]. simpl. intros w' e ->.
  assert (wp (d ← gets (λ t, Fs.is_dir t p);
              if exist_ok && d then mret () else raise e)
            (λ w' _, log w' = log w ∧ dirs_no_caminho p (fs w) (fs w'))
            (λ w' _, w' = w) w) as Hother.
  { apply wp_bind, wp_gets.
    destruct exist_ok, (Fs.is_dir (fs w) p) eqn:Hd; simpl;
      try by apply wp_raise.
    apply wp_ret. split; [done|apply dirs_no_caminho_refl]. }
  destruct e; try exact Hother. by apply wp_raise.
Qed.

Lemma mkdir_parents_within (exist_ok : bool) (rp : list string) (w : world) :
  wp (Os.mkdir_parents exist_ok rp)
     (λ w' _, log w' = log w ∧ dirs_no_caminho (rev rp) (fs w) (fs w'))
     (λ w' _, log w' = log w ∧ dirs_no_caminho (rev rp) (fs w) (fs w')) w.
Proof.
  revert exist_ok w. induction rp as [|n rp IH]; intros exist_ok w.
  - simpl. apply wp_try.
    eapply wp_mono; [apply (mkdir_within [])|done|]. simpl. intros w' e ->.
    assert (wp (d ← gets (λ t, Fs.is_dir t []);
                if exist_ok && d then mret () else raise e)
              (λ w' _, log w' = log w ∧ dirs_no_caminho [] (fs w) (fs w'))
              (λ w' _, log w' = log w ∧ dirs_no_caminho [] (fs w) (fs w'))
              w) as Hother.
    { apply wp_bind, wp_gets. destruct exist_ok; simpl.
      - apply wp_ret. split; [done|apply dirs_no_caminho_refl].
      - apply wp_raise. split; [done|apply dirs_no_caminho_refl]. }
    destruct e; try exact Hother.
    apply wp_raise. split; [done|apply dirs_no_caminho_refl].
  - cbn [Os.mkdir_parents]. apply wp_try.
    eapply wp_mono; [apply mkdir_within|done|]. simpl. intros w' e ->.
    assert (wp (d ← gets (λ t, Fs.is_dir t (rev rp ++ [n]));
                if exist_ok && d then mret () else raise e)
              (λ w' _, log w' = log w
                       ∧ dirs_no_caminho (rev rp ++ [n]) (fs w) (fs w'))
              (λ w' _, log w' = log w
                       ∧ dirs_no_caminho (rev rp ++ [n]) (fs w) (fs w'))
              w) as Hother.
    { apply wp_bind, wp_gets.
      destruct exist_ok, (Fs.is_dir (fs w) (rev rp ++ [n])) eqn:Hd; simpl;
        try (apply wp_raise; split; [done|apply dirs_no_caminho_refl]).
      apply wp_ret. split; [done|apply dirs_no_caminho_refl]. }
    destruct e; try exact Hother.
    apply wp_bind. eapply wp_mono; [apply IH| |].
    + simpl. intros w1 _ [Hl1 Hd1].
      eapply wp_mono; [apply mkdir_flat_within| |].
      * simpl. intros w2 _ [Hl2 Hd2]. split; [congruence|].
        eapply dirs_no_caminho_trans; [|done].
        eapply dirs_no_caminho_prefix; [|done]. by eexists.
      * simpl. intros w2 _ ->. split; [done|].
        eapply dirs_no_caminho_prefix; [|done]. by eexists.
    + simpl. intros w1 _ [Hl1 Hd1]. split; [done|].
      eapply dirs_no_caminho_prefix; [|done]. by eexists.
Qed.

Lemma Path_mkdir_within (parents exist_ok : bool) (p : path) (w : world) :
  wp (Os.Path_mkdir parents exist_ok p)
     (λ w' _, log w' = log w ∧ dirs_no_caminho p (fs w) (fs w'))
     (λ w' _, log w' = log w ∧ dirs_no_caminho p (fs w) (fs w')) w.
Proof.
  unfold Os.Path_mkdir. destruct parents.
  - eapply wp_mono; [apply mkdir_parents_within| |];
      simpl; intros w' _; by rewrite rev_involutive.
  - eapply wp_mono; [apply mkdir_flat_within|done|].
    simpl. intros w' _ ->. split; [done|apply dirs_no_caminho_refl].
Qed.

(** ** What a store call changes *)

Section store_effect.
Context `{Runtime}.
Variable self : GerenciadorDataLake.

Lemma gravar_bruto_within agora endpoint dados data_negocio id_loja extra w :
  let arq := caminho_arquivo_de self agora endpoint data_negocio id_loja in
  let meta := com_adicionais
                (metadados_de agora endpoint dados data_negocio id_loja)
                extra in
  wp (gravar_bruto self agora endpoint dados data_negocio id_loja extra)
     (λ w' r, r = (arq, meta) ∧ ∃ w1 n,
        log w1 = log w
        ∧ dirs_no_caminho
            (caminho_particao_de self endpoint data_negocio id_loja)
            (fs w) (fs w1)
        ∧ w' = {| fs := <[arq := File (Document (registro_gravado meta dados))
                                   n]> (fs w1);
                  log := log w1 |})
     (λ _ _, True) w.
Proof.
  intros arq meta. unfold gravar_bruto. apply wp_bind.
  eapply wp_mono; [apply Path_mkdir_within| |done].
  simpl. intros w1 _ [Hl Hd].
  apply wp_bind. unfold _calcular_hash, json_dumps.
  destruct (Json.serializable dados); [|done]. simpl.
  apply wp_lift, wp_bind, wp_lift, wp_bind.
  eapply wp_mono; [apply json_dump_to_spec| |done].
  simpl. intros w2 _ [(n & -> & _ & _) _]. apply wp_ret.
  split; [done|]. by exists w1, n.
Qed.

Lemma _salvar_metadados_within endpoint metadados caminho_arquivo w :
  wp (_salvar_metadados self endpoint metadados caminho_arquivo)
     (λ w' _, ∃ w1 n,
        log w1 = log w
        ∧ dirs_no_caminho
            (caminho_base self // estrutura_pastas metadata // endpoint)
            (fs w) (fs w1)
        ∧ w' = {| fs := <[caminho_sidecar_de self endpoint caminho_arquivo
                          := File (Document
                                     (JObj (metadados_sidecar metadados
                                              caminho_arquivo))) n]>
                          (fs w1);
                  log := log w1 |})
     (λ _ _, True) w.
Proof.
  unfold _salvar_metadados. apply wp_bind.
  eapply wp_mono; [apply Path_mkdir_within| |done].
  simpl. intros w1 _ [Hl Hd].
  eapply wp_mono; [apply json_dump_to_spec| |done].
  simpl. intros w2 _ [(n & -> & _ & _) _]. by exists w1, n.
Qed.

(** The whole effect of a call that returns. *)
Lemma armazenar_efeito agora endpoint dados data_negocio id_loja extra
    (w w2 : world) (s : string) :
  has_slash endpoint = false →
  armazenar_resposta_api self agora endpoint dados data_negocio id_loja
    extra w = (w2, inr s) →
  let arq := caminho_arquivo_de self agora endpoint data_negocio id_loja in
  let meta := com_adicionais
                (metadados_de agora endpoint dados data_negocio id_loja)
                extra in
  let side := caminho_sidecar_de self endpoint arq in
  s = PurePath.str arq
  ∧ log w2 = log w
  ∧ (∃ n, fs w2 !! arq
          = Some (File (Document (registro_gravado meta dados)) n))
  ∧ (∃ n, fs w2 !! side
          = Some (File (Document (JObj (metadados_sidecar meta arq))) n))
  ∧ (∀ k, k ≠ arq → k ≠ side →
          fs w2 !! k = fs w !! k
          ∨ (fs w !! k = None ∧ fs w2 !! k = Some Dir
             ∧ (k `prefix_of`
                  caminho_particao_de self endpoint data_negocio id_loja
                ∨ k `prefix_of`
                    caminho_base self // estrutura_pastas metadata
                    // endpoint))).
Proof.
  intros He Hrun arq meta side. rewrite armazenar_run in Hrun.
  pose proof (gravar_bruto_within agora endpoint dados data_negocio
                id_loja extra w) as Hg.
  unfold wp in Hg. cbv zeta in Hg. fold arq meta in Hg.
  destruct (gravar_bruto _ _ _ _ _ _ _ w) as [wa [e|[arq' meta']]];
    [done|].
  destruct Hg as ([= -> ->] & w1 & n & Hl1 & Hd1 & ->).
  pose proof (_salvar_metadados_within endpoint meta arq
                {| fs := <[arq := File (Document (registro_gravado meta dados))
                                    n]> (fs w1);
                   log := log w1 |}) as Hs.
  unfold wp in Hs.
  destruct (_salvar_metadados _ _ _ _ _) as [wb [e|[]]]; [done|].
  injection Hrun as <- <-.
  destruct Hs as (w3 & n' & Hl3 & Hd3 & ->). simpl in *. fold side.
  assert (side ≠ arq) as Hne by by apply sidecar_is_not_the_record.
  split; [done|]. split; [congruence|]. split; [|split].
  - exists n. rewrite lookup_insert_ne by done.
    destruct (Hd3 arq) as [->|(Hnone & _)].
    + apply lookup_insert_eq.
    + by rewrite lookup_insert_eq in Hnone.
  - exists n'. apply lookup_insert_eq.
  - intros k Hk1 Hk2. rewrite lookup_insert_ne by done.
    destruct (Hd3 k) as [->|(Hnone & -> & Hpre)];
      rewrite lookup_insert_ne in * by done.
    + destruct (Hd1 k) as [->|(? & ? & ?)]; [by left|]. right. auto.
    + destruct (Hd1 k) as [Heq|(? & Hdir & ?)]; [|congruence].
      right. split; [congruence|]. auto.
Qed.

End store_effect.

(** ** Finding a record file *)

Lemma startswith_app (p s : string) : PyStr.startswith p (p +:+ s) = true.
Proof.
  unfold PyStr.startswith. induction p as [|a p IH]; [by destruct s|].
  change (String a p +:+ s) with (String a (p +:+ s)).
  rewrite prefix_cons, IH. by rewrite Ascii.eqb_refl.
Qed.

Section found.
Variable self : GerenciadorDataLake.

(** A record file in its store directory is read by the queries whose
    range holds its day, be they for its store or for all stores. *)
Lemma registro_encontrado (t : tree) (agora : datetime) (endpoint : string)
    (dados : json) (data_negocio : date) (id_loja : string)
    (meta : list (string * json)) (n : N) (d1 d2 : date)
    (filtro : option string) :
  wf_tree t →
  has_slash endpoint = false → has_slash id_loja = false →
  t !! caminho_arquivo_de self agora endpoint data_negocio id_loja
  = Some (File (Document (registro_gravado meta dados)) n) →
  toordinal d1 <= toordinal data_negocio <= toordinal d2 →
  filtro = Some id_loja ∨ filtro = None ∨ filtro = Some "" →
  ∃ m, JObj m ∈ registros_periodo t (caminho_base self) endpoint d1 d2 filtro
       ∧ Dict.get "dados" m = Some dados.
Proof.
  intros Hwf He Hi Harq Hdn Hfiltro.
  destruct (registro_de_gravado _ _ _ _ _ Harq) as (m & Hreg & Hget).
  exists m. split; [|done].
  set (loja := caminho_particao_de self endpoint data_negocio id_loja) in *.
  set (arq := caminho_arquivo_de self agora endpoint data_negocio id_loja)
    in *.
  assert (arq = loja ++ [nome_arquivo_de agora endpoint id_loja]) as Harq_eq
    by by apply caminho_arquivo_snoc.
  assert (loja = particao_dia (caminho_base self) endpoint data_negocio
                 ++ ["loja=" +:+ id_loja]) as Hloja_eq
    by by apply caminho_particao_snoc.
  assert (Fs.lookup t loja = Some Dir) as Hdir.
  { eapply wf_tree_entry_parent; [done|]. by rewrite <-Harq_eq. }
  assert (Fs.lookup t (particao_dia (caminho_base self) endpoint data_negocio)
          = Some Dir) as Hdia.
  { rewrite Hloja_eq, lookup_snoc in Hdir. by eapply wf_tree_entry_parent. }
  assert (JObj m ∈ registros_pasta t loja) as Hin.
  { unfold registros_pasta. apply list_elem_of_omap. exists arq.
    split; [|done]. apply elem_of_glob. split; [by apply is_dir_lookup|].
    split.
    - rewrite Harq_eq, name_snoc.
      + apply nome_arquivo_json.
      + apply is_root_no_slash. by apply nome_arquivo_plain.
    - eexists. split; [done|]. by rewrite Harq. }
  assert (loja ∈ Fs.glob (Fs.Prefix "loja=") t
                   (particao_dia (caminho_base self) endpoint data_negocio))
    as Hglob.
  { apply elem_of_glob. split; [by apply is_dir_lookup|]. split.
    - rewrite Hloja_eq, name_snoc.
      + apply startswith_app.
      + apply is_root_no_slash. by apply pasta_loja_plain.
    - exists ("loja=" +:+ id_loja). split; [done|].
      rewrite Hloja_eq, lookup_snoc in Hdir. by rewrite Hloja_eq, Hdir. }
  assert (loja ∈ pastas_dia t (caminho_base self) endpoint data_negocio
                   filtro) as Hloja.
  { unfold pastas_dia.
    rewrite (is_dir_exists t _ (proj2 (is_dir_lookup _ _) Hdia)).
    assert (loja = particao_dia (caminho_base self) endpoint data_negocio
                   // ("loja=" +:+ id_loja)) as Hloja_def by done.
    clearbody loja arq.
    destruct Hfiltro as [->|[->| ->]]; [|done..].
    destruct id_loja as [|a i]; [done|].
    rewrite <-Hloja_def.
    rewrite (is_dir_exists t _ (proj2 (is_dir_lookup _ _) Hdir)).
    by left. }
  unfold registros_periodo, pastas_periodo.
  apply list_elem_of_join. eexists. split; [exact Hin|].
  apply list_elem_of_fmap. exists loja. split; [done|].
  apply list_elem_of_join. eexists. split; [exact Hloja|].
  apply list_elem_of_fmap. exists data_negocio. split; [done|].
  by apply elem_of_dias_entre.
Qed.

End found.

Section others.
Context `{Runtime}.
Variable self : GerenciadorDataLake.


End others.

(** ** Creating the structure *)

Section init.
Context `{Runtime}.
Variable self : GerenciadorDataLake.

(** The partition [_criar_estrutura_api] creates for an endpoint. *)
Lemma _criar_estrutura_api_spec (agora : datetime) (caminho : path)
    (w : world) :
  wp (_criar_estrutura_api agora caminho)
     (λ w' _, only_dirs_added w w'
        ∧ ∀ e, e ∈ endpoints_api →
            Fs.is_dir (fs w') (caminho // e) = true
            ∧ Fs.is_dir (fs w')
                (caminho // e
                 // ("ano=" +:+ PyStr.fmt_d (date_year (dt_date agora)))
                 // ("mes=" +:+ PyStr.fmt_0d 2 (date_month (dt_date agora)))
                 // ("dia=" +:+ PyStr.fmt_0d 2 (date_day (dt_date agora))))
              = true)
     (λ w' _, only_dirs_added w w') w.
Proof.
  unfold _criar_estrutura_api.
  eapply wp_mono;
    [apply (wp_for (λ rest w' (_ : unit),
              only_dirs_added w w'
              ∧ ∀ e, e ∈ endpoints_api → e ∉ rest →
                  Fs.is_dir (fs w') (caminho // e) = true
                  ∧ Fs.is_dir (fs w')
                      (caminho // e
                       // ("ano=" +:+ PyStr.fmt_d (date_year (dt_date agora)))
                       // ("mes="
                           +:+ PyStr.fmt_0d 2 (date_month (dt_date agora)))
                       // ("dia="
                           +:+ PyStr.fmt_0d 2 (date_day (dt_date agora))))
                    = true)
              (λ w' _, only_dirs_added w w'))| |done].
  - split; [apply only_dirs_added_refl|]. intros e He Hn. by destruct Hn.
  - intros x rest w1 [] [Hext Hdone]. apply wp_bind.
    eapply wp_mono; [apply Path_mkdir_spec| |].
    + cbv beta. intros w2 _ [Hext2 Hd2].
      eapply wp_mono; [apply Path_mkdir_spec| |].
      * cbv beta. intros w3 _ [Hext3 Hd3].
        split; [eauto using only_dirs_added_trans|].
        intros e He Hn. destruct (decide (e = x)) as [->|Hne].
        -- split; [|done]. eauto using only_dirs_added_is_dir.
        -- destruct (Hdone e He) as [Ha Hb];
             [rewrite not_elem_of_cons; by split|].
           split; eauto using only_dirs_added_is_dir.
      * cbv beta. intros w3 _ Hext3.
        eauto using only_dirs_added_trans.
    + cbv beta. intros w2 _ Hext2. eauto using only_dirs_added_trans.
  - cbv beta. intros w' [] [Hext Hdone]. split; [done|].
    intros e He. apply Hdone; [done|]. apply not_elem_of_nil.
Qed.

(** What [_criar_estrutura_base] leaves when it returns. *)
Lemma _criar_estrutura_base_spec (agora : datetime) (w : world) :
  wp (_criar_estrutura_base self agora)
     (λ w' _, only_dirs_added w w'
        ∧ Fs.is_dir (fs w') (caminho_base self) = true
        ∧ ∀ z,
            Fs.is_dir (fs w') (caminho_base self // estrutura_pastas z) = true
            ∧ (z ∈ [raw; processed] → ∀ e, e ∈ endpoints_api →
                 Fs.is_dir (fs w')
                   (caminho_base self // estrutura_pastas z // e) = true
                 ∧ Fs.is_dir (fs w')
                     (caminho_base self // estrutura_pastas z // e
                      // ("ano=" +:+ PyStr.fmt_d (date_year (dt_date agora)))
                      // ("mes="
                          +:+ PyStr.fmt_0d 2 (date_month (dt_date agora)))
                      // ("dia="
                          +:+ PyStr.fmt_0d 2 (date_day (dt_date agora))))
                   = true))
     (λ w' _, only_dirs_added w w') w.
Proof.
  unfold _criar_estrutura_base. apply wp_bind.
  eapply wp_mono; [apply Path_mkdir_spec| |done].
  cbv beta. intros w0 _ [Hext0 Hbase].
  eapply wp_mono;
    [apply (wp_for (λ rest w' (_ : unit),
              only_dirs_added w0 w'
              ∧ ∀ z, z ∉ rest →
                  Fs.is_dir (fs w')
                    (caminho_base self // estrutura_pastas z) = true
                  ∧ (z ∈ [raw; processed] → ∀ e, e ∈ endpoints_api →
                       Fs.is_dir (fs w')
                         (caminho_base self // estrutura_pastas z // e) = true
                       ∧ Fs.is_dir (fs w')
                           (caminho_base self // estrutura_pastas z // e
                            // ("ano="
                                +:+ PyStr.fmt_d (date_year (dt_date agora)))
                            // ("mes="
                                +:+ PyStr.fmt_0d 2
                                      (date_month (dt_date agora)))
                            // ("dia="
                                +:+ PyStr.fmt_0d 2
                                      (date_day (dt_date agora))))
                         = true))
              (λ w' _, only_dirs_added w0 w'))| |].
  - split; [apply only_dirs_added_refl|]. intros z Hz. destruct Hz. apply zonas_all.
  - intros x rest w1 [] [Hext Hdone]. apply wp_bind.
    eapply wp_mono; [apply Path_mkdir_spec| |].
    + cbv beta. intros w2 _ [Hext2 Hd2].
      assert (∀ z, z ∉ x :: rest →
                Fs.is_dir (fs w2)
                  (caminho_base self // estrutura_pastas z) = true
                ∧ (z ∈ [raw; processed] → ∀ e, e ∈ endpoints_api →
                     Fs.is_dir (fs w2)
                       (caminho_base self // estrutura_pastas z // e) = true
                     ∧ Fs.is_dir (fs w2)
                         (caminho_base self // estrutura_pastas z // e
                          // ("ano="
                              +:+ PyStr.fmt_d (date_year (dt_date agora)))
                          // ("mes="
                              +:+ PyStr.fmt_0d 2
                                    (date_month (dt_date agora)))
                          // ("dia="
                              +:+ PyStr.fmt_0d 2 (date_day (dt_date agora))))
                       = true)) as Hdone2.
      { intros z Hz. destruct (Hdone z Hz) as [Ha Hb]. split.
        - eauto using only_dirs_added_is_dir.
        - intros Hin e He. destruct (Hb Hin e He).
          split; eauto using only_dirs_added_is_dir. }
      case_bool_decide as Hrp.
      * eapply wp_mono; [apply _criar_estrutura_api_spec| |].
        -- cbv beta. intros w3 [] [Hext3 Hapi].
           split; [eauto using only_dirs_added_trans|].
           intros z Hz. destruct (decide (z = x)) as [->|Hne].
           ++ split; [eauto using only_dirs_added_is_dir|]. intros _. apply Hapi.
           ++ destruct (Hdone2 z) as [Ha Hb];
                [rewrite not_elem_of_cons; by split|].
              split; [eauto using only_dirs_added_is_dir|].
              intros Hin e He. destruct (Hb Hin e He).
              split; eauto using only_dirs_added_is_dir.
        -- cbv beta. intros w3 _ Hext3.
           eauto using only_dirs_added_trans.
      * apply wp_ret.
        split; [eauto using only_dirs_added_trans|].
        intros z Hz. destruct (decide (z = x)) as [->|Hne].
        -- split; [done|]. intros Hin. by destruct Hrp.
        -- apply Hdone2. rewrite not_elem_of_cons. by split.
    + cbv beta. intros w2 _ Hext2. eauto using only_dirs_added_trans.
  - cbv beta. intros w' [] [Hext Hdone].
    split; [eauto using only_dirs_added_trans|].
    split; [by apply (only_dirs_added_is_dir w0)|].
    intros z. apply Hdone, not_elem_of_nil.
  - cbv beta. intros w' _ Hext. eauto using only_dirs_added_trans.
Qed.

End init.

(** ** Creating the structure again *)

Lemma mkdir_existing (p : path) (w : world) :
  wf_tree (fs w) → Fs.is_dir (fs w) p = true →
  Os.mkdir p w = (w, inl FileExistsError).
Proof.
  intros Hwf Hd. unfold Os.mkdir. rewrite run_bind, run_gets. unfold id.
  assert (Fs.parent_error (fs w) p = None) as ->.
  { destruct (snoc_cases p) as [->|(q & n & ->)]; [done|].
    apply wf_tree_parent_error; [done|].
    apply is_dir_lookup in Hd. rewrite lookup_snoc in Hd.
    by eapply wf_tree_entry_parent. }
  by rewrite (is_dir_exists _ _ Hd).
Qed.

Lemma Path_mkdir_existing (parents : bool) (p : path) (w : world) :
  wf_tree (fs w) → Fs.is_dir (fs w) p = true →
  Os.Path_mkdir parents true p w = (w, inr ()).
Proof.
  intros Hwf Hd. unfold Os.Path_mkdir. destruct parents.
  - assert (Os.mkdir (rev (rev p)) w = (w, inl FileExistsError)) as Hm
      by (rewrite rev_involutive; by apply mkdir_existing).
    assert (Fs.is_dir (fs w) (rev (rev p)) = true) as Hd'
      by by rewrite rev_involutive.
    destruct (rev p) as [|n rp]; cbn [Os.mkdir_parents];
      unfold try_except; rewrite Hm, run_bind, run_gets, Hd'; done.
  - unfold Os.mkdir_flat, try_except.
    rewrite mkdir_existing by done. by rewrite run_bind, run_gets, Hd.
Qed.

Lemma for_noop {B} (l : list B) (body : unit → B → io unit) (w : world) :
  (∀ x, x ∈ l → body () x w = (w, inr ())) →
  for_ l () body w = (w, inr ()).
Proof.
  induction l as [|x l IH]; intros Hbody; [done|].
  cbn [for_]. rewrite run_bind, Hbody by by left.
  apply IH. intros y Hy. apply Hbody. by right.
Qed.

(** ** The schema listing *)

Lemma for_append {A B} (f : B → A) (l : list B) (acc : list A) (w : world) :
  for_ l acc (λ v x, mret (v ++ [f x])) w = (w, inr (acc ++ (f <$> l))).
Proof.
  revert acc. induction l as [|x l IH]; intros acc.
  - cbn [for_ fmap list_fmap]. by rewrite run_ret, app_nil_r.
  - cbn [for_ fmap list_fmap]. rewrite run_bind, run_ret, IH. by rewrite <-app_assoc.
Qed.

Lemma dict_get_set_Some {A} (k k' : string) (v : A) (m : list (string * A)) :
  is_Some (Dict.get k m) → is_Some (Dict.get k (Dict.set k' v m)).
Proof.
  intros Hk. destruct (decide (k' = k)) as [->|Hne].
  - by rewrite dict_get_set_eq.
  - by rewrite dict_get_set_ne.
Qed.

Lemma sorted_strings_Sorted (l : list string) :
  Sorted String.le (sorted_strings l).
Proof. apply (Sorted_merge_sort String.le). Qed.

Lemma sorted_strings_perm (l : list string) : sorted_strings l ≡ₚ l.
Proof. apply merge_sort_Permutation. Qed.

Section schemas.
Variable self : GerenciadorDataLake.

(** The loop over the entries of the schema zone. *)
Lemma esquemas_loop (w : world) (pastas : list path) :
  wp (for_ pastas [] (λ esquemas pasta_endpoint,
        d ← gets (λ t, Fs.is_dir t pasta_endpoint);
        if (d : bool) then
          arquivos ← gets (λ t, Fs.glob (Fs.Suffix ".json") t pasta_endpoint);
          versoes ← for_ arquivos [] (λ versoes arquivo_esquema,
                      mret (versoes ++ [PurePath.stem arquivo_esquema]));
          mret (Dict.set (PurePath.name pasta_endpoint)
                  (sorted_strings versoes) esquemas)
        else mret esquemas))
     (λ w' esquemas, w' = w
        ∧ Forall (λ kv, ∃ pasta, pasta ∈ pastas
                    ∧ Fs.is_dir (fs w) pasta = true
                    ∧ kv.1 = PurePath.name pasta
                    ∧ kv.2 = sorted_strings
                               (PurePath.stem
                                <$> Fs.glob (Fs.Suffix ".json") (fs w) pasta))
            esquemas
        ∧ ∀ pasta, pasta ∈ pastas → Fs.is_dir (fs w) pasta = true →
            is_Some (Dict.get (PurePath.name pasta) esquemas))
     (λ _ _, False) w.
Proof.
  eapply wp_mono;
    [apply (wp_for (λ rest w' (esquemas : list (string * list string)),
              w' = w
              ∧ Forall (λ kv, ∃ pasta, pasta ∈ pastas
                          ∧ Fs.is_dir (fs w) pasta = true
                          ∧ kv.1 = PurePath.name pasta
                          ∧ kv.2 = sorted_strings
                                     (PurePath.stem
                                      <$> Fs.glob (Fs.Suffix ".json") (fs w)
                                            pasta))
                  esquemas
              ∧ (∀ pasta, pasta ∈ rest → pasta ∈ pastas)
              ∧ ∀ pasta, pasta ∈ pastas → pasta ∉ rest →
                  Fs.is_dir (fs w) pasta = true →
                  is_Some (Dict.get (PurePath.name pasta) esquemas))
              (λ _ _, False))
    | |done].
  - split; [done|]. split; [constructor|]. split; [done|].
    intros pasta Hin Hn. by destruct Hn.
  - intros x rest w' esquemas (-> & Hall & Hsub & Hdone).
    apply wp_bind, wp_gets.
    destruct (Fs.is_dir (fs w) x) eqn:Hd.
    + apply wp_bind, wp_gets. apply wp_bind. unfold wp at 1.
      rewrite for_append. apply wp_ret. cbn [app].
      split; [done|]. split; [|split].
      * apply Forall_dict_set; [|done]. exists x.
        split; [apply Hsub; by left|done].
      * intros pasta Hp. apply Hsub. by right.
      * intros pasta Hin Hn Hdir. destruct (decide (pasta = x)) as [->|Hne].
        -- by rewrite dict_get_set_eq.
        -- apply dict_get_set_Some, Hdone; [done| |done].
           rewrite not_elem_of_cons. by split.
    + apply wp_ret. split; [done|]. split; [done|]. split.
      * intros pasta Hp. apply Hsub. by right.
      * intros pasta Hin Hn Hdir. apply Hdone; [done| |done].
        rewrite not_elem_of_cons. split; [|done]. intros ->. congruence.
  - cbv beta. intros w' esquemas (-> & Hall & _ & Hdone).
    split; [done|]. split; [done|].
    intros pasta Hin Hdir. apply Hdone; [done| |done]. apply not_elem_of_nil.
Qed.

End schemas.

(** ** The manager and the schema zone *)




(** ** Statistics that do not return *)

(** A loop over a read-only body that raises [e] for one of the entries,
    and raises nothing else, raises [e]. *)
Lemma for_raises {A B} `{EqDecision B} (l : list B) (acc : A)
    (body : A → B → io A) (w : world) (e : exn) (k : B) :
  k ∈ l →
  (∀ a, body a k w = (w, inl e)) →
  (∀ a x, x ≠ k →
     wp (body a x) (λ w' _, w' = w) (λ w' e', w' = w ∧ e' = e) w) →
  for_ l acc body w = (w, inl e).
Proof.
  intros Hk Hbad Hother. revert acc.
  induction l as [|x l IH]; intros acc; [by apply elem_of_nil in Hk|].
  cbn [for_]. rewrite run_bind.
  destruct (decide (x = k)) as [->|Hne]; [by rewrite Hbad|].
  specialize (Hother acc x Hne). unfold wp in Hother.
  destruct (body acc x w) as [w' [e'|a']].
  - by destruct Hother as [-> ->].
  - subst w'. apply IH. apply elem_of_cons in Hk as [->|Hk]; done.
Qed.

Lemma split_eq_1_inl (s : string) (e : exn) :
  split_eq_1 s = inl e → e = IndexError.
Proof. unfold split_eq_1. destruct (_ !! _); congruence. Qed.

Lemma getitem_inl (l : list string) (i : nat) (e : exn) :
  getitem l i = inl e → e = IndexError.
Proof. unfold getitem. destruct (_ !! _); congruence. Qed.

(** [extrair_parte] reads, and raises [IndexError] only. *)
Lemma extrair_parte_index (partes : list string)
    (acc : gset string * gset string) (parte : string) (w : world) :
  wp (extrair_parte partes acc parte) (λ w' _, w' = w)
     (λ w' e, w' = w ∧ e = IndexError) w.
Proof.
  unfold extrair_parte.
  destruct (PyStr.startswith "loja=" parte).
  { apply wp_bind, wp_lift. destruct (split_eq_1 parte) eqn:Hs; [|done].
    split; [done|]. by eapply split_eq_1_inl. }
  destruct (PyStr.startswith "ano=" parte); [|done].
  apply wp_bind, wp_lift. destruct (split_eq_1 parte) eqn:Hs.
  { split; [done|]. by eapply split_eq_1_inl. }
  destruct (_ <? _)%nat; [|done].
  apply wp_bind, wp_lift. destruct (getitem partes _) as [?|pm] eqn:Hg1.
  { split; [done|]. by eapply getitem_inl. }
  apply wp_bind, wp_lift. destruct (split_eq_1 pm) eqn:Hs1.
  { split; [done|]. by eapply split_eq_1_inl. }
  apply wp_bind, wp_lift.
  destruct (getitem partes (_ + 2)) as [?|pd] eqn:Hg2.
  { split; [done|]. by eapply getitem_inl. }
  apply wp_bind, wp_lift. destruct (split_eq_1 pd) eqn:Hs2; [|done].
  split; [done|]. by eapply split_eq_1_inl.
Qed.

Lemma index_of_app (c : list string) (a : string) (l : list string) :
  a ∉ c → index_of a (c ++ a :: l) = length c.
Proof.
  intros Hc. unfold index_of.
  rewrite list_find_app_r.
  - cbn. rewrite decide_True by done. cbn. lia.
  - apply list_find_None, Forall_forall. intros y Hy ->. done.
Qed.

Lemma ano_nao_loja (a : string) :
  PyStr.startswith "ano=" a = true → PyStr.startswith "loja=" a = false.
Proof.
  unfold PyStr.startswith. destruct a as [|ch a]; [done|].
  rewrite !prefix_cons. destruct (Ascii.eqb_spec "a" ch) as [<-|]; done.
Qed.

(** The part that makes [extrair_parte] raise: a year directory followed by
    a part without [=]. *)
Lemma extrair_parte_raises (c : list string) (a x nm : string)
    (acc : gset string * gset string) (w : world) :
  PyStr.startswith "ano=" a = true → a ∉ c →
  split_eq_1 x = inl IndexError →
  extrair_parte (c ++ [a; x; nm]) acc a w = (w, inl IndexError).
Proof.
  intros Ha Hc Hx. unfold extrair_parte.
  rewrite (ano_nao_loja a Ha), Ha, run_bind. unfold lift at 1.
  destruct (split_eq_1 a) as [e|ano] eqn:Hs.
  { by rewrite (split_eq_1_inl _ _ Hs). }
  rewrite index_of_app by done.
  assert ((length c + 2 <? length (c ++ [a; x; nm]))%nat = true) as ->.
  { apply Nat.ltb_lt. rewrite length_app. simpl. lia. }
  rewrite run_bind. unfold lift at 1, getitem at 1.
  assert ((c ++ [a; x; nm]) !! (length c + 1)%nat = Some x) as ->.
  { rewrite lookup_app_r by lia.
    by replace (length c + 1 - length c)%nat with 1%nat by lia. }
  rewrite run_bind. unfold lift at 1. by rewrite Hx.
Qed.

Lemma analisar_arquivo_index (arquivo : path)
    (info : Z * Z * (gset string * gset string)) (w : world) :
  wp (f ← gets (λ t, Fs.is_file t arquivo);
      if (f : bool) then
        st_size ← Os.stat_size arquivo;
        conjuntos ← for_ arquivo info.2 (extrair_parte arquivo);
        mret (info.1.1 + 1, info.1.2 + st_size, conjuntos)
      else mret info)
     (λ w' _, w' = w) (λ w' e, w' = w ∧ e = IndexError) w.
Proof.
  apply wp_bind, wp_gets. destruct (Fs.is_file (fs w) arquivo) eqn:Hf; [|done].
  apply wp_bind. unfold wp at 1. rewrite stat_size_file by done.
  apply wp_bind.
  eapply wp_mono;
    [apply (wp_for (λ _ w' _, w' = w) (λ w' e, w' = w ∧ e = IndexError));
       [done|]| |done].
  - intros x rest w' a ->. apply extrair_parte_index.
  - cbv beta. by intros w' a ->.
Qed.

Lemma _analisar_endpoint_index (caminho_endpoint : path) (w : world) :
  wp (_analisar_endpoint caminho_endpoint) (λ w' _, w' = w)
     (λ w' e, w' = w ∧ e = IndexError) w.
Proof.
  unfold _analisar_endpoint. apply wp_bind, wp_gets. apply wp_bind.
  eapply wp_mono;
    [apply (wp_for (λ _ w' _, w' = w) (λ w' e, w' = w ∧ e = IndexError));
       [done|]| |done].
  - intros x rest w' a ->. apply analisar_arquivo_index.
  - cbv beta. intros w' [[total tamanho] conjuntos] ->. done.
Qed.

(** A [.json] file at [<endpoint>/ano=Y/x/name], where [x] bears no [=],
    makes the analysis of the endpoint raise. *)
Lemma _analisar_endpoint_raises (c : path) (a x nm : string) (w : world) :
  Fs.is_dir (fs w) c = true →
  Fs.is_file (fs w) (c ++ [a; x; nm]) = true →
  PyStr.endswith ".json" nm = true →
  PyStr.startswith "ano=" a = true → a ∉ c →
  split_eq_1 x = inl IndexError →
  _analisar_endpoint c w = (w, inl IndexError).
Proof.
  intros Hd Hf Hnm Ha Hc Hx. unfold _analisar_endpoint.
  rewrite run_bind, run_gets, run_bind.
  rewrite (for_raises _ _ _ w IndexError (c ++ [a; x; nm])); [done| | |].
  - apply elem_of_rglob. split; [done|].
    assert (PurePath.is_root nm = false) as Hr.
    { destruct (PurePath.is_root nm) eqn:Hr; [|done].
      apply orb_true_iff in Hr
        as [->%bool_decide_eq_true| ->%bool_decide_eq_true]; done. }
    split.
    { change (c ++ [a; x; nm]) with (c ++ [a; x] ++ [nm]).
      rewrite app_assoc, name_snoc by done. done. }
    split; [by eexists|]. split.
    { intros Heq. apply (f_equal length) in Heq.
      rewrite length_app in Heq. simpl in Heq. lia. }
    by apply is_file_Some.
  - intros info. rewrite run_bind, run_gets, Hf, run_bind.
    rewrite stat_size_file by done. rewrite run_bind.
    rewrite (for_raises _ _ _ w IndexError a); [done| | |].
    + rewrite elem_of_app. right. by left.
    + intros acc. by apply extrair_parte_raises.
    + intros acc p _. apply extrair_parte_index.
  - intros info p _. apply analisar_arquivo_index.
Qed.

(** ** A schema zone without entries *)


(* ===================================================================== *)
(** * The claims of the specification *)
(* ===================================================================== *)

(** ** Store, then query *)

(** C1 (amended). Storing a payload and then querying returns a record
    whose ["dados"] field is that payload, when the endpoint and the store
    id hold no slash, the call to [armazenar_resposta_api] returned, and
    the range holds the business date and ends before 9999-12-31. *)
Theorem store_then_query_returns_payload `{Runtime}
    (self : GerenciadorDataLake) (agora : datetime) (endpoint : string)
    (dados : json) (data_negocio : date) (id_loja : string)
    (extra : option (list (string * json))) (d1 d2 : date) (w w1 : world)
    (s : string) :
  wf_tree (fs w) →
  has_slash endpoint = false → has_slash id_loja = false →
  date_valid d1 →
  toordinal d1 <= toordinal data_negocio <= toordinal d2 →
  toordinal d2 < Calendar._MAXORDINAL →
  armazenar_resposta_api self agora endpoint dados data_negocio id_loja
    extra w = (w1, inr s) →
  ∃ w2 rs m,
    buscar_dados self endpoint d1 d2 (Some id_loja) w1 = (w2, inr rs)
    ∧ JObj m ∈ rs ∧ Dict.get "dados" m = Some dados.
Proof. apply armazenar_buscar. Qed.

Lemma store_then_query_witness :
  ∃ w2 rs m,
    buscar_dados lake "getGuestChecks" dia_2024_01_15 dia_2024_01_15
      (Some "loja_teste") mundo_com_registro = (w2, inr rs)
    ∧ JObj m ∈ rs ∧ Dict.get "dados" m = Some dados_teste.
Proof.
  apply (store_then_query_returns_payload (H := runtime_exemplo) lake
           agora_exemplo "getGuestChecks" dados_teste dia_2024_01_15
           "loja_teste" None dia_2024_01_15 dia_2024_01_15 mundo_inicial
           mundo_com_registro
           (caminho_registro_str "dados/data_lake" "getGuestChecks"
              dia_2024_01_15 "loja_teste" agora_exemplo)).
  - apply wf_tree_decide. by vm_compute.
  - reflexivity.
  - reflexivity.
  - by vm_compute.
  - by vm_compute.
  - by vm_compute.
  - apply run_eq. by vm_compute.
Defined.

(** C1, as the spec states it, fails in two ways.  A record stored for
    9999-12-31 cannot be queried: the loop of [buscar_dados] steps past the
    last day and raises [OverflowError].  And a record stored for the
    endpoint ["a/b"] lands in a directory that the query for ["a/b"] does
    not read: the query returns nothing. *)
Lemma store_then_query_counterexample :
  (armazenar_resposta_api (H := runtime_exemplo) lake agora_exemplo
     "getGuestChecks" dados_teste date_max "loja_teste" None
     mundo_inicial).2
  = inr (caminho_registro_str "dados/data_lake" "getGuestChecks" date_max
           "loja_teste" agora_exemplo)
  ∧ (buscar_dados lake "getGuestChecks" date_max date_max
       (Some "loja_teste") mundo_com_registro_final).2
    = inl OverflowError
  ∧ (armazenar_resposta_api (H := runtime_exemplo) lake agora_exemplo
       "a/b" dados_teste dia_2024_01_15 "x" None mundo_com_pastas_a).2
    = inr (caminho_registro_str "dados/data_lake" "a/b" dia_2024_01_15
             "x" agora_exemplo)
  ∧ (buscar_dados lake "a/b" dia_2024_01_15 dia_2024_01_15 (Some "x")
       (armazenar_resposta_api (H := runtime_exemplo) lake agora_exemplo
          "a/b" dados_teste dia_2024_01_15 "x" None
          mundo_com_pastas_a).1).2
    = inr [].
Proof. by vm_compute. Qed.

(** ** The path of a record file *)

(** C2 (amended). A call that returns, for an endpoint that is one plain
    path part and a store id without slash, has written its record file at
    [<base>/dados_brutos/<endpoint>/ano=<year>/mes=<MM>/dia=<DD>/loja=<store>/<endpoint>_<store>_<YYYYMMDD_HHMMSS>.json],
    the year written without padding, and returns that path; the six zone
    directories are [dados_brutos], [dados_processados], [esquemas],
    [metadados], [arquivo] and [temporario]. *)
Theorem record_file_path_layout `{Runtime} (self : GerenciadorDataLake)
    (agora : datetime) (endpoint : string) (dados : json)
    (data_negocio : date) (id_loja : string)
    (extra : option (list (string * json))) (w w1 : world) (s : string) :
  wf_tree (fs w) →
  plain_name endpoint → has_slash id_loja = false →
  proper_base (caminho_base self) = true →
  armazenar_resposta_api self agora endpoint dados data_negocio id_loja
    extra w = (w1, inr s) →
  s = caminho_registro_str (PurePath.str (caminho_base self)) endpoint
        data_negocio id_loja agora
  ∧ (∃ arq, PurePath.str arq = s ∧ Fs.is_file (fs w1) arq = true)
  ∧ estrutura_pastas <$> zonas
    = ["dados_brutos"; "dados_processados"; "esquemas"; "metadados";
       "arquivo"; "temporario"].
Proof.
  intros Hwf He Hi Hb Hrun.
  destruct (armazenar_ok _ _ _ _ _ _ _ _ _ _ Hwf (proj1 He) Hrun)
    as (Hwf1 & -> & [n Harq] & _).
  split; [by apply caminho_arquivo_str|]. split; [|done].
  eexists. split; [done|]. unfold Fs.is_file, Fs.lookup.
  destruct (caminho_arquivo_de _ _ _ _ _);
    [by rewrite wf_tree_not_nil in Harq|].
  by rewrite Harq.
Qed.

Lemma record_file_path_layout_witness :
  caminho_registro_str "dados/data_lake" "getGuestChecks" dia_2024_01_15
    "loja_teste" agora_exemplo
  = caminho_registro_str (PurePath.str (caminho_base lake)) "getGuestChecks"
      dia_2024_01_15 "loja_teste" agora_exemplo
  ∧ (∃ arq, PurePath.str arq
            = caminho_registro_str "dados/data_lake" "getGuestChecks"
                dia_2024_01_15 "loja_teste" agora_exemplo
            ∧ Fs.is_file (fs mundo_com_registro) arq = true)
  ∧ estrutura_pastas <$> zonas
    = ["dados_brutos"; "dados_processados"; "esquemas"; "metadados";
       "arquivo"; "temporario"].
Proof.
  apply (record_file_path_layout (H := runtime_exemplo) lake agora_exemplo
           "getGuestChecks" dados_teste dia_2024_01_15 "loja_teste" None
           mundo_inicial mundo_com_registro).
  - apply wf_tree_decide. by vm_compute.
  - by vm_compute.
  - reflexivity.
  - reflexivity.
  - apply run_eq. by vm_compute.
Defined.

(** C2, as the spec states it, fails on the test call of the repository:
    the path returned is under [dados_brutos], with [ano=], [mes=], [dia=]
    and [loja=], and nothing exists at the path the spec gives. *)
Lemma record_file_path_counterexample :
  (armazenar_resposta_api (H := runtime_exemplo) lake agora_exemplo
     "getGuestChecks" dados_teste dia_2024_01_15 "loja_teste" None
     mundo_inicial).2
  = inr "dados/data_lake/dados_brutos/getGuestChecks/ano=2024/mes=01/dia=15/loja=loja_teste/getGuestChecks_loja_teste_20240115_100507.json"
  ∧ Fs.exists_ (fs mundo_com_registro)
      (PurePath.Path "dados/data_lake/raw/getGuestChecks/year=2024/month=01/day=15/store=loja_teste/getGuestChecks_loja_teste_20240115_100507.json")
    = false
  ∧ Fs.exists_ (fs mundo_com_registro) (PurePath.Path "dados/data_lake/raw")
    = false
  ∧ estrutura_pastas raw = "dados_brutos".
Proof. by vm_compute. Qed.

(** ** Failures of a store call *)

Section store_failures.
Context `{Runtime}.
Variable self : GerenciadorDataLake.



End store_failures.









(** ** The retention cleanup *)

(** C4 (amended). On a tree of directories and regular files whose year,
    month and day directories have ASCII names, a cleanup that returns has
    computed the cutoff, today minus the retention days, and has removed
    from the tree exactly the entries below a directory
    [<raw zone>/<endpoint>/ano=Y/mes=M/dia=D] whose [Y], [M], [D] are
    numbers of a calendar date strictly before the cutoff; every other
    entry, and so every other day and every other zone, is as it was.  The
    report holds the number of the regular files removed, their total size
    in hundredths of a megabyte, rounded, and the cutoff. *)
Theorem cleanup_removes_overdue_partitions (self : GerenciadorDataLake)
    (agora : datetime) (dias_retencao : Z) (w w' : world)
    (rel : relatorio_limpeza) :
  wf_tree (fs w) →
  particoes_ascii (caminho_base self // estrutura_pastas raw) (fs w) →
  limpar_dados_antigos self agora dias_retencao w = (w', inr rel) →
  ∃ corte,
    date_add_days (dt_date agora) (- dias_retencao) = inr corte
    ∧ (∀ k, fs w' !! k
            = if vencido (caminho_base self // estrutura_pastas raw) corte k
              then None else fs w !! k)
    ∧ (∀ z k, z ≠ raw →
              (caminho_base self // estrutura_pastas z) `prefix_of` k →
              fs w' !! k = fs w !! k)
    ∧ arquivos_removidos rel
      = contagem (vencido (caminho_base self // estrutura_pastas raw) corte)
          (fs w)
    ∧ tamanho_liberado_mb rel
      = round_mb
          (tamanho (vencido (caminho_base self // estrutura_pastas raw) corte)
             (fs w))
    ∧ data_corte rel = date_isoformat corte.
Proof.
  intros Hwf _ Hrun.
  destruct (limpar_dados_antigos_spec _ _ _ _ _ _ Hwf Hrun)
    as (corte & Hc & Hfs & Hn & Ht & Hd).
  exists corte. split; [done|]. split; [|split; [|done]].
  - intros k. by rewrite Hfs, sem_lookup.
  - intros z k Hz Hk. by rewrite Hfs, sem_lookup, (vencido_fora _ _ z).
Qed.

Lemma cleanup_removes_overdue_partitions_witness :
  ∃ corte,
    date_add_days (dt_date agora_depois) (- 90) = inr corte
    ∧ (∀ k, fs (limpar_dados_antigos lake agora_depois 90
                  mundo_com_registro).1 !! k
            = if vencido (caminho_base lake // estrutura_pastas raw) corte k
              then None else fs mundo_com_registro !! k)
    ∧ (∀ z k, z ≠ raw →
              (caminho_base lake // estrutura_pastas z) `prefix_of` k →
              fs (limpar_dados_antigos lake agora_depois 90
                    mundo_com_registro).1 !! k
              = fs mundo_com_registro !! k)
    ∧ arquivos_removidos (RelatorioLimpeza 1 0 "2024-03-03")
      = contagem (vencido (caminho_base lake // estrutura_pastas raw) corte)
          (fs mundo_com_registro)
    ∧ tamanho_liberado_mb (RelatorioLimpeza 1 0 "2024-03-03")
      = round_mb
          (tamanho (vencido (caminho_base lake // estrutura_pastas raw) corte)
             (fs mundo_com_registro))
    ∧ data_corte (RelatorioLimpeza 1 0 "2024-03-03") = date_isoformat corte.
Proof.
  apply (cleanup_removes_overdue_partitions lake agora_depois 90
           mundo_com_registro).
  - apply wf_tree_decide. by vm_compute.
  - unfold particoes_ascii. apply (bool_decide_unpack _). by vm_compute.
  - apply run_eq. by vm_compute.
Defined.

(** C4, as the spec states it, fails on the report and on the retention
    periods: where the one record file of the small lake, of 504 bytes, is
    overdue, the report holds 0 for the size freed, the size in megabytes
    rounded to two decimals; and a retention of a million days makes the
    cutoff leave the calendar, and the cleanup raises [OverflowError]. *)
Lemma cleanup_report_counterexample :
  (limpar_dados_antigos lake agora_depois 90 mundo_com_registro).2
  = inr (RelatorioLimpeza 1 0 "2024-03-03")
  ∧ tamanho (vencido (caminho_base lake // estrutura_pastas raw)
               (Date (739038 - 90)))
      (fs mundo_com_registro)
    = 504
  ∧ (limpar_dados_antigos lake agora_depois 1000000 mundo_com_registro).2
    = inl OverflowError.
Proof. by vm_compute. Qed.

(** A day directory whose name holds no number after ["="] makes the turn
    of the loop raise, outside the [try]. *)
Lemma limpar_dia_numero_invalido (corte : date) (ano mes : Z) (acc : Z * Z)
    (p : path) (d : string) (e : exn) (w : world) :
  PurePath.is_root d = false → numero d = inl e →
  limpar_dia corte ano mes acc (p ++ [d]) w = (w, inl e).
Proof.
  intros Hr Hn. unfold limpar_dia.
  by rewrite run_bind, numero_da_pasta_run, Hn.
Qed.

(** C8 (the code departs from the spec). The lake holds the day directory
    [ano=2024/mes=01/dia=xx]: the number of the day is read outside the
    [try], [int("xx")] raises [ValueError], and the cleanup ends with that
    exception; no warning is logged. *)
Theorem cleanup_aborts_on_unparsable_day :
  numero "dia=xx" = inl ValueError
  ∧ (limpar_dados_antigos lake agora_depois 90 mundo_dia_invalido).2
    = inl ValueError
  ∧ log (limpar_dados_antigos lake agora_depois 90 mundo_dia_invalido).1
    = [].
Proof. by vm_compute. Qed.

(** ** The content hash *)

Lemma string_app_inv_head (a b c : string) : a +:+ b = a +:+ c → b = c.
Proof. induction a as [|x a IH]; simpl; [done|]. intros [= ?]. auto. Qed.

(** The limit on the digits of an [int] is a bound on its absolute
    value. *)
Lemma int_fits_spec `{Runtime} (n : Z) :
  Json.int_fits n = true
  ↔ int_max_str_digits = 0%N ∨ Z.abs n < 10 ^ Z.of_N int_max_str_digits.
Proof.
  unfold Json.int_fits. destruct (N.eqb_spec int_max_str_digits 0) as [->|Hl].
  { split; [by left|done]. }
  destruct (Z.ltb_spec (Z.log2 (Z.abs n)) (3 * Z.of_N int_max_str_digits))
    as [Hlog|Hlog].
  - split; [|done]. intros _. right.
    destruct (decide (Z.abs n = 0)) as [->|Hn].
    { apply Z.pow_pos_nonneg; lia. }
    pose proof (Z.log2_spec (Z.abs n) ltac:(lia)) as [_ Hlt].
    eapply Z.lt_le_trans; [exact Hlt|].
    etrans; [apply (Z.pow_le_mono_r 2 _ (3 * Z.of_N int_max_str_digits));
             lia|].
    rewrite Z.pow_mul_r by lia. apply Z.pow_le_mono_l. lia.
  - destruct (Z.leb_spec (4 * Z.of_N int_max_str_digits)
                (Z.log2 (Z.abs n))) as [Hbig|Hbig].
    + split; [done|]. intros [?|Hlt]; [done|]. exfalso.
      assert (0 < Z.abs n) as Hpos.
      { destruct (decide (Z.abs n = 0)) as [Hn|Hn]; [|lia].
        rewrite Hn in Hlog. simpl in Hlog. lia. }
      pose proof (Z.log2_spec (Z.abs n) Hpos) as [Hle _].
      assert (10 ^ Z.of_N int_max_str_digits
              <= 2 ^ (4 * Z.of_N int_max_str_digits)) as H10.
      { rewrite Z.pow_mul_r by lia. apply Z.pow_le_mono_l. lia. }
      assert (2 ^ (4 * Z.of_N int_max_str_digits)
              <= 2 ^ Z.log2 (Z.abs n)) as H2
        by (apply Z.pow_le_mono_r; lia).
      lia.
    + rewrite Z.ltb_lt. split; [by right|]. by intros [?|?].
Qed.

(** The text of an object with one member. *)
Lemma dumps_singleton `{Runtime} (sort_keys ensure_ascii : bool)
    (k : string) (v : json) :
  Json.dumps sort_keys None ensure_ascii (JObj [(k, v)])
  = "{" +:+ Json.encode_str ensure_ascii k +:+ ": "
    +:+ Json.encode sort_keys None ensure_ascii 1 v +:+ "}".
Proof.
  unfold Json.dumps.
  destruct sort_keys; cbn -[Json.encode_str String.append];
    change ("" +:+ "}") with "}"; f_equal;
    change ("" +:+ ?s) with s; by rewrite <-!string_app_assoc.
Qed.

(** C5 (amended). The hash of a payload is the digest of its text with
    sorted keys, and of nothing else, when the encoder can write the
    payload, and the call raises [ValueError] when it cannot.  Payloads
    with the same keys and the same JSON values, whatever the order in
    which the keys were inserted, have the same hash.  The text that is
    hashed tells an [int] from the [float] of the same value, written
    with [".0"]: payloads that differ so, equal for Python, are hashed
    from different texts. *)
Theorem hash_of_sorted_serialization `{Runtime} (p q : json) :
  Json.wf p → Json.wf q → Json.mapping_eq p q = true →
  _calcular_hash p = _calcular_hash q
  ∧ _calcular_hash p
    = (if Json.serializable p
       then inr (md5_hexdigest (Json.dumps true None true p))
       else inl ValueError)
  ∧ (∀ (k : string) (n : Z),
       Json.dumps true None true (JObj [(k, JInt n)])
       ≠ Json.dumps true None true
           (JObj [(k, JFloat (PyStr.fmt_d n +:+ ".0"))])).
Proof.
  intros Hp Hq Heq. split; [by apply calcular_hash_mapping_eq|]. split.
  - unfold _calcular_hash, json_dumps. by destruct (Json.serializable p).
  - intros k n. rewrite !dumps_singleton. cbn [Json.encode].
    intros Hd. do 3 apply string_app_inv_head in Hd.
    apply (f_equal String.length) in Hd.
    rewrite !length_app_string in Hd. simpl in Hd. lia.
Qed.

Lemma hash_of_sorted_serialization_witness :
  let p := JObj [("a", JInt 1); ("b", JObj [("x", JNull); ("y", JBool true)])] in
  let q := JObj [("b", JObj [("y", JBool true); ("x", JNull)]); ("a", JInt 1)] in
  _calcular_hash (H := runtime_exemplo) p
  = _calcular_hash (H := runtime_exemplo) q
  ∧ _calcular_hash (H := runtime_exemplo) p
    = (if Json.serializable (H := runtime_exemplo) p
       then inr (@md5_hexdigest runtime_exemplo
                   (Json.dumps (H := runtime_exemplo) true None true p))
       else inl ValueError)
  ∧ (∀ (k : string) (n : Z),
       Json.dumps (H := runtime_exemplo) true None true (JObj [(k, JInt n)])
       ≠ Json.dumps (H := runtime_exemplo) true None true
           (JObj [(k, JFloat (PyStr.fmt_d n +:+ ".0"))])).
Proof.
  intros p q.
  apply (hash_of_sorted_serialization (H := runtime_exemplo) p q).
  - cbn. repeat split; apply NoDup_decide; by vm_compute.
  - cbn. repeat split; apply NoDup_decide; by vm_compute.
  - by vm_compute.
Defined.

(** C5, as the spec states it, fails on payloads that are equal as
    mappings for Python and differ in the type of a number: [{"a": 1}],
    [{"a": 1.0}] and [{"a": True}] are equal, and their three hashes
    differ. *)
Lemma equal_mappings_hash_counterexample :
  let p := JObj [("a", JInt 1)] in
  let q := JObj [("a", JFloat "1.0")] in
  let r := JObj [("a", JBool true)] in
  (Json.py_eq p q = true ∧ Json.py_eq p r = true ∧ Json.py_eq q r = true)
  ∧ (Json.mapping_eq p q = false ∧ Json.mapping_eq p r = false)
  ∧ bool_decide (_calcular_hash (H := runtime_exemplo) p
                 = _calcular_hash (H := runtime_exemplo) q) = false
  ∧ bool_decide (_calcular_hash (H := runtime_exemplo) p
                 = _calcular_hash (H := runtime_exemplo) r) = false
  ∧ bool_decide (_calcular_hash (H := runtime_exemplo) q
                 = _calcular_hash (H := runtime_exemplo) r) = false.
Proof. by vm_compute. Qed.

(** ** Reading a directory *)

(** C6 (amended). Reading a directory of a well-formed tree never raises
    and leaves the tree as it is.  It returns exactly the records of the
    [.json] entries that hold a JSON object, each with the path of its
    file added; every other [.json] entry, be it no JSON text, a JSON text
    that is no object, or no regular file, is skipped with a warning. *)
Theorem read_directory_keeps_objects (caminho_pasta : path) (w : world) :
  wf_tree (fs w) →
  ∃ w' rs,
    _ler_arquivos_pasta caminho_pasta w = (w', inr rs)
    ∧ fs w' = fs w
    ∧ rs = omap (registro_de (fs w))
             (Fs.glob (Fs.Suffix ".json") (fs w) caminho_pasta)
    ∧ log w' = log w ++ avisos_pasta (fs w) caminho_pasta
    ∧ (∀ arquivo_json,
         arquivo_json ∈ Fs.glob (Fs.Suffix ".json") (fs w) caminho_pasta →
         registro_de (fs w) arquivo_json = None →
         WarnErroLerArquivo arquivo_json (erro_de (fs w) arquivo_json)
         ∈ log w').
Proof.
  intros Hwf. rewrite ler_arquivos_pasta_run by done.
  eexists _, _. split; [done|]. cbn [fs log]. repeat split.
  intros arq Harq Hnone. apply elem_of_app. right.
  apply list_elem_of_omap. exists arq. split; [done|].
  unfold aviso_de. by rewrite Hnone.
Qed.

Lemma read_directory_keeps_objects_witness :
  ∃ w' rs,
    _ler_arquivos_pasta pasta_exemplo mundo_misto = (w', inr rs)
    ∧ fs w' = fs mundo_misto
    ∧ rs = omap (registro_de (fs mundo_misto))
             (Fs.glob (Fs.Suffix ".json") (fs mundo_misto) pasta_exemplo)
    ∧ log w' = log mundo_misto ++ avisos_pasta (fs mundo_misto) pasta_exemplo
    ∧ (∀ arquivo_json,
         arquivo_json
         ∈ Fs.glob (Fs.Suffix ".json") (fs mundo_misto) pasta_exemplo →
         registro_de (fs mundo_misto) arquivo_json = None →
         WarnErroLerArquivo arquivo_json
           (erro_de (fs mundo_misto) arquivo_json)
         ∈ log w').
Proof.
  apply (read_directory_keeps_objects pasta_exemplo mundo_misto).
  apply wf_tree_decide. by vm_compute.
Defined.

(** C6, as the spec states it, fails for a file that parses as JSON and
    holds no object: [lista.json] holds the array [[1]], [json.load]
    returns it, and the assignment of ["_caminho_arquivo"] raises
    [TypeError]; the file is skipped with a warning like the corrupt one,
    and of the three [.json] files one record is returned. *)
Lemma read_directory_counterexample :
  (Os.load_json (pasta_exemplo // "lista.json") mundo_misto).2
  = inr (JArr [JInt 1])
  ∧ length (Fs.glob (Fs.Suffix ".json") (fs mundo_misto) pasta_exemplo)
    = 3%nat
  ∧ match (_ler_arquivos_pasta pasta_exemplo mundo_misto).2 with
    | inr rs => length rs
    | inl _ => 0%nat
    end = 1%nat
  ∧ log (_ler_arquivos_pasta pasta_exemplo mundo_misto).1
    = [WarnErroLerArquivo (pasta_exemplo // "corrompido.json")
         JSONDecodeError;
       WarnErroLerArquivo (pasta_exemplo // "lista.json") TypeError].
Proof. by vm_compute. Qed.

(** ** The range of a query *)

(** C7 (the code departs from the spec). A query whose range ends on
    9999-12-31 and is not empty does not return: after the last day the
    loop adds one day to [date.max], which raises [OverflowError]. *)
Theorem query_to_last_day_raises (self : GerenciadorDataLake)
    (endpoint : string) (d1 : date) (id_loja : option string) (w : world) :
  wf_tree (fs w) → date_valid d1 →
  (buscar_dados self endpoint d1 date_max id_loja w).2 = inl OverflowError.
Proof.
  intros Hwf Hd1. rewrite buscar_dados_run; [|done|done|by vm_compute].
  cbn [snd]. rewrite bool_decide_eq_true_2; [done|].
  split; [apply Hd1|done].
Qed.

Lemma query_to_last_day_raises_witness :
  (buscar_dados lake "getGuestChecks" date_max date_max (Some "loja_teste")
     mundo_com_registro_final).2 = inl OverflowError.
Proof.
  apply (query_to_last_day_raises lake "getGuestChecks" date_max
           (Some "loja_teste") mundo_com_registro_final).
  - apply wf_tree_decide. by vm_compute.
  - by vm_compute.
Defined.

(** ** Writing over a record *)

(** C9 (the code departs from the spec). A call that returns has written
    its record into the file of its name, whatever was there: where a
    regular file of that name exists, as after a call for the same
    endpoint and store within the same second of the clock, it now holds
    the new record, and the record it held is lost. *)
Theorem store_overwrites_existing_record `{Runtime}
    (self : GerenciadorDataLake) (agora : datetime) (endpoint : string)
    (dados : json) (data_negocio : date) (id_loja : string)
    (extra : option (list (string * json))) (w w1 : world) (s : string)
    (c : contents) (n : N) :
  wf_tree (fs w) → has_slash endpoint = false →
  fs w !! caminho_arquivo_de self agora endpoint data_negocio id_loja
  = Some (File c n) →
  armazenar_resposta_api self agora endpoint dados data_negocio id_loja
    extra w = (w1, inr s) →
  ∃ n',
    fs w1 !! caminho_arquivo_de self agora endpoint data_negocio id_loja
    = Some (File (Document
                    (registro_gravado
                       (com_adicionais
                          (metadados_de agora endpoint dados data_negocio
                             id_loja) extra)
                       dados)) n').
Proof.
  intros Hwf He _ Hrun.
  by destruct (armazenar_ok _ _ _ _ _ _ _ _ _ _ Hwf He Hrun)
    as (_ & _ & Harq & _).
Qed.

Lemma store_overwrites_existing_record_witness :
  ∃ n',
    fs mundo_regravado !! arquivo_exemplo
    = Some (File (Document
                    (registro_gravado
                       (com_adicionais
                          (metadados_de (H := runtime_exemplo) agora_exemplo
                             "getGuestChecks" outros_dados dia_2024_01_15
                             "loja_teste") None)
                       outros_dados)) n').
Proof.
  apply (store_overwrites_existing_record (H := runtime_exemplo) lake
           agora_exemplo "getGuestChecks" outros_dados dia_2024_01_15
           "loja_teste" None mundo_com_registro mundo_regravado
           (PurePath.str arquivo_exemplo)
           (Document
              (registro_gravado
                 (metadados_de (H := runtime_exemplo) agora_exemplo
                    "getGuestChecks" dados_teste dia_2024_01_15
                    "loja_teste")
                 dados_teste))
           504%N).
  - apply wf_tree_decide. by vm_compute.
  - reflexivity.
  - by vm_compute.
  - apply run_eq. by vm_compute.
Defined.

(** The two calls of the small lake, end to end: the second returns the
    path the first returned, and the query finds one record, the second. *)
Lemma same_second_calls_collide :
  (armazenar_resposta_api (H := runtime_exemplo) lake agora_exemplo
     "getGuestChecks" dados_teste dia_2024_01_15 "loja_teste" None
     mundo_inicial).2
  = inr (PurePath.str arquivo_exemplo)
  ∧ (armazenar_resposta_api (H := runtime_exemplo) lake agora_exemplo
       "getGuestChecks" outros_dados dia_2024_01_15 "loja_teste" None
       mundo_com_registro).2
    = inr (PurePath.str arquivo_exemplo)
  ∧ match (buscar_dados lake "getGuestChecks" dia_2024_01_15 dia_2024_01_15
             (Some "loja_teste") mundo_regravado).2 with
    | inr [JObj m] => Dict.get "dados" m
    | _ => None
    end = Some outros_dados.
Proof. by vm_compute. Qed.

(** ** The statistics *)





(* ===================================================================== *)
(** * Further properties of the manager *)
(* ===================================================================== *)

(** ** The range of a query, and the turn of the cleanup loop *)

(** X1. The paths of the query being spelled directly, a query that
    returns has left the tree as it is, has logged the warnings of the
    files it skipped, and returns the records of the store directories of
    the days from the first to the last, both included, day after day;
    when the first day is after the last, it returns no record. *)
Theorem query_returns_records_of_range (self : GerenciadorDataLake)
    (endpoint : string) (d1 d2 : date) (id_loja : option string)
    (w w' : world) (rs : list json) :
  wf_tree (fs w) → date_valid d1 → date_valid d2 →
  consulta_direta (caminho_base self) endpoint id_loja →
  buscar_dados self endpoint d1 d2 id_loja w = (w', inr rs) →
  fs w' = fs w
  ∧ log w' = log w ++ avisos_periodo (fs w) (caminho_base self) endpoint
                        d1 d2 id_loja
  ∧ rs = mjoin (registros_pasta (fs w)
                <$> mjoin ((λ d, pastas_dia (fs w) (caminho_base self)
                                   endpoint d id_loja)
                           <$> dias_entre d1 d2))
  ∧ (∀ d, d ∈ dias_entre d1 d2 ↔
          toordinal d1 <= toordinal d <= toordinal d2)
  ∧ (toordinal d2 < toordinal d1 → rs = []).
Proof.
  intros Hwf Hd1 Hd2 _ Hrun. rewrite buscar_dados_run in Hrun by done.
  case_bool_decide; [done|]. injection Hrun as <- <-.
  split; [done|]. split; [done|]. split; [done|]. split.
  - intros d. apply elem_of_dias_entre.
  - intros Hgt. unfold registros_periodo, pastas_periodo.
    by rewrite dias_entre_vazio.
Qed.

Lemma query_returns_records_of_range_witness :
  let r :=
    buscar_dados lake "getGuestChecks" dia_2024_01_15 dia_2024_01_15
      (Some "loja_teste") mundo_com_registro in
  let rs := match r.2 with inr rs => rs | inl _ => [] end in
  fs r.1 = fs mundo_com_registro
  ∧ log r.1 = log mundo_com_registro
              ++ avisos_periodo (fs mundo_com_registro) (caminho_base lake)
                   "getGuestChecks" dia_2024_01_15 dia_2024_01_15
                   (Some "loja_teste")
  ∧ rs = mjoin (registros_pasta (fs mundo_com_registro)
                <$> mjoin ((λ d, pastas_dia (fs mundo_com_registro)
                                   (caminho_base lake) "getGuestChecks" d
                                   (Some "loja_teste"))
                           <$> dias_entre dia_2024_01_15 dia_2024_01_15))
  ∧ (∀ d, d ∈ dias_entre dia_2024_01_15 dia_2024_01_15 ↔
          toordinal dia_2024_01_15 <= toordinal d
          <= toordinal dia_2024_01_15)
  ∧ (toordinal dia_2024_01_15 < toordinal dia_2024_01_15 → rs = []).
Proof.
  intros r rs.
  apply (query_returns_records_of_range lake "getGuestChecks"
           dia_2024_01_15 dia_2024_01_15 (Some "loja_teste")
           mundo_com_registro r.1 rs).
  - apply wf_tree_decide. by vm_compute.
  - by vm_compute.
  - by vm_compute.
  - unfold consulta_direta. apply (bool_decide_unpack _). by vm_compute.
  - unfold r. apply run_eq. by vm_compute.
Defined.

(** X2. The turn of the cleanup loop for a day directory whose name holds
    an integer.  When [date(ano, mes, dia)] raises [ValueError], that is,
    when the three numbers lie within a C [int] and form no calendar date,
    the turn logs the warning, removes nothing and leaves the counters as
    they are: the walk goes on.  When a number lies beyond a C [int],
    [date] raises [OverflowError], which the [except] clause does not
    catch: the turn, and the cleanup with it, ends with that exception
    and no warning. *)
Theorem cleanup_skips_impossible_date (corte : date) (ano mes dia : Z)
    (acc : Z * Z) (pasta_dia : path) (w : world) :
  numero (PurePath.name pasta_dia) = inr dia →
  (date_new ano mes dia = inl ValueError
   ↔ c_int ano && c_int mes && c_int dia = true
     ∧ Calendar.check_date_fields ano mes dia = false)
  ∧ (date_new ano mes dia = inl ValueError →
     limpar_dia corte ano mes acc pasta_dia w
     = ({| fs := fs w; log := log w ++ [WarnDataInvalida pasta_dia] |},
        inr acc))
  ∧ (c_int ano && c_int mes && c_int dia = false →
     limpar_dia corte ano mes acc pasta_dia w = (w, inl OverflowError)).
Proof.
  intros Hn.
  assert (numero_da_pasta pasta_dia w = (w, inr dia)) as Hrun.
  { unfold numero_da_pasta, numero in *. rewrite run_bind. unfold lift.
    destruct (split_eq_1 (PurePath.name pasta_dia)); [done|].
    by rewrite Hn. }
  split; [|split].
  - unfold date_new. destruct (c_int ano && c_int mes && c_int dia);
      [|by split; [|intros [? _]]].
    destruct (Calendar.check_date_fields ano mes dia);
      by split; [|intros [_ ?]].
  - intros Hd. unfold limpar_dia.
    rewrite run_bind, Hrun. unfold try_except_ValueError, try_except.
    rewrite run_bind. unfold lift at 1. by rewrite Hd.
  - intros Hc. unfold limpar_dia.
    rewrite run_bind, Hrun. unfold try_except_ValueError, try_except.
    rewrite run_bind. unfold lift at 1, date_new. by rewrite Hc.
Qed.

Lemma cleanup_skips_impossible_date_witness :
  let pasta_dia :=
    caminho_base lake // estrutura_pastas raw // "getGuestChecks"
    // "ano=2024" // "mes=02" // "dia=31" in
  (date_new 2024 2 31 = inl ValueError
   ↔ c_int 2024 && c_int 2 && c_int 31 = true
     ∧ Calendar.check_date_fields 2024 2 31 = false)
  ∧ (date_new 2024 2 31 = inl ValueError →
     limpar_dia (Date 738948) 2024 2 (0, 0) pasta_dia mundo_dia_31_02
     = ({| fs := fs mundo_dia_31_02;
           log := log mundo_dia_31_02 ++ [WarnDataInvalida pasta_dia] |},
        inr (0, 0)))
  ∧ (c_int 2024 && c_int 2 && c_int 31 = false →
     limpar_dia (Date 738948) 2024 2 (0, 0) pasta_dia mundo_dia_31_02
     = (mundo_dia_31_02, inl OverflowError)).
Proof.
  intros pasta_dia.
  apply (cleanup_skips_impossible_date (Date 738948) 2024 2 31 (0, 0)
           pasta_dia mundo_dia_31_02).
  by vm_compute.
Defined.

(** ** The sidecar, the frame and the other records *)

(** X3. A store call that returns has written, beside the record, the
    sidecar [<base>/metadados/<endpoint>/meta_<stem>.json]: the envelope of
    the record, with the caller's extra entries, to which
    ["caminho_arquivo"], the path the call returns, and ["nome_arquivo"],
    the name of the record file, are added. *)
Theorem store_writes_sidecar `{Runtime} (self : GerenciadorDataLake)
    (agora : datetime) (endpoint : string) (dados : json)
    (data_negocio : date) (id_loja : string)
    (extra : option (list (string * json))) (w w2 : world) (s : string) :
  has_slash endpoint = false →
  armazenar_resposta_api self agora endpoint dados data_negocio id_loja
    extra w = (w2, inr s) →
  ∃ doc n,
    fs w2 !! (caminho_base self // estrutura_pastas metadata // endpoint
              // ("meta_"
                  +:+ PurePath.stem
                        (caminho_arquivo_de self agora endpoint data_negocio
                           id_loja)
                  +:+ ".json"))
    = Some (File (Document (JObj doc)) n)
    ∧ Dict.get "caminho_arquivo" doc = Some (JStr s)
    ∧ Dict.get "nome_arquivo" doc
      = Some (JStr (PurePath.name
                      (caminho_arquivo_de self agora endpoint data_negocio
                         id_loja)))
    ∧ (∀ k, k ≠ "caminho_arquivo" → k ≠ "nome_arquivo" →
            Dict.get k doc
            = Dict.get k (com_adicionais
                            (metadados_de agora endpoint dados data_negocio
                               id_loja) extra)).
Proof.
  intros He Hrun.
  destruct (armazenar_efeito self _ _ _ _ _ _ _ _ _ He Hrun)
    as (-> & _ & _ & [n Hside] & _).
  eexists _, n. split; [exact Hside|]. unfold metadados_sidecar, Json.set.
  split; [|split].
  - by rewrite dict_get_set_ne, dict_get_set_eq.
  - by rewrite dict_get_set_eq.
  - intros k Hk1 Hk2. by rewrite !dict_get_set_ne.
Qed.

(** ** The sidecar, the frame and the other records *)

Lemma store_writes_sidecar_witness :
  ∃ doc n,
    fs mundo_com_registro
    !! (caminho_base lake // estrutura_pastas metadata // "getGuestChecks"
        // ("meta_" +:+ PurePath.stem arquivo_exemplo +:+ ".json"))
    = Some (File (Document (JObj doc)) n)
    ∧ Dict.get "caminho_arquivo" doc
      = Some (JStr (PurePath.str arquivo_exemplo))
    ∧ Dict.get "nome_arquivo" doc
      = Some (JStr (PurePath.name arquivo_exemplo))
    ∧ (∀ k, k ≠ "caminho_arquivo" → k ≠ "nome_arquivo" →
            Dict.get k doc
            = Dict.get k (com_adicionais
                            (metadados_de (H := runtime_exemplo)
                               agora_exemplo "getGuestChecks" dados_teste
                               dia_2024_01_15 "loja_teste") None)).
Proof.
  apply (store_writes_sidecar (H := runtime_exemplo) lake agora_exemplo
           "getGuestChecks" dados_teste dia_2024_01_15 "loja_teste" None
           mundo_inicial mundo_com_registro).
  - reflexivity.
  - unfold mundo_com_registro. apply run_eq. by vm_compute.
Defined.





(** X6. A query without store filter reads every store directory: after a
    store call has returned, the query for its endpoint with [id_loja]
    [None], or with the empty string, which the code takes for no filter,
    over a range that holds the day of the record and ends before
    9999-12-31, returns the payload stored, whatever the store. *)
Theorem store_then_query_all_stores `{Runtime} (self : GerenciadorDataLake)
    (agora : datetime) (endpoint : string) (dados : json)
    (data_negocio : date) (id_loja : string)
    (extra : option (list (string * json))) (d1 d2 : date) (w w1 : world)
    (s : string) :
  wf_tree (fs w) →
  has_slash endpoint = false → has_slash id_loja = false →
  date_valid d1 →
  toordinal d1 <= toordinal data_negocio <= toordinal d2 →
  toordinal d2 < Calendar._MAXORDINAL →
  armazenar_resposta_api self agora endpoint dados data_negocio id_loja
    extra w = (w1, inr s) →
  (∃ w2 rs m,
     buscar_dados self endpoint d1 d2 None w1 = (w2, inr rs)
     ∧ JObj m ∈ rs ∧ Dict.get "dados" m = Some dados)
  ∧ buscar_dados self endpoint d1 d2 (Some "") w1
    = buscar_dados self endpoint d1 d2 None w1.
Proof.
  intros Hwf He Hi Hd1 Hdn Hd2 Hrun.
  destruct (armazenar_ok self _ _ _ _ _ _ _ _ _ Hwf He Hrun)
    as (Hwf1 & _ & [n Harq] & _).
  split.
  - destruct (registro_encontrado self (fs w1) agora endpoint dados
                data_negocio id_loja _ n d1 d2 None Hwf1 He Hi Harq Hdn)
      as (m & Hin & Hget); [by right; left|].
    rewrite buscar_dados_run; [|done|done|unfold date_valid in *; lia].
    rewrite bool_decide_eq_false_2 by lia.
    by eexists _, _, m.
  - by rewrite !buscar_dados_run
      by (first [done|unfold date_valid in *; lia]).
Qed.

Lemma store_then_query_all_stores_witness :
  (∃ w2 rs m,
     buscar_dados lake "getGuestChecks" dia_2024_01_15 dia_2024_01_15 None
       mundo_com_registro = (w2, inr rs)
     ∧ JObj m ∈ rs ∧ Dict.get "dados" m = Some dados_teste)
  ∧ buscar_dados lake "getGuestChecks" dia_2024_01_15 dia_2024_01_15
      (Some "") mundo_com_registro
    = buscar_dados lake "getGuestChecks" dia_2024_01_15 dia_2024_01_15 None
        mundo_com_registro.
Proof.
  apply (store_then_query_all_stores (H := runtime_exemplo) lake
           agora_exemplo "getGuestChecks" dados_teste dia_2024_01_15
           "loja_teste" None dia_2024_01_15 dia_2024_01_15 mundo_inicial
           mundo_com_registro (PurePath.str arquivo_exemplo)).
  - apply wf_tree_decide. by vm_compute.
  - reflexivity.
  - reflexivity.
  - by vm_compute.
  - by vm_compute.
  - by vm_compute.
  - unfold mundo_com_registro. apply run_eq. by vm_compute.
Defined.

(** ** Creating the structure *)

(** X7. A construction of the manager that returns has only added
    directories: the log and every entry that was in the tree are as they
    were, and a well-formed tree stays well formed.  Afterwards the base
    directory and the six zone directories are there, and in the raw and
    the processed zone each of the five endpoints has its directory, with
    the partition [ano=Y/mes=MM/dia=DD] of the day of the call. *)
Theorem init_creates_structure (self : GerenciadorDataLake)
    (agora : datetime) (w w' : world) :
  _criar_estrutura_base self agora w = (w', inr ()) →
  log w' = log w
  ∧ (∀ k, fs w' !! k = fs w !! k
          ∨ (fs w !! k = None ∧ fs w' !! k = Some Dir))
  ∧ (wf_tree (fs w) → wf_tree (fs w'))
  ∧ Fs.is_dir (fs w') (caminho_base self) = true
  ∧ ∀ z,
      Fs.is_dir (fs w') (caminho_base self // estrutura_pastas z) = true
      ∧ (z ∈ [raw; processed] → ∀ e, e ∈ endpoints_api →
           Fs.is_dir (fs w')
             (caminho_base self // estrutura_pastas z // e) = true
           ∧ Fs.is_dir (fs w')
               (caminho_base self // estrutura_pastas z // e
                // ("ano=" +:+ PyStr.fmt_d (date_year (dt_date agora)))
                // ("mes=" +:+ PyStr.fmt_0d 2 (date_month (dt_date agora)))
                // ("dia=" +:+ PyStr.fmt_0d 2 (date_day (dt_date agora))))
             = true).
Proof.
  intros Hrun.
  pose proof (_criar_estrutura_base_spec self agora w) as Hspec.
  unfold wp in Hspec. rewrite Hrun in Hspec.
  destruct Hspec as ((Hlog & Hg & Hwf) & Hbase & Hz).
  split; [exact Hlog|]. split; [exact Hg|]. split; [exact Hwf|].
  split; [exact Hbase|exact Hz].
Qed.

Lemma init_creates_structure_witness :
  log mundo_inicial = log mundo_vazio
  ∧ (∀ k, fs mundo_inicial !! k = fs mundo_vazio !! k
          ∨ (fs mundo_vazio !! k = None ∧ fs mundo_inicial !! k = Some Dir))
  ∧ (wf_tree (fs mundo_vazio) → wf_tree (fs mundo_inicial))
  ∧ Fs.is_dir (fs mundo_inicial) (caminho_base lake) = true
  ∧ ∀ z,
      Fs.is_dir (fs mundo_inicial) (caminho_base lake // estrutura_pastas z)
      = true
      ∧ (z ∈ [raw; processed] → ∀ e, e ∈ endpoints_api →
           Fs.is_dir (fs mundo_inicial)
             (caminho_base lake // estrutura_pastas z // e) = true
           ∧ Fs.is_dir (fs mundo_inicial)
               (caminho_base lake // estrutura_pastas z // e
                // ("ano="
                    +:+ PyStr.fmt_d (date_year (dt_date agora_exemplo)))
                // ("mes="
                    +:+ PyStr.fmt_0d 2 (date_month (dt_date agora_exemplo)))
                // ("dia="
                    +:+ PyStr.fmt_0d 2 (date_day (dt_date agora_exemplo))))
             = true).
Proof.
  apply (init_creates_structure lake agora_exemplo mundo_vazio
           mundo_inicial).
  unfold mundo_inicial. apply run_eq. by vm_compute.
Defined.

(** X8. Constructing the manager is idempotent: after a construction has
    returned on a well-formed tree, a second one, on the same day, returns
    and leaves the tree and the log as they are. *)
Theorem init_again_changes_nothing (self : GerenciadorDataLake)
    (agora agora' : datetime) (w w' : world) :
  wf_tree (fs w) →
  _criar_estrutura_base self agora w = (w', inr ()) →
  dt_date agora' = dt_date agora →
  _criar_estrutura_base self agora' w' = (w', inr ()).
Proof.
  intros Hwf Hrun Hdia.
  pose proof (_criar_estrutura_base_spec self agora w) as Hspec.
  unfold wp in Hspec. rewrite Hrun in Hspec.
  destruct Hspec as ((_ & _ & Hwf') & Hbase & Hz).
  specialize (Hwf' Hwf).
  unfold _criar_estrutura_base.
  rewrite run_bind, Path_mkdir_existing by done.
  apply for_noop. intros z _.
  rewrite run_bind, Path_mkdir_existing by (first [done|apply Hz]).
  case_bool_decide as Hin; [|done].
  unfold _criar_estrutura_api. apply for_noop. intros e He.
  destruct (proj2 (Hz z) Hin e He) as [Ha Hb].
  rewrite run_bind, Path_mkdir_existing by done.
  rewrite Hdia. by apply Path_mkdir_existing.
Qed.

Lemma init_again_changes_nothing_witness :
  _criar_estrutura_base lake agora_exemplo mundo_inicial
  = (mundo_inicial, inr ()).
Proof.
  apply (init_again_changes_nothing lake agora_exemplo agora_exemplo
           mundo_vazio mundo_inicial).
  - apply wf_tree_decide. by vm_compute.
  - unfold mundo_inicial. apply run_eq. by vm_compute.
  - reflexivity.
Defined.

(** ** The schema listing *)

(** X9. A schema listing that returns has left the lake as it was.  Each
    of its entries is for a directory of the schema zone, under the name of
    the directory, and holds the stems of the [.json] entries of that
    directory, sorted; and every directory of the schema zone has its
    entry.  Regular files of the schema zone have none. *)
Theorem schema_listing (self : GerenciadorDataLake) (w w' : world)
    (esquemas : list (string * list string)) :
  wf_tree (fs w) →
  listar_esquemas_disponiveis self w = (w', inr esquemas) →
  w' = w
  ∧ Forall (λ kv, ∃ pasta,
              pasta ∈ Fs.children (fs w)
                        (caminho_base self // estrutura_pastas schemas)
              ∧ Fs.is_dir (fs w) pasta = true
              ∧ kv.1 = PurePath.name pasta
              ∧ Sorted String.le kv.2
              ∧ kv.2 ≡ₚ PurePath.stem
                         <$> Fs.glob (Fs.Suffix ".json") (fs w) pasta)
      esquemas
  ∧ ∀ pasta,
      pasta ∈ Fs.children (fs w)
                (caminho_base self // estrutura_pastas schemas) →
      Fs.is_dir (fs w) pasta = true →
      is_Some (Dict.get (PurePath.name pasta) esquemas).
Proof.
  intros Hwf. unfold listar_esquemas_disponiveis. rewrite run_bind, run_gets.
  destruct (Fs.exists_ _ _) eqn:Hex.
  - rewrite run_bind.
    pose proof (iterdir_spec (caminho_base self // estrutura_pastas schemas)
                  w) as Hi.
    unfold wp in Hi. destruct (Os.iterdir _ w) as [w1 [e|pastas]]; [done|].
    destruct Hi as [-> ->]. intros Hrun.
    pose proof (esquemas_loop w
                  (Fs.children (fs w)
                     (caminho_base self // estrutura_pastas schemas))) as Hl.
    unfold wp in Hl. rewrite Hrun in Hl. destruct Hl as (-> & Hall & Hdone).
    split; [done|]. split; [|done].
    eapply Forall_impl; [exact Hall|]. cbv beta.
    intros kv (pasta & Hin & Hd & Hk & ->). exists pasta.
    split; [done|]. split; [done|]. split; [done|].
    split; [apply sorted_strings_Sorted|apply sorted_strings_perm].
  - rewrite run_ret. intros [= <- <-]. split; [done|]. split; [constructor|].
    intros pasta (n & -> & Hk)%elem_of_children Hd.
    apply exists_false_lookup in Hex.
    rewrite (wf_tree_entry_parent (fs w) _ n Dir) in Hex; [done|done|].
    apply is_dir_lookup in Hd. by rewrite lookup_snoc in Hd.
Qed.

Lemma schema_listing_witness :
  (listar_esquemas_disponiveis lake mundo_com_esquemas).1
  = mundo_com_esquemas
  ∧ Forall (λ kv, ∃ pasta,
              pasta ∈ Fs.children (fs mundo_com_esquemas)
                        (caminho_base lake // estrutura_pastas schemas)
              ∧ Fs.is_dir (fs mundo_com_esquemas) pasta = true
              ∧ kv.1 = PurePath.name pasta
              ∧ Sorted String.le kv.2
              ∧ kv.2 ≡ₚ PurePath.stem
                         <$> Fs.glob (Fs.Suffix ".json")
                               (fs mundo_com_esquemas) pasta)
      [("getGuestChecks", ["v1"; "v2"])]
  ∧ ∀ pasta,
      pasta ∈ Fs.children (fs mundo_com_esquemas)
                (caminho_base lake // estrutura_pastas schemas) →
      Fs.is_dir (fs mundo_com_esquemas) pasta = true →
      is_Some (Dict.get (PurePath.name pasta)
                 [("getGuestChecks", ["v1"; "v2"])]).
Proof.
  apply (schema_listing lake mundo_com_esquemas
           (listar_esquemas_disponiveis lake mundo_com_esquemas).1).
  - apply wf_tree_decide. by vm_compute.
  - apply run_eq. by vm_compute.
Defined.

(** X10. The edges of the schema listing, on a well-formed tree: where the
    schema zone does not exist, or is a directory without entries, the
    listing is empty; where a regular file sits in its place, the listing
    raises [NotADirectoryError].  The lake is left as it was. *)
Theorem schema_listing_edges (self : GerenciadorDataLake) (w : world) :
  wf_tree (fs w) →
  (Fs.exists_ (fs w) (caminho_base self // estrutura_pastas schemas) = false →
   listar_esquemas_disponiveis self w = (w, inr []))
  ∧ (Fs.is_dir (fs w) (caminho_base self // estrutura_pastas schemas) = true →
     Fs.children (fs w) (caminho_base self // estrutura_pastas schemas) = [] →
     listar_esquemas_disponiveis self w = (w, inr []))
  ∧ (Fs.is_file (fs w) (caminho_base self // estrutura_pastas schemas) = true →
     listar_esquemas_disponiveis self w = (w, inl NotADirectoryError)).
Proof.
  intros Hwf. unfold listar_esquemas_disponiveis.
  rewrite run_bind, run_gets.
  assert (caminho_base self // estrutura_pastas schemas
          = caminho_base self ++ ["esquemas"]) as Hp
    by (apply div_plain, (zona_plain schemas)).
  split; [by intros ->|]. split.
  - intros Hd Hc. rewrite (is_dir_exists _ _ Hd), run_bind.
    apply is_dir_lookup in Hd.
    unfold Os.iterdir. rewrite run_bind, run_gets. unfold id.
    rewrite Hd, Hc. rewrite Hp in *.
    rewrite wf_tree_parent_error; [done|done|].
    rewrite lookup_snoc in Hd. by eapply wf_tree_entry_parent.
  - intros (c & n & Hf)%is_file_lookup.
    assert (Fs.exists_ (fs w) (caminho_base self // estrutura_pastas schemas)
            = true) as -> by (apply exists_lookup; by rewrite Hf).
    rewrite run_bind. unfold Os.iterdir. rewrite run_bind, run_gets.
    unfold id. rewrite Hf. rewrite Hp in *.
    rewrite wf_tree_parent_error; [done|done|].
    rewrite lookup_snoc in Hf. by eapply wf_tree_entry_parent.
Qed.

Lemma schema_listing_edges_witness :
  (Fs.exists_ (fs mundo_sem_esquemas)
     (caminho_base lake // estrutura_pastas schemas) = false →
   listar_esquemas_disponiveis lake mundo_sem_esquemas
   = (mundo_sem_esquemas, inr []))
  ∧ (Fs.is_dir (fs mundo_sem_esquemas)
       (caminho_base lake // estrutura_pastas schemas) = true →
     Fs.children (fs mundo_sem_esquemas)
       (caminho_base lake // estrutura_pastas schemas) = [] →
     listar_esquemas_disponiveis lake mundo_sem_esquemas
     = (mundo_sem_esquemas, inr []))
  ∧ (Fs.is_file (fs mundo_sem_esquemas)
       (caminho_base lake // estrutura_pastas schemas) = true →
     listar_esquemas_disponiveis lake mundo_sem_esquemas
     = (mundo_sem_esquemas, inl NotADirectoryError)).
Proof.
  apply (schema_listing_edges lake mundo_sem_esquemas).
  apply wf_tree_decide. by vm_compute.
Defined.



(** ** Cleaning twice, and statistics that do not return *)

(** X12. A cleanup that returns keeps a well-formed tree well formed, and
    a second cleanup with the same clock and retention, when it returns,
    finds nothing to remove: it leaves the tree as it is and reports no
    file and no size. *)
Theorem cleanup_twice_removes_nothing_more (self : GerenciadorDataLake)
    (agora : datetime) (dias_retencao : Z) (w w1 w2 : world)
    (rel1 rel2 : relatorio_limpeza) :
  wf_tree (fs w) →
  limpar_dados_antigos self agora dias_retencao w = (w1, inr rel1) →
  limpar_dados_antigos self agora dias_retencao w1 = (w2, inr rel2) →
  wf_tree (fs w1)
  ∧ fs w2 = fs w1
  ∧ arquivos_removidos rel2 = 0
  ∧ tamanho_liberado_mb rel2 = 0
  ∧ data_corte rel2 = data_corte rel1.
Proof.
  intros Hwf Hrun1 Hrun2.
  destruct (limpar_dados_antigos_spec _ _ _ _ _ _ Hwf Hrun1)
    as (corte & Hc & Hfs1 & _ & _ & Hd1).
  assert (wf_tree (fs w1)) as Hwf1.
  { rewrite Hfs1. apply wf_tree_sem; [apply vencido_up|done]. }
  destruct (limpar_dados_antigos_spec _ _ _ _ _ _ Hwf1 Hrun2)
    as (corte' & Hc' & Hfs2 & Hn2 & Ht2 & Hd2).
  rewrite Hc in Hc'. injection Hc' as <-.
  assert (∀ k, is_Some (fs w1 !! k) →
               vencido (caminho_base self // estrutura_pastas raw) corte k
               = false) as Hnone.
  { intros k. rewrite Hfs1, sem_lookup.
    destruct (vencido _ corte k); [by intros [? ?]|done]. }
  destruct (medida_none _ _ Hnone) as [Hcount Hsize].
  split; [done|]. split; [by rewrite Hfs2, sem_none|].
  split; [by rewrite Hn2|]. split; [by rewrite Ht2, Hsize|].
  by rewrite Hd1, Hd2.
Qed.

(** ** Cleaning twice *)

Lemma cleanup_twice_removes_nothing_more_witness :
  let w1 := (limpar_dados_antigos lake agora_depois 90 mundo_com_registro).1 in
  let w2 := (limpar_dados_antigos lake agora_depois 90 w1).1 in
  wf_tree (fs w1)
  ∧ fs w2 = fs w1
  ∧ arquivos_removidos (RelatorioLimpeza 0 0 "2024-03-03") = 0
  ∧ tamanho_liberado_mb (RelatorioLimpeza 0 0 "2024-03-03") = 0
  ∧ data_corte (RelatorioLimpeza 0 0 "2024-03-03")
    = data_corte (RelatorioLimpeza 1 0 "2024-03-03").
Proof.
  intros w1 w2.
  apply (cleanup_twice_removes_nothing_more lake agora_depois 90
           mundo_com_registro w1 w2).
  - apply wf_tree_decide. by vm_compute.
  - unfold w1. apply run_eq. by vm_compute.
  - unfold w2. apply run_eq. by vm_compute.
Defined.

(** X13. The statistics do not survive a stray [.json] file: on a
    well-formed tree where a regular file [<raw zone>/<endpoint>/ano=Y/x/name.json]
    exists whose part [x] after the year bears no [=], the walk of
    [_analisar_endpoint] indexes [x.split('=')[1]] and
    [obter_estatisticas_data_lake] raises [IndexError]; the lake is left as
    it was. *)
Theorem statistics_raise_on_stray_json (self : GerenciadorDataLake)
    (agora : datetime) (w : world) (e a x nm : string) :
  wf_tree (fs w) →
  Fs.is_file (fs w)
    ((caminho_base self // estrutura_pastas raw) ++ [e; a; x; nm]) = true →
  PyStr.endswith ".json" nm = true →
  PyStr.startswith "ano=" a = true →
  a ∉ (caminho_base self // estrutura_pastas raw) ++ [e] →
  split_eq_1 x = inl IndexError →
  obter_estatisticas_data_lake self agora w = (w, inl IndexError).
Proof.
  intros Hwf Hf Hnm Ha Hc Hx.
  set (zona_raw := caminho_base self // estrutura_pastas raw) in *.
  assert (zona_raw = caminho_base self ++ ["dados_brutos"]) as Hraw
    by apply div_plain, (zona_plain raw).
  assert (Fs.lookup (fs w) zona_raw = Some Dir) as Hdraw.
  { apply (wf_tree_above _ _ [e; a; x; nm]); [done..|].
    by apply is_file_Some. }
  assert (Fs.lookup (fs w) (zona_raw ++ [e]) = Some Dir) as Hdc.
  { apply (wf_tree_above _ _ [a; x; nm]); [done..|].
    rewrite <-app_assoc. by apply is_file_Some. }
  assert (Os.iterdir zona_raw w = (w, inr (Fs.children (fs w) zona_raw)))
    as Hiter.
  { unfold Os.iterdir. rewrite run_bind, run_gets. unfold id.
    rewrite Hdraw. rewrite Hraw in *.
    rewrite wf_tree_parent_error; [done|done|].
    rewrite lookup_snoc in Hdraw. by eapply wf_tree_entry_parent. }
  unfold obter_estatisticas_data_lake. rewrite run_bind.
  rewrite (for_raises _ _ _ w IndexError raw); [done| | |].
  - apply zonas_all.
  - intros acc. fold zona_raw. rewrite run_bind, run_gets.
    assert (Fs.exists_ (fs w) zona_raw = true) as ->
      by (apply exists_lookup; by rewrite Hdraw).
    rewrite run_bind, _analisar_pasta_run.
    rewrite bool_decide_eq_true_2 by done.
    rewrite run_bind, Hiter, run_bind.
    rewrite (for_raises _ _ _ w IndexError (zona_raw ++ [e])); [done| | |].
    + apply elem_of_children. exists e. split; [done|].
      rewrite lookup_snoc in Hdc. by rewrite Hdc.
    + intros endpoints. rewrite run_bind, run_gets.
      rewrite (proj2 (is_dir_lookup _ _) Hdc), run_bind.
      rewrite (_analisar_endpoint_raises _ a x nm); try done.
      * by apply is_dir_lookup.
      * by rewrite <-app_assoc.
    + intros endpoints c _. apply wp_bind, wp_gets.
      destruct (Fs.is_dir (fs w) c); [|done].
      apply wp_bind.
      eapply wp_mono; [apply _analisar_endpoint_index| |done].
      cbv beta. by intros w' info ->.
  - intros acc z Hz. apply wp_bind, wp_gets.
    destruct (Fs.exists_ (fs w) _); [|done].
    apply wp_bind. unfold wp at 1. rewrite _analisar_pasta_run.
    by rewrite bool_decide_eq_false_2.
Qed.

Lemma statistics_raise_on_stray_json_witness :
  obter_estatisticas_data_lake lake agora_depois mundo_com_rascunho
  = (mundo_com_rascunho, inl IndexError).
Proof.
  apply (statistics_raise_on_stray_json lake agora_depois mundo_com_rascunho
           "getGuestChecks" "ano=2024" "rascunho" "nota.json").
  - apply wf_tree_decide. by vm_compute.
  - by vm_compute.
  - by vm_compute.
  - by vm_compute.
  - apply (bool_decide_unpack _). by vm_compute.
  - by vm_compute.
Defined.
